(** * The question router and the table/chart stage of the agent demo

    A shallow embedding of [agent.py] (keyword router over a three-branch
    graph) and of [agent_with_sql.py] (agent call, CSV extraction from the
    agent's free text, chart selection, status message), with the properties
    the design document states about them.

    Conventions.
    - A Python [str] is a list of Unicode code points ([N]); literals are
      written with [u "..."].
    - [x | None] is [option x]; a raised exception is an explicit outcome.
    - File writes and matplotlib calls are recorded, in program order, in a
      list of events returned next to the value; a call that raises is the
      last event of its block.
    - Library functions whose tables are not reproduced here ([str.lower],
      [float], [datetime.fromisoformat], the SQL agent) are Section variables;
      the theorems hold for every instance.
    - Whether a matplotlib call raises, and whether the operating system
      refuses a file, is read off Section variables as well: every run of
      the program is the run of the model for some instance of them.  The
      encoding of the written table to UTF-8 is modelled: a lone surrogate
      raises. *)

From Stdlib Require Import NArith ZArith QArith String Ascii List Bool Lia.
From Stdlib Require Import DecimalString DecimalNat.
From stdpp Require Import base option list numbers.
Import ListNotations.

Local Open Scope N_scope.
Local Open Scope list_scope.

(** ** Text *)

Definition str := list N.

(** A literal of ASCII characters as a [str]. *)
Definition u (s : string) : str :=
  List.map N_of_ascii (list_ascii_of_string s).

(** [s.startswith(p)] *)
Fixpoint startswith (p s : str) : bool :=
  match p, s with
  | [], _ => true
  | _ :: _, [] => false
  | a :: p', b :: s' => (a =? b) && startswith p' s'
  end.

(** [k in q] on two strings: [k] occurs in [q] as a contiguous run. *)
Fixpoint contains (k q : str) : bool :=
  startswith k q ||
  match q with
  | [] => false
  | _ :: q' => contains k q'
  end.

(** [any(k in q for k in keywords)] *)
Definition any_in (keywords : list str) (q : str) : bool :=
  existsb (fun k => contains k q) keywords.

(** [str.isspace] on one code point (the Unicode White_Space set together
    with the four separators U+001C..U+001F, as CPython has it). *)
Definition isspace (c : N) : bool :=
  ((9 <=? c) && (c <=? 13)) || ((28 <=? c) && (c <=? 32)) ||
  (c =? 133) || (c =? 160) || (c =? 5760) ||
  ((8192 <=? c) && (c <=? 8202)) || (c =? 8232) || (c =? 8233) ||
  (c =? 8239) || (c =? 8287) || (c =? 12288).

Fixpoint lstrip (s : str) : str :=
  match s with
  | [] => []
  | c :: s' => if isspace c then lstrip s' else s
  end.

Definition rstrip (s : str) : str := rev (lstrip (rev s)).

(** [s.strip()] *)
Definition strip (s : str) : str := rstrip (lstrip s).

(** The line boundaries of [str.splitlines]. *)
Definition is_linebreak (c : N) : bool :=
  ((10 <=? c) && (c <=? 13)) || ((28 <=? c) && (c <=? 30)) ||
  (c =? 133) || (c =? 8232) || (c =? 8233).

(** [splitlines_go after_cr cur s]: [cur] is the current line, reversed;
    [after_cr] says the previous character was a carriage return that closed
    a line, so that a line feed right after it belongs to the same boundary. *)
Fixpoint splitlines_go (after_cr : bool) (cur s : str) : list str :=
  match s with
  | [] => match cur with [] => [] | _ => [rev cur] end
  | c :: rest =>
      if after_cr && (c =? 10) then splitlines_go false cur rest
      else if is_linebreak c then rev cur :: splitlines_go (c =? 13) [] rest
      else splitlines_go false (c :: cur) rest
  end.

(** [s.splitlines()] *)
Definition splitlines (s : str) : list str := splitlines_go false [] s.

(** [s.count(c)] for a one-character [c]. *)
Definition count (c : N) (s : str) : nat :=
  length (List.filter (N.eqb c) s).

(** A code point that the UTF-8 codec encodes: every one but the surrogates
    U+D800 to U+DFFF, up to U+10FFFF. *)
Definition encodable_char (c : N) : bool :=
  (c <? 55296) || ((57343 <? c) && (c <=? 1114111)).

(** [s.encode("utf-8")] does not raise. *)
Definition encodable (s : str) : bool := forallb encodable_char s.

(** Posix [os.path.join] of two components. *)
Definition path_join (a b : str) : str :=
  if startswith (u "/") b then b
  else match list.last a with
       | None => b
       | Some c => if c =? 47 then a ++ b else a ++ u "/" ++ b
       end.

(** An instance of [str.lower] for running the model: it is [str.lower] on
    text whose code points are all below 256 (A-Z and the upper-case Latin-1
    letters move up by 32, everything else stays). *)
Definition lower_latin1_char (c : N) : N :=
  if ((65 <=? c) && (c <=? 90)) ||
     ((192 <=? c) && (c <=? 222) && negb (c =? 215))
  then c + 32 else c.

Definition lower_latin1 (s : str) : str := List.map lower_latin1_char s.

(** ** agent.py: the keyword router *)

Module Router.

Record AgentState := mkState {
  question : str;
  intent : option str;     (* "kpi" | "sentiment" | "fallback" *)
  answer : option str
}.

Arguments mkState : clear implicits.

(** The entries the [update=] dictionaries of this file carry. *)
Inductive update :=
| Intent (v : option str)
| Answer (v : option str).

Definition set_field (st : AgentState) (e : update) : AgentState :=
  match e with
  | Intent v => {| question := question st; intent := v; answer := answer st |}
  | Answer v => {| question := question st; intent := intent st; answer := v |}
  end.

(** [state.model_copy(update={...})]: a new state, the listed entries
    replaced. *)
Definition model_copy (st : AgentState) (upd : list update) : AgentState :=
  fold_left set_field upd st.

Definition kpi_keywords : list str :=
  [u "revenue"; u "sales"; u "units"; u "trend"; u "top"; u "leaderboard"].

Definition sentiment_keywords : list str :=
  [u "sentiment"; u "feedback"; u "review"].

Definition kpi_answer : str :=
  u "KPI branch: I would compute metrics (revenue/units) and return a chart.".

Definition sentiment_answer : str :=
  u "Sentiment branch: I would aggregate daily sentiment from feedback data and plot a trend.".

(** The apostrophe of the source text is U+2019. *)
Definition fallback_answer : str :=
  u "Sorry, I didn" ++ [8217] ++
  u "t understand. Try asking about revenue trend, top products, store leaderboard, or sentiment.".

Section Graph.

(** [str.lower] *)
Variable lower : str -> str.

Definition node_plan (state : AgentState) : AgentState :=
  let q := lower (question state) in
  let intent := u "fallback" in
  let intent := if any_in kpi_keywords q then u "kpi" else intent in
  let intent := if any_in sentiment_keywords q then u "sentiment" else intent in
  model_copy state [Intent (Some intent)].

(** [state.intent or "fallback"] *)
Definition route_from_intent (state : AgentState) : str :=
  match intent state with
  | None | Some [] => u "fallback"
  | Some i => i
  end.

Definition node_kpi (state : AgentState) : AgentState :=
  model_copy state [Answer (Some kpi_answer)].

Definition node_sentiment (state : AgentState) : AgentState :=
  model_copy state [Answer (Some sentiment_answer)].

Definition node_fallback (state : AgentState) : AgentState :=
  model_copy state [Answer (Some fallback_answer)].

(** [add_node]: the nodes by name. *)
Definition nodes : list (str * (AgentState -> AgentState)) :=
  [(u "plan", node_plan); (u "kpi", node_kpi);
   (u "sentiment", node_sentiment); (u "fallback", node_fallback)].

(** The dictionary of [add_conditional_edges]. *)
Definition path_map : list (str * str) :=
  [(u "kpi", u "kpi"); (u "sentiment", u "sentiment");
   (u "fallback", u "fallback")].

Definition lookup_name {A} (k : str) (d : list (str * A)) : option A :=
  snd <$> List.find (fun e => bool_decide (fst e = k)) d.

(** [graph.invoke]: START -> plan, the conditional edge out of plan, the
    branch node, END.  [None] when the router names no edge. *)
Definition invoke (state : AgentState) : option AgentState :=
  let planned := node_plan state in
  target ← lookup_name (route_from_intent planned) path_map;
  branch ← lookup_name target nodes;
  Some (branch planned).

End Graph.

End Router.


(** ** The csv module's reader, default dialect

    Delimiter comma, quote character the double quote (doubled inside a
    quoted field), no escape character, not strict, field size limit 131072.
    The state machine is the one of the [Reader] of CPython 3.11; the three
    states that only an escape character reaches are left out. *)

Module Csv.

Inductive ParserState :=
| START_RECORD
| START_FIELD
| IN_FIELD
| IN_QUOTED_FIELD
| QUOTE_IN_QUOTED_FIELD
| EAT_CRNL.

Record Reader := mkReader {
  state : ParserState;
  fields : list str;      (* the fields of the record read so far *)
  field : str             (* the characters of the field being read *)
}.

Definition delimiter : N := 44.
Definition quotechar : N := 34.
Definition field_limit : N := 131072.

Definition set_state (s : ParserState) (r : Reader) : Reader :=
  {| state := s; fields := fields r; field := field r |}.

(** [parse_reset] *)
Definition parse_reset : Reader :=
  {| state := START_RECORD; fields := []; field := [] |}.

(** [parse_save_field] *)
Definition parse_save_field (r : Reader) : Reader :=
  {| state := state r; fields := fields r ++ [field r]; field := [] |}.

(** [parse_add_char]; [None] is the error for a field over the limit. *)
Definition parse_add_char (r : Reader) (c : N) : option Reader :=
  if field_limit <=? N.of_nat (length (field r)) then None
  else Some {| state := state r; fields := fields r; field := field r ++ [c] |}.

Definition is_crnl (c : N) : bool := (c =? 10) || (c =? 13).

(** The START_FIELD case, which START_RECORD falls through to.  [None] as a
    character is the end-of-line mark the reader feeds after each line. *)
Definition start_field (r : Reader) (c : option N) : option Reader :=
  match c with
  | None => Some (set_state START_RECORD (parse_save_field r))
  | Some ch =>
      if is_crnl ch then Some (set_state EAT_CRNL (parse_save_field r))
      else if ch =? quotechar then Some (set_state IN_QUOTED_FIELD r)
      else if ch =? delimiter then Some (set_state START_FIELD (parse_save_field r))
      else set_state IN_FIELD <$> parse_add_char r ch
  end.

(** [parse_process_char]; [None] as a result is [csv.Error]. *)
Definition parse_process_char (r : Reader) (c : option N) : option Reader :=
  match state r with
  | START_RECORD =>
      match c with
      | None => Some r
      | Some ch => if is_crnl ch then Some (set_state EAT_CRNL r)
                   else start_field r c
      end
  | START_FIELD => start_field r c
  | IN_FIELD =>
      match c with
      | None => Some (set_state START_RECORD (parse_save_field r))
      | Some ch =>
          if is_crnl ch then Some (set_state EAT_CRNL (parse_save_field r))
          else if ch =? delimiter then Some (set_state START_FIELD (parse_save_field r))
          else parse_add_char r ch
      end
  | IN_QUOTED_FIELD =>
      match c with
      | None => Some r
      | Some ch =>
          if ch =? quotechar then Some (set_state QUOTE_IN_QUOTED_FIELD r)
          else parse_add_char r ch
      end
  | QUOTE_IN_QUOTED_FIELD =>
      match c with
      | None => Some (set_state START_RECORD (parse_save_field r))
      | Some ch =>
          if ch =? quotechar then set_state IN_QUOTED_FIELD <$> parse_add_char r ch
          else if ch =? delimiter then Some (set_state START_FIELD (parse_save_field r))
          else if is_crnl ch then Some (set_state EAT_CRNL (parse_save_field r))
          else set_state IN_FIELD <$> parse_add_char r ch
      end
  | EAT_CRNL =>
      match c with
      | None => Some (set_state START_RECORD r)
      | Some ch => if is_crnl ch then Some r else None
      end
  end.

(** One line of input, character by character, then the end-of-line mark. *)
Fixpoint feed (r : Reader) (line : str) : option Reader :=
  match line with
  | [] => parse_process_char r None
  | c :: line' => r' ← parse_process_char r (Some c); feed r' line'
  end.

(** Iterating over [io.StringIO(s)]: the lines of [s], each with its line
    feed; only a line feed ends a line. *)
Fixpoint readlines_go (cur s : str) : list str :=
  match s with
  | [] => match cur with [] => [] | _ => [rev cur] end
  | c :: rest =>
      if c =? 10 then rev (c :: cur) :: readlines_go [] rest
      else readlines_go (c :: cur) rest
  end.

Definition StringIO (s : str) : list str := readlines_go [] s.

(** [list(reader)] over the remaining [lines], [r] being the state inside
    the current call of [__next__] ([parse_reset] at its start).  A record
    ends when the state is back at START_RECORD after a line; when the input
    ends inside a record the pending field is saved and the record returned;
    [None] is [csv.Error]. *)
Fixpoint read_rows (r : Reader) (lines : list str) : option (list (list str)) :=
  match lines with
  | [] =>
      match field r, state r with
      | [], (START_RECORD | START_FIELD | IN_FIELD | QUOTE_IN_QUOTED_FIELD | EAT_CRNL) =>
          Some []
      | _, _ => Some [fields (parse_save_field r)]
      end
  | line :: rest =>
      r' ← feed r line;
      match state r' with
      | START_RECORD => rows ← read_rows parse_reset rest; Some (fields r' :: rows)
      | _ => read_rows r' rest
      end
  end.

(** [list(csv.reader(io.StringIO(s)))] *)
Definition reader_list (s : str) : option (list (list str)) :=
  read_rows parse_reset (StringIO s).

End Csv.


(** ** The csv module's writer, default dialect, and the rows of [save_table]

    Quoting is minimal: a field is put in double quotes when it holds the
    delimiter, the quote character, a carriage return or a line feed, and a
    quote character inside it is doubled; a row that is a single empty field
    is written as two quote characters; every row ends with a carriage
    return and a line feed. *)

Module CsvWriter.

Definition special (c : N) : bool :=
  (c =? Csv.delimiter) || (c =? Csv.quotechar) || (c =? 13) || (c =? 10).

(** The characters of a field inside quotes. *)
Fixpoint escape (f : str) : str :=
  match f with
  | [] => []
  | c :: f' => if c =? Csv.quotechar then c :: c :: escape f' else c :: escape f'
  end.

Definition write_field (f : str) : str :=
  if existsb special f then Csv.quotechar :: escape f ++ [Csv.quotechar] else f.

Fixpoint join_fields (fields : list str) : str :=
  match fields with
  | [] => []
  | [f] => write_field f
  | f :: fs => write_field f ++ Csv.delimiter :: join_fields fs
  end.

(** [writer.writerow(row)]: the text written. *)
Definition writerow (row : list str) : str :=
  match row with
  | [[]] => [Csv.quotechar; Csv.quotechar; 13; 10]
  | _ => join_fields row ++ [13; 10]
  end.

(** [writer.writerows(rows)] *)
Fixpoint writerows (rows : list (list str)) : str :=
  match rows with
  | [] => []
  | row :: rows' => writerow row ++ writerows rows'
  end.

(** The rows handed one by one to a text file that encodes to UTF-8.  Each
    row is one [write] of its whole text: when that text does not encode,
    [UnicodeEncodeError] is raised, nothing of the row reaches the file and
    the rows after it are not written.  The result is the text the file holds
    in the end, and whether every row was written. *)
Fixpoint write_rows (rows : list (list str)) : str * bool :=
  match rows with
  | [] => ([], true)
  | row :: rows' =>
      if encodable (writerow row) then
        let (text, done) := write_rows rows' in (writerow row ++ text, done)
      else ([], false)
  end.

End CsvWriter.


(** ** agent_with_sql.py: agent call, table extraction, chart, message *)

(** What a run does to the outside world, in program order: the file of
    [save_table] and the matplotlib calls of [maybe_chart].  [WriteFile path
    text] says that the file at [path] holds the UTF-8 encoding of [text]
    when [save_table] is left; [WriteFailed path] that the operating system
    refused the file, and what it holds is not known.  A matplotlib event is
    a call that was made, whether it returned or raised. *)
Inductive event (float datetime : Type) :=
| WriteFile (path : str) (text : str)
| WriteFailed (path : str)
| PltFigure
| PltPlot (x : list datetime) (y : list float)
| PltBar (x : list str) (y : list float)
| PltXticks
| PltXlabel (s : str)
| PltYlabel (s : str)
| PltTitle (s : str)
| PltTightLayout
| PltSavefig (path : str)
| PltClose.

Arguments WriteFile {float datetime}.
Arguments WriteFailed {float datetime}.
Arguments PltFigure {float datetime}.
Arguments PltPlot {float datetime}.
Arguments PltBar {float datetime}.
Arguments PltXticks {float datetime}.
Arguments PltXlabel {float datetime}.
Arguments PltYlabel {float datetime}.
Arguments PltTitle {float datetime}.
Arguments PltTightLayout {float datetime}.
Arguments PltSavefig {float datetime}.
Arguments PltClose {float datetime}.

(** The exceptions of a run, all of them subclasses of [Exception]:
    [Error name] is any other one, by the name of its class. *)
Inductive exn :=
| IndexError
| ValueError
| UnicodeEncodeError
| OSError
| Error (name : str).

Inductive outcome (A : Type) :=
| Return (a : A)
| Raise (e : exn).

Arguments Return {A}.
Arguments Raise {A}.

(** The design document's ChartDecision. *)
Inductive ChartDecision (float datetime : Type) :=
| NoChart
| TimeSeries (xValues : list datetime) (yValues : list float)
| Categorical (xLabels : list str) (yValues : list float).

Arguments NoChart {float datetime}.
Arguments TimeSeries {float datetime}.
Arguments Categorical {float datetime}.

(** The decision a run of the chart selector took, read off its calls: the
    first drawing call it made, [plt.plot] for the time series, [plt.bar]
    for the categorical chart.  (The code has no separate selection step:
    when a call of the time-series attempt raises, the bar chart is drawn
    after it, and the decision read here is still the time series.) *)
Fixpoint chart_decision {float datetime} (evs : list (event float datetime))
  : ChartDecision float datetime :=
  match evs with
  | [] => NoChart
  | PltPlot x y :: _ => TimeSeries x y
  | PltBar x y :: _ => Categorical x y
  | _ :: evs' => chart_decision evs'
  end.

Module SqlAgent.

Definition OUT_DIR : str := u "./outputs".

Definition SAFETY_PREFIX : str :=
  u "Use only SELECT. Never modify data. " ++
  u "If grouping by day, use DATE(Date) AS Date. " ++
  u "When feasible, return results as CSV (first line headers, comma-separated).".

Record AgentState := mkState {
  question : str;
  raw_output : option str;
  result_csv_path : option str;
  chart_png_path : option str;
  message : option str
}.

(** The entries the [update=] dictionaries of this file carry. *)
Inductive update :=
| RawOutput (v : option str)
| ResultCsvPath (v : option str)
| ChartPngPath (v : option str)
| Message (v : option str).

Definition set_field (st : AgentState) (e : update) : AgentState :=
  match e with
  | RawOutput v =>
      {| question := question st; raw_output := v;
         result_csv_path := result_csv_path st;
         chart_png_path := chart_png_path st; message := message st |}
  | ResultCsvPath v =>
      {| question := question st; raw_output := raw_output st;
         result_csv_path := v;
         chart_png_path := chart_png_path st; message := message st |}
  | ChartPngPath v =>
      {| question := question st; raw_output := raw_output st;
         result_csv_path := result_csv_path st;
         chart_png_path := v; message := message st |}
  | Message v =>
      {| question := question st; raw_output := raw_output st;
         result_csv_path := result_csv_path st;
         chart_png_path := chart_png_path st; message := v |}
  end.

(** [state.model_copy(update={...})] *)
Definition model_copy (st : AgentState) (upd : list update) : AgentState :=
  fold_left set_field upd st.

Definition fence : str := u "```".

(** [re.sub(r"^```(csv|CSV)?", "", s, flags=re.M)]: three backquotes at the
    start of the text or right after a line feed are removed, with a [csv]
    or [CSV] that follows them.  [bol] says the position is at such a start,
    [skip] counts the characters of a match still to drop. *)
Fixpoint sub_fence_open_go (bol : bool) (skip : nat) (s : str) : str :=
  match s with
  | [] => []
  | c :: rest =>
      match skip with
      | S k => sub_fence_open_go false k rest
      | O =>
          if bol && startswith fence s then
            if startswith (fence ++ u "csv") s || startswith (fence ++ u "CSV") s
            then sub_fence_open_go false 5 rest
            else sub_fence_open_go false 2 rest
          else c :: sub_fence_open_go (c =? 10) 0 rest
      end
  end.

Definition sub_fence_open (s : str) : str := sub_fence_open_go true 0 s.

(** The position after three backquotes is the end of the text or a line
    feed: where [$] matches under [re.M]. *)
Definition at_line_end (s : str) : bool :=
  match s with
  | [] => true
  | c :: _ => c =? 10
  end.

(** [re.sub(r"```$", "", s, flags=re.M)] *)
Fixpoint sub_fence_close_go (skip : nat) (s : str) : str :=
  match s with
  | [] => []
  | c :: rest =>
      match skip with
      | S k => sub_fence_close_go k rest
      | O =>
          if startswith fence s && at_line_end (drop 3 s)
          then sub_fence_close_go 2 rest
          else c :: sub_fence_close_go 0 rest
      end
  end.

Definition sub_fence_close (s : str) : str := sub_fence_close_go 0 s.

(** [text.strip().splitlines()[0] if text.strip().splitlines() else ""] *)
Definition first_line_of (text : str) : str :=
  match splitlines (strip text) with
  | l :: _ => l
  | [] => []
  end.

Definition parse_csv_from_text (text : str) : option (list str * list (list str)) :=
  let first_line := first_line_of text in
  if (count 44 first_line <? 1)%nat then None
  else
    let cleaned := sub_fence_open (strip text) in
    let cleaned := sub_fence_close cleaned in
    match Csv.reader_list cleaned with
    | None => None                      (* except Exception *)
    | Some [] => None                   (* if not rows *)
    | Some (header :: data) =>
        if existsb (fun r => negb (length r =? length header)%nat) data
        then None
        else Some (header, data)
    end.

Section Pipeline.

Context {float datetime : Type}.

(** [float(s)]; [None] when it raises. *)
Variable float_of_str : str -> option float.

(** [datetime.fromisoformat(s)]; [None] when it raises. *)
Variable fromisoformat : str -> option datetime.

(** Matplotlib: [plt done c] is the exception the call [c] raises when the
    calls [done] were made before it in this run of [maybe_chart], [None]
    when it returns. *)
Variable plt : list (event float datetime) -> event float datetime -> option exn.

(** The operating system refuses the file at this path: [open], a write,
    the flush or [close] raises [OSError]. *)
Variable os_error : str -> bool.

(** [sql_agent.invoke({"input": prompt})["output"]] *)
Variable sql_agent : str -> str.

(** The header and the rows go through one csv writer to a file opened for
    writing with [encoding="utf-8"]; leaving the [with] block closes the
    file, also when a row raised. *)
Definition save_table (header : list str) (rows : list (list str)) (path : str)
  : list (event float datetime) * outcome unit :=
  if os_error path then ([WriteFailed path], Raise OSError)
  else
    match CsvWriter.write_rows (header :: rows) with
    | (text, true) => ([WriteFile path text], Return tt)
    | (text, false) => ([WriteFile path text], Raise UnicodeEncodeError)
    end.

Definition out_png : str := path_join OUT_DIR (u "chart.png").

(** Matplotlib calls made one after the other after the calls [done], until
    one raises: the calls made, and the exception of the last one if it
    raised. *)
Fixpoint calls (done cs : list (event float datetime))
  : list (event float datetime) * option exn :=
  match cs with
  | [] => (done, None)
  | c :: cs' =>
      match plt done c with
      | Some e => (done ++ [c], Some e)
      | None => calls (done ++ [c]) cs'
      end
  end.

(** [header[0]] and [header[1]] are in range where they are used, by the
    first test.  [plt.figure] and the three calls of the last line are
    outside every [try]; what the calls of the time-series attempt raise is
    caught, as the [ValueError] of [fromisoformat] is, and the bar chart is
    drawn instead. *)
Definition maybe_chart (header : list str) (rows : list (list str)) (question : str)
  : list (event float datetime) * outcome (option str) :=
  if (length header <? 2)%nat || bool_decide (rows = []) then ([], Return None)
  else
    match mapM (fun r : list str => r !! 1%nat ≫= float_of_str) rows with
    | None => ([], Return None)         (* except Exception *)
    | Some y =>
        match mapM (fun r : list str => r !! 0%nat) rows with
        | None => ([], Raise IndexError)
        | Some x =>
            match calls [] [PltFigure] with
            | (done, Some e) => (done, Raise e)
            | (done, None) =>
                let attempt :=            (* try *)
                  match mapM fromisoformat x with
                  | Some xdt =>
                      calls done [PltPlot xdt y; PltXlabel (nth 0 header []);
                                  PltYlabel (nth 1 header []); PltTitle question]
                  | None => (done, Some ValueError)
                  end in
                let drawn :=
                  match attempt with
                  | (done, None) => (done, None)
                  | (done, Some _) =>     (* except Exception *)
                      calls done [PltBar (take 30 x) (take 30 y); PltXticks;
                                  PltYlabel (nth 1 header []); PltTitle question]
                  end in
                match drawn with
                | (done, Some e) => (done, Raise e)
                | (done, None) =>
                    match calls done [PltTightLayout; PltSavefig out_png; PltClose] with
                    | (done, Some e) => (done, Raise e)
                    | (done, None) => (done, Return (Some out_png))
                    end
                end
            end
        end
    end.

Definition node_agent (state : AgentState) : AgentState :=
  let out := sql_agent (SAFETY_PREFIX ++ [10; 10] ++ u "Question: " ++ question state) in
  model_copy state [RawOutput (Some out)].

Definition node_parse_and_visualize (state : AgentState)
  : list (event float datetime) * outcome AgentState :=
  match raw_output state with
  | None | Some [] =>
      ([], Return (model_copy state [Message (Some (u "No output from agent."))]))
  | Some raw =>
      match parse_csv_from_text raw with
      | None => ([], Return (model_copy state [Message (Some raw)]))
      | Some (header, rows) =>
          let out_csv := path_join OUT_DIR (u "result.csv") in
          match save_table header rows out_csv with
          | (saved, Raise e) => (saved, Raise e)
          | (saved, Return _) =>
              match maybe_chart header rows (question state) with
              | (drawn, Raise e) => (saved ++ drawn, Raise e)
              | (drawn, Return chart_path) =>
                  let msg :=
                    u "Saved " ++ out_csv ++
                    match chart_path with
                    | None | Some [] => []
                    | Some p => u " and " ++ p
                    end in
                  (saved ++ drawn,
                   Return (model_copy state
                             [ResultCsvPath (Some out_csv); ChartPngPath chart_path;
                              Message (Some msg)]))
              end
          end
      end
  end.

(** [graph.invoke]: START -> agent -> parse_visualize -> END. *)
Definition invoke (state : AgentState)
  : list (event float datetime) * outcome AgentState :=
  node_parse_and_visualize (node_agent state).

End Pipeline.

End SqlAgent.


(** The reader of [list(csv.reader(io.StringIO(s)))] seen character by
    character: [r] is the state after the characters read so far, [pending]
    says that the current line is not empty.  After a line feed the
    end-of-line mark is fed; a record ends when the state is then back at
    START_RECORD. *)
Definition at_eof (r : Csv.Reader) : list (list str) :=
  match Csv.field r, Csv.state r with
  | [], (Csv.START_RECORD | Csv.START_FIELD | Csv.IN_FIELD
        | Csv.QUOTE_IN_QUOTED_FIELD | Csv.EAT_CRNL) => []
  | _, _ => [Csv.fields (Csv.parse_save_field r)]
  end.

Fixpoint read_chars (r : Csv.Reader) (pending : bool) (s : str)
  : option (list (list str)) :=
  match s with
  | [] =>
      if pending then
        r' ← Csv.parse_process_char r None;
        match Csv.state r' with
        | Csv.START_RECORD => Some [Csv.fields r']
        | _ => Some (at_eof r')
        end
      else Some (at_eof r)
  | c :: s' =>
      r1 ← Csv.parse_process_char r (Some c);
      if c =? 10 then
        r2 ← Csv.parse_process_char r1 None;
        match Csv.state r2 with
        | Csv.START_RECORD =>
            rows ← read_chars Csv.parse_reset false s'; Some (Csv.fields r2 :: rows)
        | _ => read_chars r2 false s'
        end
      else read_chars r1 true s'
  end.

(** The characters of a line fed one by one, without the end-of-line
    mark. *)
Fixpoint feed_chars (r : Csv.Reader) (l : str) : option Csv.Reader :=
  match l with
  | [] => Some r
  | c :: l' => r' ← Csv.parse_process_char r (Some c); feed_chars r' l'
  end.


(** ** fake_data_generator.py: the master data, sales and inventory

    The outcomes of the random sources are read off oracles, one draw after
    the other: the state threaded through the generators is the number of
    draws made so far, and the k-th draw has the outcome the oracle gives
    at k.  Every run of the program is the run of the model for some
    oracles.  [print] and the progress bar are left out. *)

Module DataGen.

Inductive error := IndexError | KeyError.

Inductive result (A : Type) :=
| Ok (a : A)
| Err (e : error)
| OutOfFuel.

Arguments Ok {A}.
Arguments Err {A}.
Arguments OutOfFuel {A}.

(** A computation that draws: from the number of draws made so far to a
    value and the new number of draws. *)
Definition M (A : Type) : Type := nat -> result (A * nat).

Definition ret {A} (a : A) : M A := fun k => Ok (a, k).

Definition bind {A B} (m : M A) (f : A -> M B) : M B :=
  fun k =>
    match m k with
    | Ok (a, k') => f a k'
    | Err e => Err e
    | OutOfFuel => OutOfFuel
    end.

Notation "x <- m ;; f" := (bind m (fun x => f))
  (at level 100, m at next level, right associativity).

Definition raise {A} (e : error) : M A := fun _ => Err e.

(** [str(n)] for a natural number. *)
Definition str_of_nat (n : nat) : str :=
  u (NilEmpty.string_of_uint (Nat.to_uint n)).

Definition NUM_PRODUCTS : Z := 100.
Definition NUM_STORES : Z := 20.

Definition brands : list str :=
  [u "Great-Value"; u "Marketside"; u "Mainstays"; u "onn."; u "Equate";
   u "George"; u "Time-and-Tru"].

(** The dictionary [categories], in insertion order. *)
Definition categories : list (str * list str) :=
  [(u "Groceries",
    [u "Milk"; u "Organic-Bananas"; u "Chicken-Breast"; u "Eggs"; u "Cereal";
     u "Coffee"; u "Bread"]);
   (u "Electronics",
    [u "4K-TV"; u "Wireless-Headphones"; u "Laptop"; u "Smartphone"; u "Webcam";
     u "Mouse"]);
   (u "Home-Goods",
    [u "Bath-Towel-Set"; u "Dinnerware"; u "Vacuum"; u "Air-Freshener";
     u "Laundry-Detergent"]);
   (u "Apparel", [u "Mens-T-Shirt"; u "Womens-Jeans"; u "Socks-6-Pack"; u "Hoodie"]);
   (u "Health", [u "Ibuprofen"; u "Toothpaste"; u "Body-Wash"; u "Shampoo"])].

Definition sizes : list str := [u "50-inch"; u "15-inch"; u "65-inch"].

(** [d[key]] on a dictionary kept as a list of entries. *)
Definition getitem {A} (d : list (str * A)) (key : str) : M A :=
  match List.find (fun e => bool_decide (fst e = key)) d with
  | Some e => ret (snd e)
  | None => raise KeyError
  end.

(** The name built from a category, a product type, a brand and, for
    Electronics, a size. *)
Definition product_name (category product_type brand size : str) : str :=
  if bool_decide (category = u "Electronics")
  then brand ++ u "-" ++ size ++ u "-" ++ product_type
  else brand ++ u "-" ++ product_type.

(** Every name [generate_real_product_name] can return. *)
Definition all_names : list str :=
  c ← categories; t ← snd c; b ← brands;
  if bool_decide (fst c = u "Electronics")
  then (fun s => product_name (fst c) t b s) <$> sizes
  else [product_name (fst c) t b []].

Section Generators.

Context {float datetime day : Type}.

(** The k-th draw as a natural number, for [random.choice] and
    [random.randint]. *)
Variable rand : nat -> nat.

(** The k-th draw as [round(random.uniform(5.0, 500.0), 2)]. *)
Variable price_of : nat -> float.

(** The k-th draw as the truth of [random.random() > 0.2]. *)
Variable chance : nat -> bool.

(** The k-th draw as [fake.city()] and as [fake.uuid4()]. *)
Variable city_of : nat -> str.
Variable uuid4_of : nat -> str.

(** The k-th draw as [fake.date_time_between] and as [fake.date_between]
    of two bounds. *)
Variable date_time_between : datetime -> datetime -> nat -> datetime.
Variable date_between : datetime -> datetime -> nat -> day.

(** [round(units_sold * price, 2)] *)
Variable revenue : nat -> float -> float.

Definition draw {A} (oracle : nat -> A) : M A := fun k => Ok (oracle k, S k).

(** [random.choice(seq)]; [IndexError] on an empty sequence. *)
Definition choice {A} (seq : list A) : M A :=
  fun k =>
    match seq !! (rand k mod length seq)%nat with
    | Some x => Ok (x, S k)
    | None => Err IndexError
    end.

(** [random.randint(a, b)] *)
Definition randint (a b : nat) : M nat :=
  fun k => Ok ((a + rand k mod (b - a + 1))%nat, S k).

Definition generate_real_product_name : M str :=
  category <- choice (fst <$> categories) ;;
  types <- getitem categories category ;;
  product_type <- choice types ;;
  brand <- choice brands ;;
  if bool_decide (category ∈ [u "Groceries"; u "Health"])
  then ret (brand ++ u "-" ++ product_type)
  else if bool_decide (category = u "Electronics")
       then size <- choice sizes ;;
            ret (brand ++ u "-" ++ size ++ u "-" ++ product_type)
       else ret (brand ++ u "-" ++ product_type).

Record product := mkProduct {
  ProductID : str;
  ProductName : str;
  Price : float
}.

Record store := mkStore {
  StoreID : str;
  StoreLocation : str
}.

(** The [while] loop of [generate_master_data], [fuel] bounding the number
    of its iterations.  [generated_names] is the set of the names taken. *)
Fixpoint products_loop (fuel : nat) (num_products : Z) (i : nat)
  (product_list : list product) (generated_names : list str)
  : M (list product) :=
  match fuel with
  | O => fun _ => OutOfFuel
  | S fuel' =>
      if (Z.of_nat (length product_list) <? num_products)%Z
      then
        name <- generate_real_product_name ;;
        if bool_decide (name ∈ generated_names)
        then products_loop fuel' num_products (S i) product_list generated_names
        else
          price <- draw price_of ;;
          products_loop fuel' num_products (S i)
            (product_list ++
               [{| ProductID := u "PROD" ++ str_of_nat (100 + i);
                   ProductName := name;
                   Price := price |}])
            (name :: generated_names)
      else ret product_list
  end.

(** The list comprehension over [range(num_stores)], from index [i] on. *)
Fixpoint stores_from (n i : nat) : M (list store) :=
  match n with
  | O => ret []
  | S n' =>
      city <- draw city_of ;;
      rest <- stores_from n' (S i) ;;
      ret ({| StoreID := u "STORE" ++ str_of_nat (10 + i);
              StoreLocation := city |} :: rest)
  end.

Definition generate_master_data (fuel : nat) (num_products num_stores : Z)
  : M (list product * list store) :=
  product_list <- products_loop fuel num_products 0 [] [] ;;
  store_list <- stores_from (Z.to_nat num_stores) 0 ;;
  ret (product_list, store_list).

Record sale := mkSale {
  TransactionID : str;
  Date : datetime;
  sale_StoreID : str;
  sale_ProductID : str;
  sale_ProductName : str;
  UnitsSold : nat;
  sale_Price : float;
  TotalRevenue : float
}.

(** The [for] loop of [generate_sales_data], [n] iterations to go. *)
Fixpoint sales_loop (n : nat) (product_list : list product) (store_list : list store)
  (start_date end_date : datetime) (sales_data : list sale) : M (list sale) :=
  match n with
  | O => ret sales_data
  | S n' =>
      product <- choice product_list ;;
      store <- choice store_list ;;
      transaction_date <- draw (date_time_between start_date end_date) ;;
      units_sold <- randint 1 10 ;;
      transaction_id <- draw uuid4_of ;;
      sales_loop n' product_list store_list start_date end_date
        (sales_data ++
           [{| TransactionID := transaction_id;
               Date := transaction_date;
               sale_StoreID := StoreID store;
               sale_ProductID := ProductID product;
               sale_ProductName := ProductName product;
               UnitsSold := units_sold;
               sale_Price := Price product;
               TotalRevenue := revenue units_sold (Price product) |}])
  end.

(** The records of the data frame returned, in order. *)
Definition generate_sales_data (num_records : Z) (product_list : list product)
  (store_list : list store) (start_date end_date : datetime) : M (list sale) :=
  sales_loop (Z.to_nat num_records) product_list store_list start_date end_date [].

Record inventory := mkInventory {
  inv_ProductID : str;
  inv_StoreID : str;
  StockLevel : nat;
  LastRestockDate : day
}.

(** The inner [for] loop of [generate_inventory_data]. *)
Fixpoint inventory_stores (p : product) (stores : list store)
  (start_date end_date : datetime) (inventory_data : list inventory)
  : M (list inventory) :=
  match stores with
  | [] => ret inventory_data
  | s :: stores' =>
      keep <- draw chance ;;
      if keep
      then
        level <- randint 0 500 ;;
        restock <- draw (date_between start_date end_date) ;;
        inventory_stores p stores' start_date end_date
          (inventory_data ++
             [{| inv_ProductID := ProductID p;
                 inv_StoreID := StoreID s;
                 StockLevel := level;
                 LastRestockDate := restock |}])
      else inventory_stores p stores' start_date end_date inventory_data
  end.

(** The outer [for] loop. *)
Fixpoint inventory_products (products : list product) (store_list : list store)
  (start_date end_date : datetime) (inventory_data : list inventory)
  : M (list inventory) :=
  match products with
  | [] => ret inventory_data
  | p :: products' =>
      inventory_data' <- inventory_stores p store_list start_date end_date inventory_data ;;
      inventory_products products' store_list start_date end_date inventory_data'
  end.

Definition generate_inventory_data (product_list : list product)
  (store_list : list store) (start_date end_date : datetime) : M (list inventory) :=
  inventory_products product_list store_list start_date end_date [].

End Generators.

End DataGen.


(** ** Instances for running the model

    Two partial stand-ins for the library parsers, enough to run the pipeline
    on plain tables.  [float_of_decimal] accepts ASCII digits, with or
    without a point followed by more digits; [float] accepts every such text
    (and more: white space around it, signs, exponents, [inf], [nan]); the
    value kept here is the exact decimal one, not the rounded one.  Every
    text [date_fromisoformat] accepts, [datetime.fromisoformat] accepts, as
    midnight of that day (it accepts times and offsets too). *)

Definition is_digit (c : N) : bool := (48 <=? c) && (c <=? 57).

Fixpoint number (acc : N) (s : str) : N :=
  match s with
  | [] => acc
  | c :: s' => number (10 * acc + (c - 48)) s'
  end.

Fixpoint span_digits (s : str) : str * str :=
  match s with
  | [] => ([], [])
  | c :: s' =>
      if is_digit c then let (d, r) := span_digits s' in (c :: d, r)
      else ([], s)
  end.

Definition float_of_decimal (s : str) : option Q :=
  let (whole, rest) := span_digits s in
  match whole, rest with
  | _ :: _, [] => Some (inject_Z (Z.of_N (number 0 whole)))
  | _ :: _, dot :: frac =>
      if (dot =? 46) && forallb is_digit frac && negb (bool_decide (frac = []))
      then Some (Qmake (Z.of_N (number 0 (whole ++ frac)))
                       (Pos.pow 10 (Pos.of_nat (length frac))))
      else None
  | _, _ => None
  end.

Record date := mkDate { year : N; month : N; day : N }.

Definition is_leap (y : N) : bool :=
  ((y mod 4 =? 0) && negb (y mod 100 =? 0)) || (y mod 400 =? 0).

Definition days_in_month (y m : N) : N :=
  if m =? 2 then (if is_leap y then 29 else 28)
  else if (m =? 4) || (m =? 6) || (m =? 9) || (m =? 11) then 30
  else 31.

(** The form YYYY-MM-DD. *)
Definition date_fromisoformat (s : str) : option date :=
  match s with
  | [y1; y2; y3; y4; h1; m1; m2; h2; d1; d2] =>
      let y := number 0 [y1; y2; y3; y4] in
      let m := number 0 [m1; m2] in
      let d := number 0 [d1; d2] in
      if forallb is_digit [y1; y2; y3; y4; m1; m2; d1; d2] &&
         (h1 =? 45) && (h2 =? 45) &&
         (1 <=? y) && (1 <=? m) && (m <=? 12) &&
         (1 <=? d) && (d <=? days_in_month y m)
      then Some {| year := y; month := m; day := d |}
      else None
  | _ => None
  end.

(** An agent that answers every prompt with the same text. *)
Definition constant_agent (output : str) : str -> str := fun _ => output.

(** A matplotlib whose calls all return. *)
Definition plt_returns {float datetime : Type}
  : list (event float datetime) -> event float datetime -> option exn :=
  fun _ _ => None.


(** An operating system that takes every file. *)
Definition os_accepts : str -> bool := fun _ => false.

(** The text [T] inside a csv fence: a line [```csv], [T], a line [```]. *)
Definition fenced (T : str) : str :=
  u "```csv" ++ [10] ++ T ++ [10] ++ u "```".

(** A table of [n] categorical rows, numbered downwards: the label is [r]
    and one more character (A for row 0, B for row 1, ...), the value 1. *)
Fixpoint categorical_rows (n : nat) : list (list str) :=
  match n with
  | O => []
  | S k => [u "r" ++ [65 + N.of_nat k]; u "1"] :: categorical_rows k
  end.

(** ** Vocabulary of the statements *)

(** [k] occurs in [q] as a contiguous run of characters. *)
Definition occurs_in (k q : str) : Prop :=
  exists pre suf, q = pre ++ k ++ suf.

(** [q] contains at least one of the keywords. *)
Definition mentions (keywords : list str) (q : str) : Prop :=
  exists k, In k keywords /\ occurs_in k q.

(** The cell of a row in a given column. *)
Definition cell (r : list str) (col : nat) : option str := r !! col.

(** The table can be charted: at least two header names, at least one row,
    and in every row a second cell that [float] accepts. *)
Definition chartable_with {float} (float_of_str : str -> option float)
  (header : list str) (rows : list (list str)) : Prop :=
  (2 <= length header)%nat /\ rows <> [] /\
  Forall (fun r : list str => is_Some (cell r 1 ≫= float_of_str)) rows.

(** Every call of [cs], made in this order after the calls [done],
    returns. *)
Fixpoint all_return {float datetime : Type}
  (plt : list (event float datetime) -> event float datetime -> option exn)
  (done cs : list (event float datetime)) : Prop :=
  match cs with
  | [] => True
  | c :: cs' => plt done c = None /\ all_return plt (done ++ [c]) cs'
  end.

(** No matplotlib call raises, whatever was called before. *)
Definition never_raises {float datetime : Type}
  (plt : list (event float datetime) -> event float datetime -> option exn) : Prop :=
  forall done c, plt done c = None.

(** Every cell of the table encodes to UTF-8. *)
Definition encodable_table (header : list str) (rows : list (list str)) : Prop :=
  Forall (Forall (fun f => encodable f = true)) (header :: rows).

(** The calls of the time-series attempt and of the bar chart. *)
Definition plot_calls {float datetime : Type} (header : list str) (question : str)
  (x : list datetime) (y : list float) : list (event float datetime) :=
  [PltPlot x y; PltXlabel (nth 0 header []); PltYlabel (nth 1 header []);
   PltTitle question].

Definition bar_calls {float datetime : Type} (header : list str) (question : str)
  (x : list str) (y : list float) : list (event float datetime) :=
  [PltBar x y; PltXticks; PltYlabel (nth 1 header []); PltTitle question].

(** The three calls that end a drawing. *)
Definition closing_calls {float datetime : Type} : list (event float datetime) :=
  [PltTightLayout; PltSavefig SqlAgent.out_png; PltClose].

(** A line cut at its commas: [line.split(",")]. *)
Fixpoint split_go (cur l : str) : list str :=
  match l with
  | [] => [cur]
  | c :: l' => if c =? 44 then cur :: split_go [] l' else split_go (cur ++ [c]) l'
  end.

Definition split_commas (l : str) : list str := split_go [] l.

(** Lines put together with a line feed between them. *)
Fixpoint join_lines (lines : list str) : str :=
  match lines with
  | [] => []
  | [l] => l
  | l :: ls => l ++ 10 :: join_lines ls
  end.

(** A character that is no line boundary, no double quote and no
    backquote. *)
Definition plain_char (c : N) : bool :=
  negb (is_linebreak c) && negb (c =? 34) && negb (c =? 96).

(** A plain line: not empty, plain characters only, and no longer than the
    csv reader's field limit. *)
Definition plain_line (l : str) : Prop :=
  l <> [] /\ forallb plain_char l = true /\
  N.of_nat (length l) <= Csv.field_limit.

(** A sales record that refers to a product and a store of the two lists:
    identifier, name and price are the product's, the store identifier is
    the store's, between 1 and 10 units, the revenue computed from the
    units and the product's price. *)
Definition sale_refers {float datetime : Type} (revenue : nat -> float -> float)
  (product_list : list (DataGen.product (float:=float)))
  (store_list : list DataGen.store)
  (r : DataGen.sale (float:=float) (datetime:=datetime)) : Prop :=
  exists p s,
    p ∈ product_list /\ s ∈ store_list /\
    DataGen.sale_ProductID r = DataGen.ProductID p /\
    DataGen.sale_ProductName r = DataGen.ProductName p /\
    DataGen.sale_Price r = DataGen.Price p /\
    DataGen.sale_StoreID r = DataGen.StoreID s /\
    (1 <= DataGen.UnitsSold r <= 10)%nat /\
    DataGen.TotalRevenue r = revenue (DataGen.UnitsSold r) (DataGen.Price p).

(** The (product, store) identifier pairs of inventory records. *)
Definition inventory_keys {day : Type} (inv : list (DataGen.inventory (day:=day)))
  : list (str * str) :=
  (fun r => (DataGen.inv_ProductID r, DataGen.inv_StoreID r)) <$> inv.

(** Every (product, store) identifier pair, products first. *)
Definition grid {float : Type} (product_list : list (DataGen.product (float:=float)))
  (store_list : list DataGen.store) : list (str * str) :=
  p ← product_list; (fun s => (DataGen.ProductID p, DataGen.StoreID s)) <$> store_list.

(** A reader state whose saved fields and current field hold only characters
    with the property [P]. *)
Definition reader_holds (P : N -> Prop) (r : Csv.Reader) : Prop :=
  Forall (Forall P) (Csv.fields r) /\ Forall P (Csv.field r).

(** A cell within the csv reader's field limit. *)
Definition fits (f : str) : Prop := N.of_nat (length f) <= Csv.field_limit.

(** A reader state whose saved fields and current field are within the
    limit. *)
Definition reader_fits (r : Csv.Reader) : Prop :=
  Forall fits (Csv.fields r) /\ fits (Csv.field r).


(** ** Tactics *)

(** The oracle's answers along a run, taken one call after the other. *)
Ltac run_calls :=
  cbn [SqlAgent.calls app fst snd];
  repeat match goal with
         | |- context [match ?plt ?d ?c with Some _ => _ | None => _ end] =>
             destruct (plt d c) eqn:?; cbn [SqlAgent.calls app fst snd]
         end.

(** A call that is not in a list of calls written out. *)
Ltac not_among :=
  let H := fresh in
  intros H;
  repeat (apply elem_of_cons in H; destruct H as [H|H]; [discriminate H|]);
  exact (proj1 (elem_of_nil _) H).


(** * Properties *)

(** ** Text *)

Lemma startswith_spec (p s : str) :
  startswith p s = true <-> exists suf, s = p ++ suf.
Proof.
  revert s. induction p as [|a p IH]; intros s; simpl.
  - split; [intros _; exists s; reflexivity | reflexivity].
  - destruct s as [|b s].
    + split; [discriminate | intros [suf H]; discriminate].
    + rewrite andb_true_iff, N.eqb_eq, IH. split.
      * intros [-> [suf ->]]. exists suf. reflexivity.
      * intros [suf H]. injection H as -> ->. split; [reflexivity | eauto].
Qed.

Lemma contains_spec (k q : str) :
  contains k q = true <-> occurs_in k q.
Proof.
  unfold occurs_in. induction q as [|c q IH].
  - simpl. rewrite orb_false_r, startswith_spec. split.
    + intros [suf H]. exists [], suf. exact H.
    + intros [pre [suf H]]. destruct pre; [eauto | discriminate].
  - cbn [contains]. rewrite orb_true_iff, IH, startswith_spec. split.
    + intros [[suf H] | [pre [suf H]]].
      * exists [], suf. exact H.
      * exists (c :: pre), suf. rewrite H. reflexivity.
    + intros [[|c' pre] [suf H]].
      * left. exists suf. exact H.
      * right. injection H as _ H. eauto.
Qed.

Lemma any_in_spec (keywords : list str) (q : str) :
  any_in keywords q = true <-> mentions keywords q.
Proof.
  unfold any_in, mentions. rewrite existsb_exists.
  split; intros [k [Hk H]]; exists k; (split; [exact Hk|]); apply contains_spec; exact H.
Qed.

Lemma any_in_false (keywords : list str) (q : str) :
  any_in keywords q = false <-> ~ mentions keywords q.
Proof.
  rewrite <- any_in_spec. destruct (any_in keywords q); split; congruence.
Qed.

Lemma mentions_app (ks1 ks2 : list str) (q : str) :
  mentions (ks1 ++ ks2) q <-> mentions ks1 q \/ mentions ks2 q.
Proof.
  unfold mentions. split.
  - intros [k [Hk H]]. apply in_app_or in Hk. destruct Hk; [left | right]; eauto.
  - intros [[k [Hk H]] | [k [Hk H]]]; exists k; (split; [|exact H]);
      apply in_or_app; auto.
Qed.

(** ** The classifier (agent.py) *)

Lemma router_model_copy_question (st : Router.AgentState) (upd : list Router.update) :
  Router.question (Router.model_copy st upd) = Router.question st.
Proof.
  unfold Router.model_copy. revert st.
  induction upd as [|e upd IH]; intros st; simpl; [reflexivity|].
  rewrite IH. destruct e; reflexivity.
Qed.

(** The intent computed by [node_plan], by cases on the two tests. *)
Lemma node_plan_intent (lower : str -> str) (state : Router.AgentState) :
  Router.intent (Router.node_plan lower state) =
  Some (if any_in Router.sentiment_keywords (lower (Router.question state))
        then u "sentiment"
        else if any_in Router.kpi_keywords (lower (Router.question state))
             then u "kpi" else u "fallback").
Proof.
  unfold Router.node_plan. cbn [Router.model_copy fold_left Router.set_field Router.intent].
  destruct (any_in Router.sentiment_keywords (lower (Router.question state))),
    (any_in Router.kpi_keywords (lower (Router.question state))); reflexivity.
Qed.

(** C1.  The two rules of the classifier are applied in the order they are
    written and the later one overrides: when the lowercased question
    contains a KPI keyword, the intent is "kpi" if it contains no sentiment
    keyword, and "sentiment" if it contains one as well. *)
Theorem node_plan_last_match_wins (lower : str -> str) (state : Router.AgentState) :
  mentions Router.kpi_keywords (lower (Router.question state)) ->
  (~ mentions Router.sentiment_keywords (lower (Router.question state)) ->
   Router.intent (Router.node_plan lower state) = Some (u "kpi")) /\
  (mentions Router.sentiment_keywords (lower (Router.question state)) ->
   Router.intent (Router.node_plan lower state) = Some (u "sentiment")).
Proof.
  intros Hkpi. apply any_in_spec in Hkpi. rewrite node_plan_intent, Hkpi. split.
  - intros Hno. apply any_in_false in Hno. rewrite Hno. reflexivity.
  - intros Hs. apply any_in_spec in Hs. rewrite Hs. reflexivity.
Qed.

Lemma node_plan_last_match_wins_witness :
  let q1 := Router.mkState (u "Show revenue trend for last 30 days") None None in
  let q2 := Router.mkState (u "Show revenue trend and sentiment feedback") None None in
  (mentions Router.kpi_keywords (lower_latin1 (Router.question q1)) /\
   ~ mentions Router.sentiment_keywords (lower_latin1 (Router.question q1)) /\
   Router.intent (Router.node_plan lower_latin1 q1) = Some (u "kpi")) /\
  (mentions Router.kpi_keywords (lower_latin1 (Router.question q2)) /\
   mentions Router.sentiment_keywords (lower_latin1 (Router.question q2)) /\
   Router.intent (Router.node_plan lower_latin1 q2) = Some (u "sentiment")).
Proof.
  intros q1 q2.
  assert (K1 : mentions Router.kpi_keywords (lower_latin1 (Router.question q1)))
    by (apply any_in_spec; vm_compute; reflexivity).
  assert (S1 : ~ mentions Router.sentiment_keywords (lower_latin1 (Router.question q1)))
    by (apply any_in_false; vm_compute; reflexivity).
  assert (K2 : mentions Router.kpi_keywords (lower_latin1 (Router.question q2)))
    by (apply any_in_spec; vm_compute; reflexivity).
  assert (S2 : mentions Router.sentiment_keywords (lower_latin1 (Router.question q2)))
    by (apply any_in_spec; vm_compute; reflexivity).
  split; (split; [assumption | split; [assumption|]]).
  - exact (proj1 (node_plan_last_match_wins lower_latin1 q1 K1) S1).
  - exact (proj2 (node_plan_last_match_wins lower_latin1 q2 K2) S2).
Defined.

(** C7.  A question whose lowercased text contains none of the nine keywords
    gets the intent "fallback", and the run of the graph ends in the state
    the fallback handler returns, whose answer is the canned guidance. *)
Theorem fallback_when_no_keyword (lower : str -> str) (state : Router.AgentState) :
  ~ mentions (Router.kpi_keywords ++ Router.sentiment_keywords)
      (lower (Router.question state)) ->
  Router.intent (Router.node_plan lower state) = Some (u "fallback") /\
  Router.invoke lower state = Some (Router.node_fallback (Router.node_plan lower state)) /\
  Router.answer (Router.node_fallback (Router.node_plan lower state)) =
    Some Router.fallback_answer.
Proof.
  intros Hno. rewrite mentions_app in Hno.
  assert (Hk : any_in Router.kpi_keywords (lower (Router.question state)) = false)
    by (apply any_in_false; tauto).
  assert (Hs : any_in Router.sentiment_keywords (lower (Router.question state)) = false)
    by (apply any_in_false; tauto).
  assert (Hi : Router.intent (Router.node_plan lower state) = Some (u "fallback"))
    by (rewrite node_plan_intent, Hs, Hk; reflexivity).
  split; [exact Hi | split; [|reflexivity]].
  unfold Router.invoke, Router.route_from_intent. rewrite Hi. reflexivity.
Qed.

Lemma fallback_when_no_keyword_witness :
  let q := Router.mkState (u "Tell me something random") None None in
  ~ mentions (Router.kpi_keywords ++ Router.sentiment_keywords)
      (lower_latin1 (Router.question q)) /\
  Router.intent (Router.node_plan lower_latin1 q) = Some (u "fallback") /\
  Router.invoke lower_latin1 q =
    Some (Router.mkState (u "Tell me something random") (Some (u "fallback"))
            (Some Router.fallback_answer)).
Proof.
  intros q.
  assert (H : ~ mentions (Router.kpi_keywords ++ Router.sentiment_keywords)
                (lower_latin1 (Router.question q)))
    by (apply any_in_false; vm_compute; reflexivity).
  split; [exact H|].
  destruct (fallback_when_no_keyword lower_latin1 q H) as [Hi [Hr _]].
  split; [exact Hi | rewrite Hr; reflexivity].
Defined.

(** ** The table extractor (agent_with_sql.py) *)

Lemma lstrip_nonspace (c : N) (s : str) :
  isspace c = false -> lstrip (c :: s) = c :: s.
Proof. intros H. simpl. rewrite H. reflexivity. Qed.

Lemma rstrip_nonspace (s : str) (c : N) :
  isspace c = false -> rstrip (s ++ [c]) = s ++ [c].
Proof.
  intros H. unfold rstrip. rewrite rev_unit, (lstrip_nonspace _ _ H).
  rewrite <- rev_unit. apply rev_involutive.
Qed.

(** A fenced text starts and ends with a backquote: [strip] leaves it. *)
Lemma strip_fenced (T : str) : strip (fenced T) = fenced T.
Proof.
  assert (E : fenced T = 96 :: ([96; 96; 99; 115; 118; 10] ++ T ++ [10; 96; 96]) ++ [96]).
  { unfold fenced.
    change (u "```csv") with [96; 96; 96; 99; 115; 118].
    change (u "```") with [96; 96; 96].
    cbn [app]. rewrite <- app_assoc. reflexivity. }
  unfold strip. rewrite E, lstrip_nonspace by reflexivity.
  rewrite app_comm_cons. apply rstrip_nonspace. reflexivity.
Qed.

(** The first line of a fenced text is the fence itself. *)
Lemma first_line_fenced (T : str) :
  SqlAgent.first_line_of (fenced T) = u "```csv".
Proof.
  unfold SqlAgent.first_line_of. rewrite strip_fenced. reflexivity.
Qed.

(** Whatever is inside a csv fence, the extractor stops at its first test:
    the line it looks at for a comma is the fence line. *)
Lemma parse_csv_fenced_absent (T : str) :
  SqlAgent.parse_csv_from_text (fenced T) = None.
Proof.
  unfold SqlAgent.parse_csv_from_text. rewrite first_line_fenced. reflexivity.
Qed.

(** What the reader would see of a fenced table once the two substitutions
    are done: the fence line is left as an empty line, which reads as an
    empty first row. *)
Example fenced_table_cleaned_rows :
  Csv.reader_list
    (SqlAgent.sub_fence_close
       (SqlAgent.sub_fence_open (fenced (u "a,b" ++ [10] ++ u "1,2")))) =
  Some [[]; [u "a"; u "b"]; [u "1"; u "2"]].
Proof. vm_compute. reflexivity. Qed.

(** A fence on the header's own line is removed and the table is read. *)
Example inline_fence_table :
  SqlAgent.parse_csv_from_text (u "```a,b" ++ [10] ++ u "1,2" ++ [10] ++ u "```") =
  Some ([u "a"; u "b"], [[u "1"; u "2"]]).
Proof. vm_compute. reflexivity. Qed.

(** C2.  The table [a,b / 1,2] is extracted from the bare text and is not
    extracted from the same text inside a csv fence: there the result is
    absent. *)
Theorem parse_csv_fenced_differs :
  SqlAgent.parse_csv_from_text (u "a,b" ++ [10] ++ u "1,2") =
    Some ([u "a"; u "b"], [[u "1"; u "2"]]) /\
  SqlAgent.parse_csv_from_text (fenced (u "a,b" ++ [10] ++ u "1,2")) = None.
Proof. split; vm_compute; reflexivity. Qed.

(** What a result of the extractor is: the rows the reader returned, the
    first as header, all of them kept. *)
Lemma parse_csv_some_inv (text : str) (header : list str) (data : list (list str)) :
  SqlAgent.parse_csv_from_text text = Some (header, data) ->
  Csv.reader_list (SqlAgent.sub_fence_close (SqlAgent.sub_fence_open (strip text))) =
    Some (header :: data) /\
  Forall (fun r => length r = length header) data.
Proof.
  unfold SqlAgent.parse_csv_from_text.
  destruct (count 44 (SqlAgent.first_line_of text) <? 1)%nat; [discriminate|].
  destruct (Csv.reader_list _) as [[|h d]|]; try discriminate.
  destruct (existsb _ d) eqn:E; [discriminate|].
  intros H. injection H as -> ->. split; [reflexivity|].
  apply List.Forall_forall. intros r Hr.
  destruct (Nat.eqb_spec (length r) (length header)) as [Heq|Hne]; [exact Heq|].
  assert (existsb (fun r => negb (length r =? length header)%nat) data = true).
  { apply existsb_exists. exists r. split; [exact Hr|].
    apply negb_true_iff, Nat.eqb_neq, Hne. }
  congruence.
Qed.

(** C3.  When the text read as CSV has a data row whose number of fields is
    not the header's, the extractor returns nothing at all. *)
Theorem parse_csv_rejects_ragged_rows
  (text : str) (header : list str) (data : list (list str)) :
  Csv.reader_list (SqlAgent.sub_fence_close (SqlAgent.sub_fence_open (strip text))) =
    Some (header :: data) ->
  Exists (fun r => length r <> length header) data ->
  SqlAgent.parse_csv_from_text text = None.
Proof.
  intros Hrows Hbad. unfold SqlAgent.parse_csv_from_text.
  destruct (count 44 (SqlAgent.first_line_of text) <? 1)%nat; [reflexivity|].
  rewrite Hrows.
  assert (E : existsb (fun r => negb (length r =? length header)%nat) data = true).
  { apply List.Exists_exists in Hbad. destruct Hbad as [r [Hr Hne]].
    apply existsb_exists. exists r. split; [exact Hr|].
    apply negb_true_iff, Nat.eqb_neq, Hne. }
  rewrite E. reflexivity.
Qed.

Lemma parse_csv_rejects_ragged_rows_witness :
  let text := u "A,B" ++ [10] ++ u "1,2" ++ [10] ++ u "3" in
  Csv.reader_list (SqlAgent.sub_fence_close (SqlAgent.sub_fence_open (strip text))) =
    Some [[u "A"; u "B"]; [u "1"; u "2"]; [u "3"]] /\
  SqlAgent.parse_csv_from_text text = None.
Proof.
  intros text. split; [vm_compute; reflexivity|].
  apply (parse_csv_rejects_ragged_rows text [u "A"; u "B"] [[u "1"; u "2"]; [u "3"]]).
  - vm_compute. reflexivity.
  - apply List.Exists_cons_tl, List.Exists_cons_hd. simpl. lia.
Defined.

(** ** The chart selector (agent_with_sql.py) *)

Section Charts.

Context {float datetime : Type}.
Variable float_of_str : str -> option float.
Variable fromisoformat : str -> option datetime.
Variable plt : list (event float datetime) -> event float datetime -> option exn.

Local Abbreviation maybe_chart := (SqlAgent.maybe_chart float_of_str fromisoformat plt).
Local Abbreviation calls := (SqlAgent.calls plt).

(** A column that converts cell by cell: the cells exist, and the list of
    cells converts as a whole. *)
Lemma column_converts {A} (f : str -> option A) (col : nat)
  (rows : list (list str)) (vs : list A) :
  Forall2 (fun r v => exists s, cell r col = Some s /\ f s = Some v) rows vs ->
  exists cells,
    mapM (fun r : list str => r !! col) rows = Some cells /\
    mapM f cells = Some vs /\
    mapM (fun r : list str => r !! col ≫= f) rows = Some vs.
Proof.
  induction 1 as [|r v rows vs [s [Hs Hv]] _ [cells [Hc [Hf Hb]]]].
  - exists []. repeat split.
  - exists (s :: cells). unfold cell in Hs. cbn. rewrite Hs, Hc, Hf. cbn.
    rewrite Hv, Hb. repeat split.
Qed.

(** Rows that have a second cell have a first one. *)
Lemma first_column_exists (rows : list (list str)) (y : list float) :
  mapM (fun r : list str => r !! 1%nat ≫= float_of_str) rows = Some y ->
  is_Some (mapM (fun r : list str => r !! 0%nat) rows).
Proof.
  intros H. apply mapM_is_Some. apply mapM_Some_1 in H.
  eapply Forall2_Forall_l; [exact H|].
  apply List.Forall_forall. intros v _ r Hr.
  destruct r as [|a [|b r]]; try discriminate Hr. exists a. reflexivity.
Qed.

Lemma guard_passes (header : list str) (rows : list (list str)) :
  (2 <= length header)%nat -> rows <> [] ->
  (length header <? 2)%nat || bool_decide (rows = []) = false.
Proof.
  intros Hh Hr. apply orb_false_iff. split.
  - apply Nat.ltb_ge. exact Hh.
  - apply bool_decide_eq_false. exact Hr.
Qed.

(** Calls that all return are all made. *)
Lemma calls_all_return (cs done : list (event float datetime)) :
  all_return plt done cs -> calls done cs = (done ++ cs, None).
Proof.
  revert done. induction cs as [|c cs IH]; intros done H; cbn [SqlAgent.calls].
  - rewrite app_nil_r. reflexivity.
  - destruct H as [Hc H]. rewrite Hc, (IH _ H), <- app_assoc. reflexivity.
Qed.

(** What a sequence of calls leaves: all of them made when none raised;
    otherwise the calls up to the one that raised, which is the last. *)
Lemma calls_spec (cs done : list (event float datetime)) :
  match calls done cs with
  | (evs, None) => evs = done ++ cs /\ all_return plt done cs
  | (evs, Some e) =>
      exists pre c post,
        cs = pre ++ c :: post /\ evs = (done ++ pre) ++ [c] /\
        all_return plt done pre /\ plt (done ++ pre) c = Some e
  end.
Proof.
  revert done. induction cs as [|c cs IH]; intros done; cbn [SqlAgent.calls].
  - rewrite app_nil_r. split; [reflexivity | exact I].
  - destruct (plt done c) as [e|] eqn:Ec.
    + exists [], c, cs. rewrite app_nil_r. repeat split. exact Ec.
    + specialize (IH (done ++ [c])). destruct (calls (done ++ [c]) cs) as [evs [e|]].
      * destruct IH as [pre [c' [post [-> [-> [Hpre Hc']]]]]].
        exists (c :: pre), c', post. rewrite <- !app_assoc in *. cbn [app] in *.
        repeat split; assumption.
      * destruct IH as [-> Hall]. rewrite <- app_assoc. repeat split; assumption.
Qed.

(** The body of the chart selector once the two columns are read: the new
    figure, the time-series attempt, the bar chart if it failed, the three
    closing calls. *)
Lemma maybe_chart_drawn (header : list str) (rows : list (list str)) (question : str)
  (x : list str) (y : list float) :
  (2 <= length header)%nat -> rows <> [] ->
  mapM (fun r : list str => r !! 1%nat ≫= float_of_str) rows = Some y ->
  mapM (fun r : list str => r !! 0%nat) rows = Some x ->
  maybe_chart header rows question =
    match plt [] PltFigure with
    | Some e => ([PltFigure], Raise e)
    | None =>
        match
          match
            match mapM fromisoformat x with
            | Some xdt => calls [PltFigure] (plot_calls header question xdt y)
            | None => ([PltFigure], Some ValueError)
            end
          with
          | (done, None) => (done, None)
          | (done, Some _) =>
              calls done (bar_calls header question (take 30 x) (take 30 y))
          end
        with
        | (done, Some e) => (done, Raise e)
        | (done, None) =>
            match calls done closing_calls with
            | (done', Some e) => (done', Raise e)
            | (done', None) => (done', Return (Some SqlAgent.out_png))
            end
        end
    end.
Proof.
  intros Hh Hr Ey Ex. unfold SqlAgent.maybe_chart.
  rewrite (guard_passes header rows Hh Hr), Ey, Ex.
  cbn [SqlAgent.calls app]. destruct (plt [] PltFigure); reflexivity.
Qed.

(** C4.  If the second cell of some row is not accepted by [float], the
    chart selector returns no path and makes no drawing call, whatever the
    other rows and the first column hold. *)
Theorem maybe_chart_non_numeric
  (header : list str) (rows : list (list str)) (question : str)
  (r : list str) (s : str) :
  In r rows -> cell r 1 = Some s -> float_of_str s = None ->
  maybe_chart header rows question = ([], Return None) /\
  chart_decision (fst (maybe_chart header rows question)) = NoChart.
Proof.
  intros Hin Hs Hf.
  assert (E : maybe_chart header rows question = ([], Return None)).
  { unfold SqlAgent.maybe_chart.
    destruct ((length header <? 2)%nat || bool_decide (rows = [])); [reflexivity|].
    rewrite (mapM_None_2 (fun r : list str => r !! 1%nat ≫= float_of_str) rows);
      [reflexivity|].
    apply List.Exists_exists. exists r. split; [exact Hin|].
    unfold cell in Hs. rewrite Hs. exact Hf. }
  rewrite E. split; reflexivity.
Qed.

Lemma all_return_app (a b done : list (event float datetime)) :
  all_return plt done (a ++ b) <-> all_return plt done a /\ all_return plt (done ++ a) b.
Proof.
  revert done. induction a as [|c a IH]; intros done; cbn [app all_return].
  - rewrite app_nil_r. tauto.
  - rewrite IH, <- app_assoc. cbn [app]. tauto.
Qed.


(** C6.  With at least two columns, every second cell accepted by [float]
    and some first cell refused by [fromisoformat], the chart selector takes
    the table for a categorical one, of the first [min (number of rows) 30]
    rows: the labels are the first cells of those rows as they are, the
    values their numbers; for 50 rows that is 30 entries.  Once the new
    figure is there the first drawing call is [bar] on exactly these, and
    [plot] is never called.  If [plt.figure] raises, that exception leaves
    the function and nothing else is called.  When no call raises, the calls
    are the figure, the bar chart with its ticks, label and title, and the
    three closing calls, and the chart path is returned. *)
Theorem maybe_chart_categorical
  (header : list str) (rows : list (list str)) (question : str) (ys : list float) :
  (2 <= length header)%nat ->
  Forall2 (fun r y => exists s, cell r 1 = Some s /\ float_of_str s = Some y) rows ys ->
  Exists (fun r => exists s, cell r 0 = Some s /\ fromisoformat s = None) rows ->
  exists labels,
    Forall2 (fun r l => cell r 0 = Some l) (take 30 rows) labels /\
    length labels = Nat.min (length rows) 30 /\
    length (take 30 ys) = Nat.min (length rows) 30 /\
    (length rows = 50%nat -> length labels = 30%nat) /\
    match plt [] PltFigure with
    | Some e => maybe_chart header rows question = ([PltFigure], Raise e)
    | None =>
        chart_decision (fst (maybe_chart header rows question)) =
          Categorical labels (take 30 ys) /\
        exists rest,
          fst (maybe_chart header rows question) =
            PltFigure :: PltBar labels (take 30 ys) :: rest
    end /\
    (forall x y, PltPlot x y ∉ fst (maybe_chart header rows question)) /\
    (all_return plt []
       (PltFigure :: bar_calls header question labels (take 30 ys) ++ closing_calls) ->
     maybe_chart header rows question =
       (PltFigure :: bar_calls header question labels (take 30 ys) ++ closing_calls,
        Return (Some SqlAgent.out_png))).
Proof.
  intros Hh Hy Hbad.
  assert (Hr : rows <> []) by (intros ->; inversion Hbad).
  destruct (column_converts float_of_str 1 rows ys Hy) as [_ [_ [_ Ey]]].
  destruct (first_column_exists rows ys Ey) as [cells Ec].
  pose proof (mapM_Some_1 _ _ _ Ec) as Hcells.
  assert (Ex : mapM fromisoformat cells = None).
  { apply mapM_None_2. apply List.Exists_exists in Hbad.
    destruct Hbad as [r [Hin [s [Hs Hf]]]].
    apply list_elem_of_In, list_elem_of_lookup in Hin. destruct Hin as [i Hi].
    destruct (Forall2_lookup_l _ _ _ _ _ Hcells Hi) as [s' [Hi' Hs']].
    unfold cell in Hs. rewrite Hs in Hs'. injection Hs' as <-.
    apply List.Exists_exists. exists s. split; [|exact Hf].
    apply list_elem_of_In, list_elem_of_lookup. eauto. }
  assert (Hlen : length (take 30 cells) = Nat.min (length rows) 30).
  { rewrite length_take. erewrite <- Forall2_length by exact Hcells. apply Nat.min_comm. }
  exists (take 30 cells).
  rewrite (maybe_chart_drawn header rows question cells ys Hh Hr Ey Ec), Ex.
  split; [apply Forall2_take; exact Hcells|].
  split; [exact Hlen|].
  split; [rewrite length_take; erewrite <- Forall2_length by exact Hy; apply Nat.min_comm|].
  split; [intros H50; rewrite Hlen, H50; reflexivity|].
  split; [|split].
  - destruct (plt [] PltFigure) as [e|]; [reflexivity|].
    unfold bar_calls, closing_calls. run_calls;
      (split; [reflexivity | eexists; reflexivity]).
  - intros x y. unfold bar_calls, closing_calls. run_calls; cbn [fst]; not_among.
  - intros [Hf Hall]. rewrite Hf. cbn [app] in Hall.
    apply all_return_app in Hall. destruct Hall as [Hp Hc].
    rewrite (calls_all_return _ _ Hp), (calls_all_return _ _ Hc). reflexivity.
Qed.

End Charts.

(** A column read with [mapM] converts cell by cell. *)
Lemma column_of_mapM {A} (f : str -> option A) (col : nat)
  (rows : list (list str)) (vs : list A) :
  mapM (fun r : list str => r !! col ≫= f) rows = Some vs ->
  Forall2 (fun r v => exists s, cell r col = Some s /\ f s = Some v) rows vs.
Proof.
  intros H. apply mapM_Some_1 in H.
  eapply List.Forall2_impl; [|exact H]. intros r v Hr. cbn beta in Hr. unfold cell.
  destruct (r !! col) as [s|]; [|discriminate Hr]. exists s. split; [reflexivity | exact Hr].
Qed.

Lemma maybe_chart_non_numeric_witness :
  let rows := [[u "LA"; u "4.5"]; [u "NYC"; u "great"]] in
  cell [u "NYC"; u "great"] 1 = Some (u "great") /\
  float_of_decimal (u "great") = None /\
  SqlAgent.maybe_chart float_of_decimal date_fromisoformat plt_returns
    [u "City"; u "Rating"] rows (u "Ratings by city") = ([], Return None).
Proof.
  intros rows. split; [reflexivity | split; [vm_compute; reflexivity|]].
  apply (maybe_chart_non_numeric float_of_decimal date_fromisoformat plt_returns
           [u "City"; u "Rating"] rows (u "Ratings by city")
           [u "NYC"; u "great"] (u "great")).
  - right. left. reflexivity.
  - reflexivity.
  - vm_compute. reflexivity.
Defined.


Lemma maybe_chart_categorical_witness :
  let header := [u "Store"; u "Units"] in
  let rows := categorical_rows 50 in
  length rows = 50%nat /\
  exists labels,
    SqlAgent.maybe_chart float_of_decimal date_fromisoformat plt_returns header rows
      (u "Units by store") =
      (PltFigure :: bar_calls header (u "Units by store") labels (repeat (inject_Z 1) 30) ++
         closing_calls,
       Return (Some SqlAgent.out_png)) /\
    Forall2 (fun r l => cell r 0 = Some l) (take 30 rows) labels /\
    length labels = 30%nat.
Proof.
  intros header rows. split; [reflexivity|].
  destruct (maybe_chart_categorical float_of_decimal date_fromisoformat plt_returns
              header rows (u "Units by store") (repeat (inject_Z 1) 50))
    as [labels [Hl [_ [_ [H50 [_ [_ Hall]]]]]]].
  - simpl. lia.
  - apply column_of_mapM. vm_compute. reflexivity.
  - apply List.Exists_cons_hd. exists (u "r" ++ [114]).
    split; vm_compute; reflexivity.
  - exists labels. split; [|split; [exact Hl | apply H50; reflexivity]].
    apply Hall. cbn. tauto.
Defined.

(** ** The table file *)

Lemma encodable_app (a b : str) : encodable (a ++ b) = encodable a && encodable b.
Proof. apply forallb_app. Qed.

Lemma encodable_escape (f : str) : encodable (CsvWriter.escape f) = encodable f.
Proof.
  induction f as [|c f IH]; [reflexivity|]. cbn [CsvWriter.escape].
  destruct (N.eqb_spec c Csv.quotechar) as [->|_].
  - change (encodable (Csv.quotechar :: Csv.quotechar :: CsvWriter.escape f))
      with (encodable (CsvWriter.escape f)).
    rewrite IH. reflexivity.
  - change (encodable_char c && encodable (CsvWriter.escape f) =
            encodable_char c && encodable f).
    rewrite IH. reflexivity.
Qed.

Lemma encodable_write_field (f : str) : encodable (CsvWriter.write_field f) = encodable f.
Proof.
  unfold CsvWriter.write_field. destruct (existsb CsvWriter.special f); [|reflexivity].
  change (encodable (Csv.quotechar :: CsvWriter.escape f ++ [Csv.quotechar]))
    with (encodable (CsvWriter.escape f ++ [Csv.quotechar])).
  rewrite encodable_app, encodable_escape. apply andb_true_r.
Qed.

Lemma encodable_join_fields (fields : list str) :
  encodable (CsvWriter.join_fields fields) = forallb encodable fields.
Proof.
  induction fields as [|f fs IH]; [reflexivity|].
  destruct fs as [|f' fs].
  - cbn [CsvWriter.join_fields forallb]. rewrite encodable_write_field, andb_true_r.
    reflexivity.
  - change (CsvWriter.join_fields (f :: f' :: fs))
      with (CsvWriter.write_field f ++ Csv.delimiter :: CsvWriter.join_fields (f' :: fs)).
    rewrite encodable_app, encodable_write_field.
    change (encodable (Csv.delimiter :: CsvWriter.join_fields (f' :: fs)))
      with (encodable (CsvWriter.join_fields (f' :: fs))).
    rewrite IH. reflexivity.
Qed.

(** The text of a row encodes exactly when its cells do: the commas, the
    quotes and the line end the writer adds always encode. *)
Lemma encodable_writerow (row : list str) :
  encodable (CsvWriter.writerow row) = forallb encodable row.
Proof.
  assert (H : encodable (CsvWriter.join_fields row ++ [13; 10]) = forallb encodable row).
  { rewrite encodable_app, encodable_join_fields. apply andb_true_r. }
  destruct row as [|[|c f] [|f' row]]; try exact H; reflexivity.
Qed.

Lemma encodable_row_true (row : list str) :
  encodable (CsvWriter.writerow row) = true <-> Forall (fun f => encodable f = true) row.
Proof.
  rewrite encodable_writerow, forallb_forall, List.Forall_forall. reflexivity.
Qed.

(** Rows that all encode are all written. *)
Lemma write_rows_all (rows : list (list str)) :
  Forall (Forall (fun f => encodable f = true)) rows ->
  CsvWriter.write_rows rows = (CsvWriter.writerows rows, true).
Proof.
  induction 1 as [|row rows Hrow _ IH]; [reflexivity|].
  cbn [CsvWriter.write_rows CsvWriter.writerows].
  rewrite (proj2 (encodable_row_true row) Hrow), IH. reflexivity.
Qed.

(** The first row that does not encode ends the writing: the rows before it
    are in the file, nothing else is. *)
Lemma write_rows_stop (pre : list (list str)) (bad : list str) (post : list (list str)) :
  Forall (Forall (fun f => encodable f = true)) pre ->
  ~ Forall (fun f => encodable f = true) bad ->
  CsvWriter.write_rows (pre ++ bad :: post) = (CsvWriter.writerows pre, false).
Proof.
  intros Hpre Hbad. induction Hpre as [|row pre Hrow _ IH].
  - cbn [app CsvWriter.write_rows CsvWriter.writerows].
    destruct (encodable (CsvWriter.writerow bad)) eqn:E; [|reflexivity].
    apply encodable_row_true in E. contradiction.
  - cbn [app CsvWriter.write_rows CsvWriter.writerows].
    rewrite (proj2 (encodable_row_true row) Hrow), IH. reflexivity.
Qed.

(** Rows that were all written all encode. *)
Lemma write_rows_done (rows : list (list str)) (text : str) :
  CsvWriter.write_rows rows = (text, true) ->
  Forall (Forall (fun f => encodable f = true)) rows /\ text = CsvWriter.writerows rows.
Proof.
  revert text. induction rows as [|row rows IH]; intros text; cbn [CsvWriter.write_rows].
  - intros H. injection H as <-. split; [apply List.Forall_nil | reflexivity].
  - destruct (encodable (CsvWriter.writerow row)) eqn:E; [|discriminate].
    destruct (CsvWriter.write_rows rows) as [text' done'].
    intros H. injection H as <- ->. destruct (IH text' eq_refl) as [Hrows ->].
    split; [|reflexivity].
    apply List.Forall_cons; [apply encodable_row_true; exact E | exact Hrows].
Qed.

Section TableFile.

Context {float datetime : Type}.
Variable os_error : str -> bool.

Local Abbreviation save_table := (SqlAgent.save_table (float:=float) (datetime:=datetime) os_error).

(** [save_table] returns exactly when the operating system takes the file
    and every cell encodes; the file then holds the text of all rows. *)
Lemma save_table_returns (header : list str) (rows : list (list str)) (path : str)
  (evs : list (event float datetime)) (v : unit) :
  save_table header rows path = (evs, Return v) <->
  os_error path = false /\ encodable_table header rows /\
  evs = [WriteFile path (CsvWriter.writerows (header :: rows))].
Proof.
  unfold SqlAgent.save_table, encodable_table. destruct (os_error path).
  - split; [discriminate | intros [H _]; discriminate H].
  - destruct (CsvWriter.write_rows (header :: rows)) as [text [|]] eqn:E.
    + destruct (write_rows_done _ _ E) as [Henc ->]. destruct v. split.
      * intros H. injection H as <-. auto.
      * intros [_ [_ ->]]. reflexivity.
    + split; [discriminate|]. intros [_ [Henc _]].
      rewrite (write_rows_all _ Henc) in E. discriminate E.
Qed.

End TableFile.

(** ** The states and the nodes *)

Lemma sql_model_copy_question (st : SqlAgent.AgentState) (upd : list SqlAgent.update) :
  SqlAgent.question (SqlAgent.model_copy st upd) = SqlAgent.question st.
Proof.
  unfold SqlAgent.model_copy. revert st.
  induction upd as [|e upd IH]; intros st; simpl; [reflexivity|].
  rewrite IH. destruct e; reflexivity.
Qed.

(** The run of the router graph ends in the state of the branch handler the
    intent selects. *)
Lemma router_invoke_cases (lower : str -> str) (state : Router.AgentState) :
  Router.invoke lower state = Some (Router.node_kpi (Router.node_plan lower state)) \/
  Router.invoke lower state = Some (Router.node_sentiment (Router.node_plan lower state)) \/
  Router.invoke lower state = Some (Router.node_fallback (Router.node_plan lower state)).
Proof.
  unfold Router.invoke, Router.route_from_intent. rewrite node_plan_intent.
  destruct (any_in Router.sentiment_keywords (lower (Router.question state)));
    [right; left; reflexivity|].
  destruct (any_in Router.kpi_keywords (lower (Router.question state)));
    [left | right; right]; reflexivity.
Qed.

Section ChartResults.

Context {float datetime : Type}.
Variable float_of_str : str -> option float.
Variable fromisoformat : str -> option datetime.
Variable plt : list (event float datetime) -> event float datetime -> option exn.

Local Abbreviation maybe_chart := (SqlAgent.maybe_chart float_of_str fromisoformat plt).
Local Abbreviation calls := (SqlAgent.calls plt).
Local Abbreviation chartable := (chartable_with float_of_str).

Lemma second_column_is_Some (rows : list (list str)) :
  is_Some (mapM (fun r : list str => r !! 1%nat ≫= float_of_str) rows) <->
  Forall (fun r : list str => is_Some (cell r 1 ≫= float_of_str)) rows.
Proof. apply mapM_is_Some. Qed.

(** The table is chartable exactly when the chart selector gets to the two
    columns. *)
Lemma chartable_columns (header : list str) (rows : list (list str)) :
  chartable header rows ->
  exists x y,
    mapM (fun r : list str => r !! 1%nat ≫= float_of_str) rows = Some y /\
    mapM (fun r : list str => r !! 0%nat) rows = Some x.
Proof.
  intros [_ [_ H]]. apply second_column_is_Some in H. destruct H as [y Ey].
  destruct (first_column_exists float_of_str rows y Ey) as [x Ex]. eauto.
Qed.

Lemma not_chartable (header : list str) (rows : list (list str)) (question : str) :
  ~ chartable header rows -> maybe_chart header rows question = ([], Return None).
Proof.
  intros Hn. unfold SqlAgent.maybe_chart.
  destruct (length header <? 2)%nat eqn:Eh; [reflexivity|].
  apply Nat.ltb_ge in Eh. cbn [orb].
  destruct (bool_decide (rows = [])) eqn:Er; [reflexivity|].
  apply bool_decide_eq_false in Er.
  destruct (mapM (fun r : list str => r !! 1%nat ≫= float_of_str) rows) as [y|] eqn:Ey;
    [|reflexivity].
  exfalso. apply Hn. split; [exact Eh | split; [exact Er|]].
  apply second_column_is_Some. rewrite Ey. eauto.
Qed.

(** How the chart selector ends on a chartable table: with the chart path,
    or with the exception of its last matplotlib call. *)
Lemma chartable_outcome (header : list str) (rows : list (list str)) (question : str) :
  chartable header rows ->
  (exists evs, maybe_chart header rows question = (evs, Return (Some SqlAgent.out_png))) \/
  (exists done c e,
     maybe_chart header rows question = (done ++ [c], Raise e) /\ plt done c = Some e).
Proof.
  intros Hc. destruct (chartable_columns header rows Hc) as [x [y [Ey Ex]]].
  destruct Hc as [Hh [Hr _]].
  rewrite (maybe_chart_drawn float_of_str fromisoformat plt header rows question x y
             Hh Hr Ey Ex).
  destruct (plt [] PltFigure) as [e|] eqn:Ef.
  { right. exists [], PltFigure, e. split; [reflexivity | exact Ef]. }
  assert (Closing : forall done,
    (exists evs,
       match calls done closing_calls with
       | (done', Some e) => (done', Raise e)
       | (done', None) => (done', Return (Some SqlAgent.out_png))
       end = (evs, Return (Some SqlAgent.out_png))) \/
    (exists done' c e,
       match calls done closing_calls with
       | (done', Some e) => (done', Raise e)
       | (done', None) => (done', Return (Some SqlAgent.out_png))
       end = (done' ++ [c], Raise e) /\ plt done' c = Some e)).
  { intros done. pose proof (calls_spec plt closing_calls done) as H.
    destruct (calls done closing_calls) as [evs [e|]]; [|eauto].
    destruct H as [pre [c [post [_ [-> [_ H]]]]]]. right. eauto. }
  assert (Bars : forall done,
    (exists evs,
       match calls done (bar_calls header question (take 30 x) (take 30 y)) with
       | (done', Some e) => (done', Raise e)
       | (done', None) =>
           match calls done' closing_calls with
           | (done'', Some e) => (done'', Raise e)
           | (done'', None) => (done'', Return (Some SqlAgent.out_png))
           end
       end = (evs, Return (Some SqlAgent.out_png))) \/
    (exists done0 c e,
       match calls done (bar_calls header question (take 30 x) (take 30 y)) with
       | (done', Some e) => (done', Raise e)
       | (done', None) =>
           match calls done' closing_calls with
           | (done'', Some e) => (done'', Raise e)
           | (done'', None) => (done'', Return (Some SqlAgent.out_png))
           end
       end = (done0 ++ [c], Raise e) /\ plt done0 c = Some e)).
  { intros done.
    pose proof (calls_spec plt (bar_calls header question (take 30 x) (take 30 y)) done) as H.
    destruct (calls done (bar_calls header question (take 30 x) (take 30 y)))
      as [evs [e|]]; [|apply Closing].
    destruct H as [pre [c [post [_ [-> [_ H]]]]]]. right. eauto. }
  destruct (mapM fromisoformat x) as [xdt|]; [|apply Bars].
  destruct (calls [PltFigure] (plot_calls header question xdt y)) as [evs [e|]];
    [apply Bars | apply Closing].
Qed.

Lemma chartable_or_not (header : list str) (rows : list (list str)) :
  chartable header rows \/ ~ chartable header rows.
Proof.
  unfold chartable_with.
  destruct (le_lt_dec 2 (length header)) as [Hh|Hh]; [|right; intros [H _]; lia].
  destruct rows as [|r rows]; [right; intros [_ [H _]]; congruence|].
  destruct (mapM (fun r : list str => r !! 1%nat ≫= float_of_str) (r :: rows))
    as [y|] eqn:Ey.
  - left. split; [exact Hh | split; [discriminate|]].
    apply second_column_is_Some. rewrite Ey. eauto.
  - right. intros [_ [_ H]]. apply second_column_is_Some in H. rewrite Ey in H.
    destruct H. discriminate.
Qed.

(** The chart selector returns no other path than the chart's. *)
Lemma maybe_chart_path (header : list str) (rows : list (list str)) (question : str)
  (evs : list (event float datetime)) (chart : option str) :
  maybe_chart header rows question = (evs, Return chart) ->
  (chart = None /\ evs = [] /\ ~ chartable header rows) \/
  (chart = Some SqlAgent.out_png /\ chartable header rows).
Proof.
  intros H. destruct (chartable_or_not header rows) as [Hc|Hn].
  - destruct (chartable_outcome header rows question Hc) as [[evs' E] | [done [c [e [E _]]]]];
      rewrite E in H; [|discriminate H].
    injection H as <- <-. right. split; [reflexivity | exact Hc].
  - rewrite (not_chartable header rows question Hn) in H. injection H as <- <-.
    left. repeat split. exact Hn.
Qed.

End ChartResults.

Section Nodes.

Context {float datetime : Type}.
Variable float_of_str : str -> option float.
Variable fromisoformat : str -> option datetime.
Variable plt : list (event float datetime) -> event float datetime -> option exn.
Variable os_error : str -> bool.

Local Abbreviation maybe_chart := (SqlAgent.maybe_chart float_of_str fromisoformat plt).
Local Abbreviation save_table :=
  (SqlAgent.save_table (float:=float) (datetime:=datetime) os_error).
Local Abbreviation node_parse_and_visualize :=
  (SqlAgent.node_parse_and_visualize float_of_str fromisoformat plt os_error).

(** The last node on a state whose raw output holds no table: it returns,
    with the message set and nothing else changed, and does nothing to the
    outside world. *)
Lemma node_no_table (state : SqlAgent.AgentState) :
  SqlAgent.raw_output state ≫= SqlAgent.parse_csv_from_text = None ->
  exists m,
    node_parse_and_visualize state =
      ([], Return (SqlAgent.mkState (SqlAgent.question state) (SqlAgent.raw_output state)
                     (SqlAgent.result_csv_path state) (SqlAgent.chart_png_path state)
                     (Some m))).
Proof.
  unfold SqlAgent.node_parse_and_visualize.
  destruct state as [q [[|c raw]|] csv png msg]; cbn; try (intros _; eauto; fail).
  intros ->. eauto.
Qed.

(** The last node on a state whose raw output holds a table.  If the write
    raises, that exception leaves the node and nothing is drawn.  Otherwise
    the file holds the whole table; if the chart selector raises, that
    exception leaves the node; otherwise the node returns the state with the
    two paths and the message. *)
Lemma node_table_branch
  (state : SqlAgent.AgentState) (raw : str) (header : list str) (rows : list (list str)) :
  SqlAgent.raw_output state = Some raw ->
  SqlAgent.parse_csv_from_text raw = Some (header, rows) ->
  (exists saved e,
     save_table header rows (u "./outputs/result.csv") = (saved, Raise e) /\
     node_parse_and_visualize state = (saved, Raise e)) \/
  (os_error (u "./outputs/result.csv") = false /\ encodable_table header rows /\
   ((exists drawn e,
       maybe_chart header rows (SqlAgent.question state) = (drawn, Raise e) /\
       node_parse_and_visualize state =
         (WriteFile (u "./outputs/result.csv") (CsvWriter.writerows (header :: rows))
            :: drawn, Raise e)) \/
    (exists drawn chart,
       maybe_chart header rows (SqlAgent.question state) = (drawn, Return chart) /\
       (chart = None \/ chart = Some (u "./outputs/chart.png")) /\
       node_parse_and_visualize state =
         (WriteFile (u "./outputs/result.csv") (CsvWriter.writerows (header :: rows))
            :: drawn,
          Return (SqlAgent.mkState (SqlAgent.question state) (Some raw)
                    (Some (u "./outputs/result.csv")) chart
                    (Some (u "Saved ./outputs/result.csv" ++
                           match chart with
                           | Some _ => u " and ./outputs/chart.png"
                           | None => []
                           end))))))).
Proof.
  intros Hraw Hparse. unfold SqlAgent.node_parse_and_visualize.
  rewrite Hraw. destruct raw as [|c raw]; [discriminate Hparse|].
  rewrite Hparse.
  destruct state as [q raw0 csv png msg]. cbn in Hraw. subst raw0.
  cbn [SqlAgent.question].
  change (path_join SqlAgent.OUT_DIR (u "result.csv")) with (u "./outputs/result.csv").
  destruct (save_table header rows (u "./outputs/result.csv")) as [saved [[]|e]] eqn:Es.
  - apply save_table_returns in Es. destruct Es as [Hos [Henc ->]].
    right. split; [exact Hos | split; [exact Henc|]].
    destruct (maybe_chart header rows q) as [drawn [chart|e]] eqn:Ec.
    + right. exists drawn, chart. split; [reflexivity|].
      destruct (maybe_chart_path float_of_str fromisoformat plt header rows q drawn chart Ec)
        as [[-> _] | [-> _]].
      * split; [left; reflexivity | reflexivity].
      * split; [right; reflexivity | reflexivity].
    + left. exists drawn, e. split; reflexivity.
  - left. exists saved, e. split; reflexivity.
Qed.

(** C10.  On a state whose raw output is absent or the empty string, the
    last node returns the state with the message "No output from agent."
    and nothing else changed (the two paths keep the value they had), and it
    writes no table and draws no chart. *)
Theorem no_output_message (state : SqlAgent.AgentState) :
  SqlAgent.raw_output state = None \/ SqlAgent.raw_output state = Some [] ->
  node_parse_and_visualize state =
    ([], Return {| SqlAgent.question := SqlAgent.question state;
                   SqlAgent.raw_output := SqlAgent.raw_output state;
                   SqlAgent.result_csv_path := SqlAgent.result_csv_path state;
                   SqlAgent.chart_png_path := SqlAgent.chart_png_path state;
                   SqlAgent.message := Some (u "No output from agent.") |}).
Proof.
  unfold SqlAgent.node_parse_and_visualize.
  destruct state as [q raw csv png msg]. cbn. intros [-> | ->]; reflexivity.
Qed.

(** What the last node returns, on each of its paths: the question and the
    raw output of its input, a message, and the two paths of its input
    unless a table was extracted. *)
Lemma node_parse_and_visualize_returned
  (state : SqlAgent.AgentState) (evs : list (event float datetime))
  (final : SqlAgent.AgentState) :
  node_parse_and_visualize state = (evs, Return final) ->
  SqlAgent.question final = SqlAgent.question state /\
  SqlAgent.raw_output final = SqlAgent.raw_output state /\
  is_Some (SqlAgent.message final) /\
  match SqlAgent.raw_output state ≫= SqlAgent.parse_csv_from_text with
  | None =>
      evs = [] /\
      SqlAgent.result_csv_path final = SqlAgent.result_csv_path state /\
      SqlAgent.chart_png_path final = SqlAgent.chart_png_path state
  | Some _ =>
      evs <> [] /\ is_Some (SqlAgent.result_csv_path final)
  end.
Proof.
  intros H.
  destruct (SqlAgent.raw_output state ≫= SqlAgent.parse_csv_from_text)
    as [[header rows]|] eqn:Ep.
  - destruct (SqlAgent.raw_output state) as [raw|] eqn:Hraw; [|discriminate Ep].
    cbn [mbind option_bind] in Ep.
    destruct (node_table_branch state raw header rows Hraw Ep)
      as [[saved [e [_ E]]] | [_ [_ [[drawn [e [_ E]]] | [drawn [chart [_ [_ E]]]]]]]];
      rewrite E in H; try discriminate H.
    injection H as <- <-. cbn. repeat split; eauto; discriminate.
  - destruct (node_no_table state Ep) as [m E]. rewrite E in H.
    injection H as <- <-. cbn. repeat split; eauto.
Qed.

End Nodes.

Lemma no_output_message_witness :
  let state := SqlAgent.mkState (u "Show revenue trend") None None None None in
  SqlAgent.node_parse_and_visualize float_of_decimal date_fromisoformat plt_returns
    os_accepts state =
    ([], Return (SqlAgent.mkState (u "Show revenue trend") None None None
                   (Some (u "No output from agent.")))).
Proof.
  intros state.
  apply (no_output_message float_of_decimal date_fromisoformat plt_returns os_accepts state).
  left. reflexivity.
Defined.

(** A chartable table on a matplotlib that never raises is drawn. *)
Lemma never_raises_returns {float datetime : Type}
  (float_of_str : str -> option float) (fromisoformat : str -> option datetime)
  (plt : list (event float datetime) -> event float datetime -> option exn)
  (header : list str) (rows : list (list str)) (question : str) :
  never_raises plt ->
  exists evs chart,
    SqlAgent.maybe_chart float_of_str fromisoformat plt header rows question =
      (evs, Return chart).
Proof.
  intros Hq. destruct (chartable_or_not float_of_str header rows) as [Hc|Hn].
  - destruct (chartable_outcome float_of_str fromisoformat plt header rows question Hc)
      as [[evs E] | [done [c [e [_ E]]]]]; [eauto|].
    rewrite (Hq done c) in E. discriminate E.
  - rewrite (not_chartable float_of_str fromisoformat plt header rows question Hn). eauto.
Qed.

(** C8.  Every run that ends, ends with the user-facing text set.  In the
    router, the run returns a state whose answer is set, and so does each
    branch handler.  In the agent pipeline, every state the last node
    returns has its message set, and so has every state a run returns.  The
    last node returns on a state without raw output and on a state whose raw
    output holds no table; on a state whose raw output holds a table it
    returns when the file is taken, the cells encode and no drawing call
    raises (else the exception of the write or of the drawing leaves the
    run, and there is no final state). *)
Theorem message_set_on_every_terminal_state :
  (forall (lower : str -> str) (state : Router.AgentState),
     is_Some (Router.answer (Router.node_kpi state)) /\
     is_Some (Router.answer (Router.node_sentiment state)) /\
     is_Some (Router.answer (Router.node_fallback state)) /\
     exists final,
       Router.invoke lower state = Some final /\ is_Some (Router.answer final)) /\
  (forall (float datetime : Type) (float_of_str : str -> option float)
          (fromisoformat : str -> option datetime)
          (plt : list (event float datetime) -> event float datetime -> option exn)
          (os_error : str -> bool) (sql_agent : str -> str)
          (state : SqlAgent.AgentState),
     (forall evs final,
        SqlAgent.node_parse_and_visualize float_of_str fromisoformat plt os_error state =
          (evs, Return final) ->
        is_Some (SqlAgent.message final)) /\
     (forall evs final,
        SqlAgent.invoke float_of_str fromisoformat plt os_error sql_agent state =
          (evs, Return final) ->
        is_Some (SqlAgent.message final)) /\
     (SqlAgent.raw_output state = None \/ SqlAgent.raw_output state = Some [] ->
      exists final,
        SqlAgent.node_parse_and_visualize float_of_str fromisoformat plt os_error state =
          ([], Return final)) /\
     (forall raw,
        SqlAgent.raw_output state = Some raw ->
        SqlAgent.parse_csv_from_text raw = None ->
        exists final,
          SqlAgent.node_parse_and_visualize float_of_str fromisoformat plt os_error state =
            ([], Return final)) /\
     (forall raw header rows,
        SqlAgent.raw_output state = Some raw ->
        SqlAgent.parse_csv_from_text raw = Some (header, rows) ->
        os_error (u "./outputs/result.csv") = false ->
        encodable_table header rows -> never_raises plt ->
        exists evs final,
          SqlAgent.node_parse_and_visualize float_of_str fromisoformat plt os_error state =
            (evs, Return final))).
Proof.
  split.
  - intros lower state. repeat (split; [eexists; reflexivity|]).
    destruct (router_invoke_cases lower state) as [H | [H | H]];
      rewrite H; eexists; (split; [reflexivity | eexists; reflexivity]).
  - intros float datetime float_of_str fromisoformat plt os_error sql_agent state.
    split; [|split; [|split; [|split]]].
    + intros evs final E.
      exact (proj1 (proj2 (proj2 (node_parse_and_visualize_returned
               float_of_str fromisoformat plt os_error state evs final E)))).
    + intros evs final E. unfold SqlAgent.invoke in E.
      exact (proj1 (proj2 (proj2 (node_parse_and_visualize_returned
               float_of_str fromisoformat plt os_error _ evs final E)))).
    + intros H.
      destruct (node_no_table float_of_str fromisoformat plt os_error state) as [m E];
        [destruct H as [-> | ->]; reflexivity | eauto].
    + intros raw Hraw Hp.
      destruct (node_no_table float_of_str fromisoformat plt os_error state) as [m E];
        [rewrite Hraw; exact Hp | eauto].
    + intros raw header rows Hraw Hp Hos Henc Hq.
      destruct (never_raises_returns float_of_str fromisoformat plt header rows
                  (SqlAgent.question state) Hq) as [drawn [chart Ec]].
      destruct (node_table_branch float_of_str fromisoformat plt os_error
                  state raw header rows Hraw Hp)
        as [[saved [e [Es _]]] | [_ [_ [[drawn' [e [Ec' _]]] | [drawn' [chart' [_ [_ E]]]]]]]].
      * exfalso. 
        assert (Hs : SqlAgent.save_table (float:=float) (datetime:=datetime) os_error
                       header rows (u "./outputs/result.csv") =
                     ([WriteFile (u "./outputs/result.csv")
                         (CsvWriter.writerows (header :: rows))], Return tt)).
        { apply save_table_returns. auto. }
        rewrite Hs in Es. discriminate Es.
      * rewrite Ec in Ec'. discriminate Ec'.
      * eauto.
Qed.

(** C9.  Each node returns a copy of its input with its own entries
    replaced: the question is the input's, and so is every field the node
    does not set.  [node_plan] sets the intent; the three branch handlers
    set the answer; [node_agent] sets the raw output; the last node,
    whenever it returns a state, sets the message, and the two paths only
    when a table was extracted; it does return on every state from whose raw
    output no table is extracted. *)
Theorem nodes_copy_with_update :
  (forall (lower : str -> str) (state : Router.AgentState),
     (Router.question (Router.node_plan lower state) = Router.question state /\
      Router.answer (Router.node_plan lower state) = Router.answer state) /\
     (Router.question (Router.node_kpi state) = Router.question state /\
      Router.intent (Router.node_kpi state) = Router.intent state) /\
     (Router.question (Router.node_sentiment state) = Router.question state /\
      Router.intent (Router.node_sentiment state) = Router.intent state) /\
     (Router.question (Router.node_fallback state) = Router.question state /\
      Router.intent (Router.node_fallback state) = Router.intent state)) /\
  (forall (float datetime : Type) (float_of_str : str -> option float)
          (fromisoformat : str -> option datetime)
          (plt : list (event float datetime) -> event float datetime -> option exn)
          (os_error : str -> bool) (sql_agent : str -> str)
          (state : SqlAgent.AgentState),
     (SqlAgent.question (SqlAgent.node_agent sql_agent state) = SqlAgent.question state /\
      SqlAgent.result_csv_path (SqlAgent.node_agent sql_agent state) =
        SqlAgent.result_csv_path state /\
      SqlAgent.chart_png_path (SqlAgent.node_agent sql_agent state) =
        SqlAgent.chart_png_path state /\
      SqlAgent.message (SqlAgent.node_agent sql_agent state) = SqlAgent.message state) /\
     (forall evs final,
        SqlAgent.node_parse_and_visualize float_of_str fromisoformat plt os_error state =
          (evs, Return final) ->
        SqlAgent.question final = SqlAgent.question state /\
        SqlAgent.raw_output final = SqlAgent.raw_output state /\
        match SqlAgent.raw_output state ≫= SqlAgent.parse_csv_from_text with
        | None =>
            SqlAgent.result_csv_path final = SqlAgent.result_csv_path state /\
            SqlAgent.chart_png_path final = SqlAgent.chart_png_path state
        | Some _ => True
        end) /\
     (SqlAgent.raw_output state ≫= SqlAgent.parse_csv_from_text = None ->
      exists final,
        SqlAgent.node_parse_and_visualize float_of_str fromisoformat plt os_error state =
          ([], Return final))).
Proof.
  split.
  - intros lower state. repeat split.
  - intros float datetime float_of_str fromisoformat plt os_error sql_agent state.
    split; [repeat split | split].
    + intros evs final E.
      destruct (node_parse_and_visualize_returned float_of_str fromisoformat plt os_error
                  state evs final E) as [Hq [Hr [_ Hp]]].
      split; [exact Hq | split; [exact Hr|]].
      destruct (SqlAgent.raw_output state ≫= SqlAgent.parse_csv_from_text);
        [exact I | tauto].
    + intros Hp.
      destruct (node_no_table float_of_str fromisoformat plt os_error state Hp) as [m E].
      eauto.
Qed.


(** * Further properties of the router (agent.py) *)

(** The state a run of the router graph ends in, computed from the question
    alone. *)
Lemma router_invoke_eq (lower : str -> str) (state : Router.AgentState) :
  Router.invoke lower state =
  Some (if any_in Router.sentiment_keywords (lower (Router.question state))
        then Router.mkState (Router.question state) (Some (u "sentiment"))
               (Some Router.sentiment_answer)
        else if any_in Router.kpi_keywords (lower (Router.question state))
             then Router.mkState (Router.question state) (Some (u "kpi"))
                    (Some Router.kpi_answer)
             else Router.mkState (Router.question state) (Some (u "fallback"))
                    (Some Router.fallback_answer)).
Proof.
  unfold Router.invoke, Router.route_from_intent. rewrite node_plan_intent.
  unfold Router.node_plan.
  destruct (any_in Router.sentiment_keywords (lower (Router.question state)));
    [reflexivity|].
  destruct (any_in Router.kpi_keywords (lower (Router.question state)));
    reflexivity.
Qed.

(** X1.  The intent [node_plan] assigns is decided by the two keyword sets:
    "sentiment" exactly when a sentiment keyword occurs in the lowercased
    question, "kpi" exactly when a KPI keyword occurs and no sentiment
    keyword does, "fallback" exactly when neither occurs. *)
Theorem node_plan_intent_iff (lower : str -> str) (state : Router.AgentState) :
  (Router.intent (Router.node_plan lower state) = Some (u "sentiment") <->
   mentions Router.sentiment_keywords (lower (Router.question state))) /\
  (Router.intent (Router.node_plan lower state) = Some (u "kpi") <->
   mentions Router.kpi_keywords (lower (Router.question state)) /\
   ~ mentions Router.sentiment_keywords (lower (Router.question state))) /\
  (Router.intent (Router.node_plan lower state) = Some (u "fallback") <->
   ~ mentions Router.kpi_keywords (lower (Router.question state)) /\
   ~ mentions Router.sentiment_keywords (lower (Router.question state))).
Proof.
  rewrite node_plan_intent, <- !any_in_false, <- !any_in_spec.
  destruct (any_in Router.sentiment_keywords (lower (Router.question state))),
    (any_in Router.kpi_keywords (lower (Router.question state)));
    repeat split; intros; try discriminate; try reflexivity;
    repeat match goal with H : _ /\ _ |- _ => destruct H end; discriminate.
Qed.

(** X2.  A run of the router graph returns a state with the question it was
    given, the intent of [node_plan], and the canned answer of the branch
    that intent names. *)
Theorem invoke_answer_follows_intent (lower : str -> str) (state : Router.AgentState) :
  exists final,
    Router.invoke lower state = Some final /\
    Router.question final = Router.question state /\
    Router.intent final = Router.intent (Router.node_plan lower state) /\
    ((Router.intent final = Some (u "kpi") /\
      Router.answer final = Some Router.kpi_answer) \/
     (Router.intent final = Some (u "sentiment") /\
      Router.answer final = Some Router.sentiment_answer) \/
     (Router.intent final = Some (u "fallback") /\
      Router.answer final = Some Router.fallback_answer)).
Proof.
  rewrite router_invoke_eq, node_plan_intent.
  destruct (any_in Router.sentiment_keywords (lower (Router.question state)));
    [|destruct (any_in Router.kpi_keywords (lower (Router.question state)))];
    eexists; (split; [reflexivity|]); cbn; auto 10.
Qed.

(** X3.  A run of the router graph reads nothing but the question: an intent
    or an answer already present in the input state has no effect on the
    result. *)
Theorem invoke_reads_question_only
  (lower : str -> str) (state1 state2 : Router.AgentState) :
  Router.question state1 = Router.question state2 ->
  Router.invoke lower state1 = Router.invoke lower state2.
Proof. intros H. rewrite !router_invoke_eq, H. reflexivity. Qed.

Lemma invoke_reads_question_only_witness :
  Router.invoke lower_latin1
    (Router.mkState (u "Top sales") (Some (u "sentiment")) (Some (u "old"))) =
  Router.invoke lower_latin1 (Router.mkState (u "Top sales") None None).
Proof.
  apply (invoke_reads_question_only lower_latin1
           (Router.mkState (u "Top sales") (Some (u "sentiment")) (Some (u "old")))
           (Router.mkState (u "Top sales") None None)).
  reflexivity.
Defined.

(** X4.  The result of a run is a fixed point: running the graph again on
    the state it returned returns that state. *)
Theorem invoke_idempotent (lower : str -> str) (state final : Router.AgentState) :
  Router.invoke lower state = Some final ->
  Router.invoke lower final = Some final.
Proof.
  intros H.
  assert (Hq : Router.question final = Router.question state).
  { rewrite router_invoke_eq in H. revert H.
    destruct (any_in Router.sentiment_keywords (lower (Router.question state)));
      [|destruct (any_in Router.kpi_keywords (lower (Router.question state)))];
      intros H; injection H as <-; reflexivity. }
  rewrite <- H, !router_invoke_eq, Hq. reflexivity.
Qed.

Lemma invoke_idempotent_witness :
  let final := Router.mkState (u "Top sales") (Some (u "kpi")) (Some Router.kpi_answer) in
  Router.invoke lower_latin1 (Router.mkState (u "Top sales") None None) = Some final /\
  Router.invoke lower_latin1 final = Some final.
Proof.
  intros final. split; [vm_compute; reflexivity|].
  apply (invoke_idempotent lower_latin1 (Router.mkState (u "Top sales") None None) final).
  vm_compute. reflexivity.
Defined.

(** * Further properties of the table extractor (agent_with_sql.py) *)

Lemma In_lstrip (c : N) (s : str) : In c (lstrip s) -> In c s.
Proof.
  induction s as [|a s IH]; simpl; [tauto|].
  destruct (isspace a); [auto | simpl; tauto].
Qed.

Lemma In_strip (c : N) (s : str) : In c (strip s) -> In c s.
Proof.
  unfold strip, rstrip. intros H.
  apply in_rev, In_lstrip in H. apply in_rev in H. apply In_lstrip. exact H.
Qed.

Lemma In_splitlines_go (after_cr : bool) (cur s : str) (l : str) (c : N) :
  In l (splitlines_go after_cr cur s) -> In c l -> In c cur \/ In c s.
Proof.
  revert after_cr cur. induction s as [|a s IH]; intros after_cr cur Hl Hc.
  - simpl in Hl. destruct cur as [|b cur]; [destruct Hl|].
    destruct Hl as [<- | []]. left. apply in_rev. exact Hc.
  - simpl in Hl. destruct (after_cr && (a =? 10)).
    + destruct (IH _ _ Hl Hc); [left | right; right]; assumption.
    + destruct (is_linebreak a).
      * destruct Hl as [<- | Hl]; [left; apply in_rev; exact Hc|].
        destruct (IH _ _ Hl Hc) as [[] | H]. right. right. exact H.
      * destruct (IH _ _ Hl Hc) as [[<- | H] | H].
        -- right. left. reflexivity.
        -- left. exact H.
        -- right. right. exact H.
Qed.

Lemma In_first_line_of (c : N) (text : str) :
  In c (SqlAgent.first_line_of text) -> In c text.
Proof.
  unfold SqlAgent.first_line_of, splitlines.
  destruct (splitlines_go false [] (strip text)) as [|l ls] eqn:E; [intros []|].
  intros Hc. apply In_strip.
  destruct (In_splitlines_go false [] (strip text) l c) as [[] | H];
    [rewrite E; left; reflexivity | exact Hc | exact H].
Qed.

Lemma count_absent (c : N) (s : str) : ~ In c s -> count c s = 0%nat.
Proof.
  unfold count. induction s as [|a s IH]; simpl; [reflexivity|].
  intros H. destruct (N.eqb_spec c a) as [-> | Hne]; [tauto|].
  apply IH. tauto.
Qed.

Lemma first_line_no_comma (text : str) :
  ~ In 44 text -> count 44 (SqlAgent.first_line_of text) = 0%nat.
Proof.
  intros H. apply count_absent. intros Hc. apply H, In_first_line_of, Hc.
Qed.

(** X5.  A text with no comma in it is not a table, whatever else it
    holds. *)
Theorem parse_csv_no_comma (text : str) :
  ~ In 44 text -> SqlAgent.parse_csv_from_text text = None.
Proof.
  intros H. unfold SqlAgent.parse_csv_from_text.
  rewrite (first_line_no_comma text H). reflexivity.
Qed.

Lemma parse_csv_no_comma_witness :
  SqlAgent.parse_csv_from_text (u "Revenue rose for 30 days in a row.") = None.
Proof.
  apply (parse_csv_no_comma (u "Revenue rose for 30 days in a row.")).
  intros H. vm_compute in H. intuition discriminate.
Defined.


Section Passthrough.

Context {float datetime : Type}.
Variable float_of_str : str -> option float.
Variable fromisoformat : str -> option datetime.
Variable plt : list (event float datetime) -> event float datetime -> option exn.
Variable os_error : str -> bool.
Variable sql_agent : str -> str.

(** X6.  When the agent's answer is not empty and has no comma, a run from a
    state that holds only the question ends with that answer as the message,
    word for word; no table is written, no chart is drawn and both paths
    stay unset. *)
Theorem invoke_plain_answer (question out : str) :
  sql_agent (SqlAgent.SAFETY_PREFIX ++ [10; 10] ++ u "Question: " ++ question) = out ->
  out <> [] -> ~ In 44 out ->
  SqlAgent.invoke float_of_str fromisoformat plt os_error sql_agent
    (SqlAgent.mkState question None None None None) =
  ([], Return (SqlAgent.mkState question (Some out) None None (Some out))).
Proof.
  intros Hout Hne Hc. unfold SqlAgent.invoke, SqlAgent.node_agent.
  cbn [SqlAgent.question]. rewrite Hout.
  unfold SqlAgent.node_parse_and_visualize.
  cbn [SqlAgent.model_copy fold_left SqlAgent.set_field SqlAgent.raw_output
       SqlAgent.question SqlAgent.result_csv_path SqlAgent.chart_png_path
       SqlAgent.message].
  destruct out as [|c out]; [congruence|].
  unfold SqlAgent.parse_csv_from_text.
  rewrite (first_line_no_comma (c :: out) Hc). reflexivity.
Qed.

End Passthrough.

Lemma invoke_plain_answer_witness :
  let out := u "Revenue rose for 30 days in a row." in
  SqlAgent.invoke float_of_decimal date_fromisoformat plt_returns os_accepts
    (constant_agent out)
    (SqlAgent.mkState (u "How is revenue?") None None None None) =
  ([], Return (SqlAgent.mkState (u "How is revenue?") (Some out) None None (Some out))).
Proof.
  intros out.
  apply (invoke_plain_answer float_of_decimal date_fromisoformat plt_returns os_accepts
           (constant_agent out) (u "How is revenue?") out).
  - reflexivity.
  - discriminate.
  - intros H. vm_compute in H. intuition discriminate.
Defined.


(** * Further properties of the chart selector and of the last node *)

Section ChartsMore.

Context {float datetime : Type}.
Variable float_of_str : str -> option float.
Variable fromisoformat : str -> option datetime.
Variable plt : list (event float datetime) -> event float datetime -> option exn.
Variable os_error : str -> bool.

Local Abbreviation maybe_chart := (SqlAgent.maybe_chart float_of_str fromisoformat plt).
Local Abbreviation calls := (SqlAgent.calls plt).
Local Abbreviation save_table :=
  (SqlAgent.save_table (float:=float) (datetime:=datetime) os_error).
Local Abbreviation node_parse_and_visualize :=
  (SqlAgent.node_parse_and_visualize float_of_str fromisoformat plt os_error).

Local Abbreviation chartable := (chartable_with float_of_str).

(** X7.  The chart selector returns no path, and then makes no drawing call
    at all, exactly when the table is not chartable: fewer than two header
    names, no row, or a row without a second cell that [float] accepts.  It
    returns the chart's path only on a chartable table.  On a chartable
    table it ends either with that path or with the exception of its last
    matplotlib call; with a matplotlib that never raises it returns the path
    exactly when the table is chartable. *)
Theorem maybe_chart_path_iff
  (header : list str) (rows : list (list str)) (question : str) :
  (maybe_chart header rows question = ([], Return None) <-> ~ chartable header rows) /\
  (snd (maybe_chart header rows question) = Return None -> ~ chartable header rows) /\
  (snd (maybe_chart header rows question) = Return (Some SqlAgent.out_png) ->
   chartable header rows) /\
  (chartable header rows ->
   snd (maybe_chart header rows question) = Return (Some SqlAgent.out_png) \/
   exists done c e,
     maybe_chart header rows question = (done ++ [c], Raise e) /\ plt done c = Some e) /\
  (never_raises plt ->
   (snd (maybe_chart header rows question) = Return (Some SqlAgent.out_png) <->
    chartable header rows)).
Proof.
  pose proof (chartable_outcome float_of_str fromisoformat plt header rows question) as Hc.
  pose proof (not_chartable float_of_str fromisoformat plt header rows question) as Hn.
  destruct (chartable_or_not float_of_str header rows) as [C|N].
  - specialize (Hc C). clear Hn.
    assert (Hnone : snd (maybe_chart header rows question) <> Return None).
    { destruct Hc as [[evs E] | [done [c [e [E _]]]]]; rewrite E; discriminate. }
    split; [split; [intros E; rewrite E in Hnone; contradiction | contradiction]|].
    split; [intros E; contradiction|].
    split; [intros _; exact C|].
    split.
    + intros _. destruct Hc as [[evs E] | H]; [left; rewrite E; reflexivity | right; exact H].
    + intros Hq. split; [intros _; exact C | intros _].
      destruct Hc as [[evs E] | [done [c [e [_ E]]]]]; [rewrite E; reflexivity|].
      rewrite (Hq done c) in E. discriminate E.
  - specialize (Hn N). rewrite Hn. cbn [snd].
    split; [split; [intros _; exact N | reflexivity]|].
    split; [intros _; exact N|].
    split; [discriminate|].
    split; [contradiction|].
    intros _. split; [discriminate | contradiction].
Qed.

(** The closing calls of a drawing that returned were all made. *)
Lemma closing_returned (done evs : list (event float datetime)) (p : str) :
  match calls done closing_calls with
  | (done', Some e) => (done', Raise e)
  | (done', None) => (done', Return (Some SqlAgent.out_png))
  end = (evs, Return (Some p)) ->
  evs = done ++ closing_calls.
Proof.
  pose proof (calls_spec plt closing_calls done) as H.
  destruct (calls done closing_calls) as [evs' [e|]]; [discriminate|].
  destruct H as [-> _]. intros E. injection E as <- _. reflexivity.
Qed.

(** The bar chart and the closing calls of a drawing that returned were all
    made. *)
Lemma bars_returned (cs done evs : list (event float datetime)) (p : str) :
  match calls done cs with
  | (done', Some e) => (done', Raise e)
  | (done', None) =>
      match calls done' closing_calls with
      | (done'', Some e) => (done'', Raise e)
      | (done'', None) => (done'', Return (Some SqlAgent.out_png))
      end
  end = (evs, Return (Some p)) ->
  evs = (done ++ cs) ++ closing_calls.
Proof.
  pose proof (calls_spec plt cs done) as H.
  destruct (calls done cs) as [evs' [e|]]; [discriminate|].
  destruct H as [-> _]. apply closing_returned.
Qed.

(** X8.  When the chart selector returns a path, it is the fixed chart
    path, and the calls made are: a new figure first; then either one
    [plot] with one x and one y per row, labelled with the first two header
    names, or one [bar] with as many labels as values, at most 30; the
    layout, the save to that path and the closing of the figure last.  The
    only other calls are those of a time-series attempt that raised, right
    after the figure and before the bar chart: [plot] and the calls after it
    up to the one that raised.  There are none when no call raises. *)
Theorem maybe_chart_drawing
  (header : list str) (rows : list (list str)) (question : str)
  (evs : list (event float datetime)) (p : str) :
  maybe_chart header rows question = (evs, Return (Some p)) ->
  p = SqlAgent.out_png /\
  exists h0 h1 failed drawn,
    header !! 0%nat = Some h0 /\ header !! 1%nat = Some h1 /\
    evs = PltFigure :: failed ++ drawn ++
            [PltTightLayout; PltSavefig SqlAgent.out_png; PltClose] /\
    ((failed = [] /\
      exists xdt y,
        drawn = [PltPlot xdt y; PltXlabel h0; PltYlabel h1; PltTitle question] /\
        length xdt = length rows /\ length y = length rows) \/
     (exists x y,
        drawn = [PltBar x y; PltXticks; PltYlabel h1; PltTitle question] /\
        length x = length y /\ length x = Nat.min (length rows) 30)) /\
    (failed = [] \/
     exists xdt y made c rest,
       [PltPlot xdt y; PltXlabel h0; PltYlabel h1; PltTitle question] =
         made ++ c :: rest /\
       failed = made ++ [c] /\ is_Some (plt (PltFigure :: made) c) /\
       length xdt = length rows /\ length y = length rows) /\
    (never_raises plt -> failed = []).
Proof.
  intros H.
  destruct (maybe_chart_path float_of_str fromisoformat plt header rows question evs
              (Some p) H) as [[Hp _] | [Hp C]]; [discriminate Hp|].
  injection Hp as ->. split; [reflexivity|].
  destruct (chartable_columns float_of_str header rows C) as [x [y [Ey Ex]]].
  destruct C as [Hh [Hr _]].
  rewrite (maybe_chart_drawn float_of_str fromisoformat plt header rows question x y
             Hh Hr Ey Ex) in H.
  pose proof (Forall2_length (mapM_Some_1 _ _ _ Ey)) as Ly.
  pose proof (Forall2_length (mapM_Some_1 _ _ _ Ex)) as Lx.
  destruct header as [|h0 [|h1 header]]; [simpl in Hh; lia | simpl in Hh; lia |].
  exists h0, h1.
  destruct (plt [] PltFigure) as [e|]; [discriminate H|].
  assert (Hbar : exists x' y',
            bar_calls (datetime:=datetime) (h0 :: h1 :: header) question
              (take 30 x) (take 30 y) =
              [PltBar x' y'; PltXticks; PltYlabel h1; PltTitle question] /\
            length x' = length y' /\ length x' = Nat.min (length rows) 30).
  { exists (take 30 x), (take 30 y). split; [reflexivity|].
    rewrite !length_take. split; lia. }
  destruct Hbar as [x' [y' [Eb [Lb Lb']]]].
  destruct (mapM fromisoformat x) as [xdt|] eqn:Ed.
  - pose proof (Forall2_length (mapM_Some_1 _ _ _ Ed)) as Ld.
    pose proof (calls_spec plt (plot_calls (h0 :: h1 :: header) question xdt y) [PltFigure])
      as Hs.
    destruct (calls [PltFigure] (plot_calls (h0 :: h1 :: header) question xdt y))
      as [evs1 [e|]].
    + destruct Hs as [made [c [rest [Hcs [-> [_ Hc]]]]]]. cbn [app] in Hc.
      apply bars_returned in H. subst evs. rewrite Eb.
      exists (made ++ [c]), [PltBar x' y'; PltXticks; PltYlabel h1; PltTitle question].
      split; [reflexivity | split; [reflexivity|]].
      split; [rewrite <- !app_assoc; reflexivity|].
      split; [right; exists x', y'; auto|].
      split.
      * right. exists xdt, y, made, c, rest.
        split; [exact Hcs | split; [reflexivity|]].
        split; [rewrite Hc; eauto | split; congruence].
      * intros Hq. rewrite (Hq _ c) in Hc. discriminate Hc.
    + destruct Hs as [-> _]. apply closing_returned in H. subst evs.
      exists [], (plot_calls (h0 :: h1 :: header) question xdt y).
      split; [reflexivity | split; [reflexivity|]].
      split; [reflexivity|].
      split; [left; split; [reflexivity|]; exists xdt, y; split; [reflexivity|];
              split; congruence|].
      split; [left; reflexivity | intros _; reflexivity].
  - apply bars_returned in H. subst evs. rewrite Eb.
    exists [], [PltBar x' y'; PltXticks; PltYlabel h1; PltTitle question].
    split; [reflexivity | split; [reflexivity|]].
    split; [reflexivity|].
    split; [right; exists x', y'; auto|].
    split; [left; reflexivity | intros _; reflexivity].
Qed.

(** X9.  When the raw output holds a table: every state the last node
    returns has the fixed result path as [result_csv_path], the chart
    selector's result as [chart_png_path], and a message that names the
    table file and, exactly when a chart was drawn, the chart file; the file
    then holds the text of the extracted header and rows, written before
    any drawing call.  The node returns exactly when the operating system
    takes the file, every cell encodes and the chart selector returns.  An
    exception that leaves the node is that of the write, and then nothing
    is drawn, or that of the chart selector, and then the file is already
    whole. *)
Theorem node_table_saved
  (state : SqlAgent.AgentState) (raw : str) (header : list str) (rows : list (list str)) :
  SqlAgent.raw_output state = Some raw ->
  SqlAgent.parse_csv_from_text raw = Some (header, rows) ->
  (forall evs final,
     node_parse_and_visualize state = (evs, Return final) ->
     exists drawn chart,
       maybe_chart header rows (SqlAgent.question state) = (drawn, Return chart) /\
       (chart = None \/ chart = Some (u "./outputs/chart.png")) /\
       evs = WriteFile (u "./outputs/result.csv") (CsvWriter.writerows (header :: rows))
               :: drawn /\
       final = SqlAgent.mkState (SqlAgent.question state) (Some raw)
                 (Some (u "./outputs/result.csv")) chart
                 (Some (u "Saved ./outputs/result.csv" ++
                        match chart with
                        | Some _ => u " and ./outputs/chart.png"
                        | None => []
                        end))) /\
  ((exists evs final, node_parse_and_visualize state = (evs, Return final)) <->
   os_error (u "./outputs/result.csv") = false /\ encodable_table header rows /\
   exists drawn chart,
     maybe_chart header rows (SqlAgent.question state) = (drawn, Return chart)) /\
  (forall evs e,
     node_parse_and_visualize state = (evs, Raise e) ->
     save_table header rows (u "./outputs/result.csv") = (evs, Raise e) \/
     exists drawn,
       evs = WriteFile (u "./outputs/result.csv") (CsvWriter.writerows (header :: rows))
               :: drawn /\
       maybe_chart header rows (SqlAgent.question state) = (drawn, Raise e)).
Proof.
  intros Hraw Hparse.
  destruct (node_table_branch float_of_str fromisoformat plt os_error
              state raw header rows Hraw Hparse)
    as [[saved [e [Es E]]] |
        [Hos [Henc [[drawn [e [Ec E]]] | [drawn [chart [Ec [Hchart E]]]]]]]];
    rewrite E.
  - split; [intros evs final H; discriminate H|]. split.
    + split; [intros [evs [final H]]; discriminate H|].
      intros [Hos [Henc _]]. exfalso.
      assert (Hs : save_table header rows (u "./outputs/result.csv") =
                   ([WriteFile (u "./outputs/result.csv")
                       (CsvWriter.writerows (header :: rows))], Return tt)).
      { apply save_table_returns. auto. }
      rewrite Hs in Es. discriminate Es.
    + intros evs e' H. injection H as <- <-. left. exact Es.
  - split; [intros evs final H; discriminate H|]. split.
    + split; [intros [evs [final H]]; discriminate H|].
      intros [_ [_ [drawn' [chart H]]]]. rewrite Ec in H. discriminate H.
    + intros evs e' H. injection H as <- <-. right. exists drawn. auto.
  - split; [|split].
    + intros evs final H. injection H as <- <-. exists drawn, chart. auto.
    + split; [intros _ | eauto]. split; [exact Hos | split; [exact Henc | eauto]].
    + intros evs e H. discriminate H.
Qed.

End ChartsMore.

Section PipelinePaths.

Context {float datetime : Type}.
Variable float_of_str : str -> option float.
Variable fromisoformat : str -> option datetime.
Variable plt : list (event float datetime) -> event float datetime -> option exn.
Variable os_error : str -> bool.
Variable sql_agent : str -> str.

Local Abbreviation node_parse_and_visualize :=
  (SqlAgent.node_parse_and_visualize float_of_str fromisoformat plt os_error).
Local Abbreviation invoke :=
  (SqlAgent.invoke float_of_str fromisoformat plt os_error sql_agent).


End PipelinePaths.

Lemma maybe_chart_drawing_witness :
  let header := [u "Date"; u "Revenue"] in
  let rows := [[u "2024-01-02"; u "150.0"]; [u "2024-01-01"; u "100.0"]] in
  let evs : list (event Q date) :=
    [PltFigure; PltPlot [mkDate 2024 1 2; mkDate 2024 1 1] [Qmake 1500 10; Qmake 1000 10];
     PltXlabel (u "Date"); PltYlabel (u "Revenue"); PltTitle (u "Revenue by day");
     PltTightLayout; PltSavefig (u "./outputs/chart.png"); PltClose] in
  SqlAgent.maybe_chart float_of_decimal date_fromisoformat plt_returns header rows
    (u "Revenue by day") = (evs, Return (Some (u "./outputs/chart.png"))) /\
  u "./outputs/chart.png" = SqlAgent.out_png.
Proof.
  intros header rows evs.
  assert (E : SqlAgent.maybe_chart float_of_decimal date_fromisoformat plt_returns
                header rows (u "Revenue by day") =
              (evs, Return (Some (u "./outputs/chart.png"))))
    by (vm_compute; reflexivity).
  split; [exact E|].
  exact (proj1 (maybe_chart_drawing float_of_decimal date_fromisoformat plt_returns
                  header rows (u "Revenue by day") evs (u "./outputs/chart.png") E)).
Defined.

Lemma node_table_saved_witness :
  let raw := u "Date,Revenue" ++ [10] ++ u "2024-01-01,100.0" in
  let state := SqlAgent.mkState (u "Revenue by day") (Some raw) None None None in
  SqlAgent.parse_csv_from_text raw =
    Some ([u "Date"; u "Revenue"], [[u "2024-01-01"; u "100.0"]]) /\
  exists evs final,
    SqlAgent.node_parse_and_visualize float_of_decimal date_fromisoformat plt_returns
      os_accepts state = (evs, Return final) /\
    exists drawn chart,
      (chart = None \/ chart = Some (u "./outputs/chart.png")) /\
      evs = WriteFile (u "./outputs/result.csv")
              (u "Date,Revenue" ++ [13; 10] ++ u "2024-01-01,100.0" ++ [13; 10]) :: drawn /\
      final = SqlAgent.mkState (u "Revenue by day") (Some raw)
                (Some (u "./outputs/result.csv")) chart
                (Some (u "Saved ./outputs/result.csv" ++
                       match chart with
                       | Some _ => u " and ./outputs/chart.png"
                       | None => []
                       end)).
Proof.
  intros raw state.
  assert (E : SqlAgent.parse_csv_from_text raw =
              Some ([u "Date"; u "Revenue"], [[u "2024-01-01"; u "100.0"]]))
    by (vm_compute; reflexivity).
  split; [exact E|].
  destruct (node_table_saved float_of_decimal date_fromisoformat plt_returns os_accepts
              state raw [u "Date"; u "Revenue"] [[u "2024-01-01"; u "100.0"]] eq_refl E)
    as [Hret [Hiff _]].
  destruct (proj2 Hiff) as [evs [final Hrun]].
  - split; [reflexivity | split].
    + repeat (apply List.Forall_cons || apply List.Forall_nil); reflexivity.
    + eexists _, _. vm_compute. reflexivity.
  - exists evs, final. split; [exact Hrun|].
    destruct (Hret evs final Hrun) as [drawn [chart [_ [Hc [Hevs Hfinal]]]]].
    exists drawn, chart. split; [exact Hc | split; [exact Hevs | exact Hfinal]].
Defined.


(** * The two substitutions and the reader on plain lines *)

Lemma startswith_fence_In (s : str) : startswith SqlAgent.fence s = true -> In 96 s.
Proof.
  change SqlAgent.fence with [96; 96; 96].
  destruct s as [|c s]; cbn [startswith]; [discriminate|].
  intros H. apply andb_true_iff in H. destruct H as [H _].
  apply N.eqb_eq in H. left. symmetry. exact H.
Qed.

Lemma startswith_fence_false (s : str) :
  ~ In 96 s -> startswith SqlAgent.fence s = false.
Proof.
  intros H. destruct (startswith SqlAgent.fence s) eqn:E; [|reflexivity].
  destruct (H (startswith_fence_In s E)).
Qed.

Lemma sub_fence_open_go_id (bol : bool) (s : str) :
  ~ In 96 s -> SqlAgent.sub_fence_open_go bol 0 s = s.
Proof.
  revert bol. induction s as [|c s IH]; intros bol H; [reflexivity|].
  cbn [SqlAgent.sub_fence_open_go].
  rewrite (startswith_fence_false (c :: s) H), andb_false_r.
  f_equal. apply IH. intros Hc. apply H. right. exact Hc.
Qed.

Lemma sub_fence_close_go_id (s : str) :
  ~ In 96 s -> SqlAgent.sub_fence_close_go 0 s = s.
Proof.
  induction s as [|c s IH]; intros H; [reflexivity|].
  cbn [SqlAgent.sub_fence_close_go].
  rewrite (startswith_fence_false (c :: s) H). cbn [andb].
  f_equal. apply IH. intros Hc. apply H. right. exact Hc.
Qed.

Lemma sub_fence_id (s : str) :
  ~ In 96 s -> SqlAgent.sub_fence_close (SqlAgent.sub_fence_open s) = s.
Proof.
  intros H. unfold SqlAgent.sub_fence_close, SqlAgent.sub_fence_open.
  rewrite (sub_fence_open_go_id true s H). apply sub_fence_close_go_id, H.
Qed.

(** X11.  A text with no backquote in it goes through the two fence
    substitutions unchanged: what the extractor returns for it is what the
    csv reader reads from the stripped text, the first row as header. *)
Theorem parse_csv_without_backquote
  (text : str) (header : list str) (data : list (list str)) :
  ~ In 96 text ->
  SqlAgent.parse_csv_from_text text = Some (header, data) ->
  Csv.reader_list (strip text) = Some (header :: data).
Proof.
  intros H Hp. apply parse_csv_some_inv in Hp. destruct Hp as [Hr _].
  rewrite sub_fence_id in Hr; [exact Hr|].
  intros Hc. apply H, In_strip, Hc.
Qed.

Lemma parse_csv_without_backquote_witness :
  let text := [32] ++ u "a,b" ++ [10] ++ u "1,2" ++ [10] in
  Csv.reader_list (strip text) = Some [[u "a"; u "b"]; [u "1"; u "2"]].
Proof.
  intros text.
  apply (parse_csv_without_backquote text [u "a"; u "b"] [[u "1"; u "2"]]).
  - intros H. vm_compute in H. intuition discriminate.
  - vm_compute. reflexivity.
Defined.

Lemma plain_char_inv (c : N) :
  plain_char c = true ->
  is_linebreak c = false /\ Csv.is_crnl c = false /\
  (c =? Csv.quotechar) = false /\ (c =? 96) = false /\ (c =? 10) = false.
Proof.
  unfold plain_char, Csv.is_crnl, Csv.quotechar. intros H.
  apply andb_true_iff in H. destruct H as [H H96].
  apply andb_true_iff in H. destruct H as [Hlb H34].
  apply negb_true_iff in Hlb, H34, H96.
  assert (H10 : (c =? 10) = false).
  { destruct (N.eqb_spec c 10) as [-> |]; [discriminate Hlb | reflexivity]. }
  assert (H13 : (c =? 13) = false).
  { destruct (N.eqb_spec c 13) as [-> |]; [discriminate Hlb | reflexivity]. }
  rewrite H10, H13. auto.
Qed.

(** The reader inside a record, fed a run of plain characters and then the
    end of the line: the fields are the pieces between the commas. *)
Lemma feed_plain (l : str) (ending : str) (r : Csv.Reader) :
  forallb plain_char l = true ->
  ending = [] \/ ending = [10] ->
  Csv.state r = Csv.START_FIELD \/ Csv.state r = Csv.IN_FIELD ->
  N.of_nat (length (Csv.field r) + length l) <= Csv.field_limit ->
  Csv.feed r (l ++ ending) =
  Some (Csv.mkReader Csv.START_RECORD (Csv.fields r ++ split_go (Csv.field r) l) []).
Proof.
  revert r. induction l as [|c l IH]; intros [st fs f] Hp He Hs Hlen;
    cbn [Csv.state Csv.fields Csv.field] in *.
  - destruct He as [-> | ->], Hs as [-> | ->]; reflexivity.
  - cbn [forallb] in Hp. apply andb_true_iff in Hp. destruct Hp as [Hc Hp].
    destruct (plain_char_inv c Hc) as [_ [Hcr [Hq _]]].
    cbn [app Csv.feed split_go].
    assert (Hadd : Csv.parse_add_char (Csv.mkReader st fs f) c =
                   Some (Csv.mkReader st fs (f ++ [c]))).
    { unfold Csv.parse_add_char. cbn [Csv.field Csv.state Csv.fields].
      destruct (N.leb_spec Csv.field_limit (N.of_nat (length f))) as [Hle|_];
        [|reflexivity].
      cbn [length] in Hlen. lia. }
    destruct (N.eqb_spec c 44) as [-> | Hne].
    + assert (E : Csv.parse_process_char (Csv.mkReader st fs f) (Some 44) =
                  Some (Csv.mkReader Csv.START_FIELD (fs ++ [f]) [])).
      { destruct Hs as [-> | ->]; reflexivity. }
      rewrite E. cbn [mbind option_bind].
      rewrite IH; cbn [Csv.state Csv.fields Csv.field];
        [rewrite <- app_assoc; reflexivity | exact Hp | exact He | auto |].
      cbn [length] in *. lia.
    + assert (E : Csv.parse_process_char (Csv.mkReader st fs f) (Some c) =
                  Some (Csv.mkReader Csv.IN_FIELD fs (f ++ [c]))).
      { assert (Hd : (c =? Csv.delimiter) = false) by (apply N.eqb_neq; exact Hne).
        destruct Hs as [-> | ->];
          unfold Csv.parse_process_char, Csv.start_field; cbn [Csv.state];
          rewrite Hcr, ?Hq, Hd, Hadd; reflexivity. }
      rewrite E. cbn [mbind option_bind].
      rewrite IH; cbn [Csv.state Csv.fields Csv.field];
        [reflexivity | exact Hp | exact He | auto |].
      rewrite length_app. cbn [length] in *. lia.
Qed.

(** The reader at the start of a record, fed a plain line. *)
Lemma feed_plain_line (l : str) (ending : str) :
  plain_line l -> ending = [] \/ ending = [10] ->
  Csv.feed Csv.parse_reset (l ++ ending) =
  Some (Csv.mkReader Csv.START_RECORD (split_commas l) []).
Proof.
  intros [Hne [Hp Hlen]] He. destruct l as [|c l]; [congruence|].
  assert (Hc : plain_char c = true).
  { cbn [forallb] in Hp. apply andb_true_iff in Hp. tauto. }
  destruct (plain_char_inv c Hc) as [_ [Hcr _]].
  transitivity (Csv.feed (Csv.set_state Csv.START_FIELD Csv.parse_reset)
                  ((c :: l) ++ ending)).
  - cbn [app Csv.feed]. f_equal.
    unfold Csv.parse_process_char at 1. cbn [Csv.state Csv.parse_reset].
    rewrite Hcr. reflexivity.
  - rewrite (feed_plain (c :: l) ending); [reflexivity | exact Hp | exact He | | ].
    + left. reflexivity.
    + cbn [Csv.field Csv.set_state Csv.parse_reset length Nat.add] in *. exact Hlen.
Qed.

Lemma readlines_go_plain (l cur tail : str) :
  forallb plain_char l = true ->
  Csv.readlines_go cur (l ++ tail) = Csv.readlines_go (rev l ++ cur) tail.
Proof.
  revert cur. induction l as [|c l IH]; intros cur Hp; [reflexivity|].
  cbn [forallb] in Hp. apply andb_true_iff in Hp. destruct Hp as [Hc Hp].
  destruct (plain_char_inv c Hc) as [_ [_ [_ [_ H10]]]].
  cbn [app Csv.readlines_go]. rewrite H10, (IH (c :: cur) Hp).
  cbn [rev]. rewrite <- app_assoc. reflexivity.
Qed.

Lemma splitlines_go_plain (l cur tail : str) :
  forallb plain_char l = true ->
  splitlines_go false cur (l ++ tail) = splitlines_go false (rev l ++ cur) tail.
Proof.
  revert cur. induction l as [|c l IH]; intros cur Hp; [reflexivity|].
  cbn [forallb] in Hp. apply andb_true_iff in Hp. destruct Hp as [Hc Hp].
  destruct (plain_char_inv c Hc) as [Hlb _].
  cbn [app splitlines_go andb]. rewrite Hlb, (IH (c :: cur) Hp).
  cbn [rev]. rewrite <- app_assoc. reflexivity.
Qed.

(** The reader on plain lines joined by line feeds returns one row per
    line, cut at the commas. *)
Lemma reader_list_plain (lines : list str) :
  Forall plain_line lines ->
  Csv.reader_list (join_lines lines) = Some (List.map split_commas lines).
Proof.
  unfold Csv.reader_list, Csv.StringIO.
  induction lines as [|l lines IH]; intros H; [reflexivity|].
  apply List.Forall_cons_iff in H. destruct H as [Hl H].
  pose proof Hl as [Hne [Hp _]].
  destruct lines as [|l2 lines].
  - cbn [join_lines]. rewrite <- (app_nil_r l) at 1.
    rewrite (readlines_go_plain l [] [] Hp), app_nil_r. cbn [Csv.readlines_go].
    destruct (rev l) as [|c rl] eqn:Er.
    { apply (f_equal (@rev N)) in Er. rewrite rev_involutive in Er. cbn in Er.
      congruence. }
    rewrite <- Er, rev_involutive. cbn [Csv.read_rows].
    rewrite <- (app_nil_r l) at 1.
    rewrite (feed_plain_line l [] Hl) by (left; reflexivity). reflexivity.
  - change (join_lines (l :: l2 :: lines)) with (l ++ 10 :: join_lines (l2 :: lines)).
    rewrite (readlines_go_plain l [] _ Hp), app_nil_r.
    cbn [Csv.readlines_go N.eqb Pos.eqb].
    change (rev (10 :: rev l)) with (rev (rev l) ++ [10]).
    rewrite rev_involutive. cbn [Csv.read_rows].
    rewrite (feed_plain_line l [10] Hl) by (right; reflexivity).
    cbn [mbind option_bind Csv.state Csv.fields].
    rewrite (IH H). reflexivity.
Qed.

Lemma first_line_join (head : str) (body : list str) :
  plain_line head -> splitlines (join_lines (head :: body)) <> [] /\
  forall l ls, splitlines (join_lines (head :: body)) = l :: ls -> l = head.
Proof.
  intros [Hne [Hp _]]. unfold splitlines.
  assert (E : exists tail, join_lines (head :: body) = head ++ tail /\
                           (tail = [] \/ exists t, tail = 10 :: t)).
  { destruct body as [|b body]; cbn [join_lines].
    - exists []. rewrite app_nil_r. auto.
    - eexists. split; [reflexivity|]. right. eauto. }
  destruct E as [tail [-> Ht]].
  rewrite (splitlines_go_plain head [] tail Hp), app_nil_r.
  assert (Hr : rev (rev head) = head) by apply rev_involutive.
  destruct (rev head) as [|c rh] eqn:Er; [cbn in Hr; congruence|].
  destruct Ht as [-> | [t ->]]; cbn [splitlines_go andb is_linebreak].
  - split; [discriminate|]. intros l ls H. injection H as <- _. exact Hr.
  - change (is_linebreak 10) with true. cbn iota.
    split; [discriminate|]. intros l ls H. injection H as <- _. exact Hr.
Qed.

Lemma In_join_lines (c : N) (lines : list str) :
  In c (join_lines lines) -> c = 10 \/ exists l, In l lines /\ In c l.
Proof.
  induction lines as [|l lines IH]; [intros []|].
  destruct lines as [|l2 lines]; cbn [join_lines].
  - intros H. right. exists l. split; [left; reflexivity | exact H].
  - intros H. apply in_app_or in H. destruct H as [H | [H | H]].
    + right. exists l. split; [left; reflexivity | exact H].
    + left. symmetry. exact H.
    + destruct (IH H) as [-> | [l' [Hl' Hc]]]; [left; reflexivity|].
      right. exists l'. split; [right; exact Hl' | exact Hc].
Qed.

Lemma count_present (c : N) (s : str) : In c s -> (count c s <? 1)%nat = false.
Proof.
  unfold count. intros H. apply Nat.ltb_ge.
  induction s as [|a s IH]; [destruct H|]. cbn [List.filter].
  destruct (N.eqb_spec c a) as [_ | Hne]; [cbn [length]; lia|].
  apply IH. destruct H as [-> | H]; [congruence | exact H].
Qed.

(** The extractor on a text whose stripped form is a plain table: the rows
    of the reader are the lines cut at the commas. *)
Lemma parse_csv_plain_rows (text head : str) (body : list str) :
  strip text = join_lines (head :: body) ->
  Forall plain_line (head :: body) ->
  In 44 head ->
  SqlAgent.parse_csv_from_text text =
  if existsb (fun r => negb (length r =? length (split_commas head))%nat)
       (List.map split_commas body)
  then None
  else Some (split_commas head, List.map split_commas body).
Proof.
  intros Hs Hl Hc. unfold SqlAgent.parse_csv_from_text, SqlAgent.first_line_of.
  rewrite Hs.
  pose proof (proj1 (List.Forall_cons_iff _ _ _) Hl) as [Hh _].
  destruct (first_line_join head body Hh) as [Hne Hfirst].
  destruct (splitlines (join_lines (head :: body))) as [|l ls]; [congruence|].
  rewrite (Hfirst l ls eq_refl), (count_present 44 head Hc).
  rewrite sub_fence_id.
  - rewrite (reader_list_plain (head :: body) Hl). reflexivity.
  - intros H96. apply In_join_lines in H96. destruct H96 as [H96 | [l' [Hl' H96]]];
      [discriminate H96|].
    rewrite List.Forall_forall in Hl. destruct (Hl l' Hl') as [_ [Hp _]].
    rewrite forallb_forall in Hp. specialize (Hp 96 H96). discriminate Hp.
Qed.

(** X12.  A plain table is extracted as it reads: when the stripped text is
    a header line with a comma in it followed by data lines, all plain and
    joined by line feeds, and every data line has as many comma-separated
    pieces as the header line, the extractor returns the pieces of the
    header line as header and those of each data line as a row, in order. *)
Theorem parse_csv_plain_table (text head : str) (body : list str) :
  strip text = join_lines (head :: body) ->
  Forall plain_line (head :: body) ->
  In 44 head ->
  Forall (fun l => length (split_commas l) = length (split_commas head)) body ->
  SqlAgent.parse_csv_from_text text =
  Some (split_commas head, List.map split_commas body).
Proof.
  intros Hs Hl Hc Hw. rewrite (parse_csv_plain_rows text head body Hs Hl Hc).
  assert (E : existsb (fun r => negb (length r =? length (split_commas head))%nat)
                (List.map split_commas body) = false).
  { apply not_true_is_false. intros H. apply existsb_exists in H.
    destruct H as [r [Hr Hn]]. apply in_map_iff in Hr. destruct Hr as [l [<- Hin]].
    rewrite List.Forall_forall in Hw. rewrite (Hw l Hin), Nat.eqb_refl in Hn.
    discriminate Hn. }
  rewrite E. reflexivity.
Qed.

Lemma parse_csv_plain_table_witness :
  let text := [32] ++ u "City,Units" ++ [10] ++ u "Oslo,3" ++ [10] ++ u "Rome,5" ++ [10] in
  SqlAgent.parse_csv_from_text text =
  Some ([u "City"; u "Units"], [[u "Oslo"; u "3"]; [u "Rome"; u "5"]]).
Proof.
  intros text.
  apply (parse_csv_plain_table text (u "City,Units") [u "Oslo,3"; u "Rome,5"]).
  - vm_compute. reflexivity.
  - repeat (apply List.Forall_cons || apply List.Forall_nil);
      (split; [discriminate | split; [reflexivity | vm_compute; discriminate]]).
  - vm_compute. tauto.
  - repeat (apply List.Forall_cons || apply List.Forall_nil); reflexivity.
Defined.


(** * A one-line answer with a comma *)

Lemma split_go_nonempty (l cur : str) : split_go cur l <> [].
Proof.
  revert cur. induction l as [|c l IH]; intros cur; cbn [split_go]; [discriminate|].
  destruct (c =? 44); [discriminate | apply IH].
Qed.

(** A plain line cut at its commas and written as a row is that line: no
    piece needs quotes. *)
Lemma join_split_go (l cur : str) :
  forallb plain_char l = true -> existsb CsvWriter.special cur = false ->
  CsvWriter.join_fields (split_go cur l) = cur ++ l.
Proof.
  revert cur. induction l as [|c l IH]; intros cur Hp Hcur; cbn [split_go].
  - cbn [CsvWriter.join_fields]. unfold CsvWriter.write_field.
    rewrite Hcur, app_nil_r. reflexivity.
  - cbn [forallb] in Hp. apply andb_true_iff in Hp. destruct Hp as [Hc Hp].
    destruct (N.eqb_spec c 44) as [->|Hne].
    + destruct (split_go [] l) as [|f fs] eqn:E;
        [exfalso; exact (split_go_nonempty l [] E)|].
      change (CsvWriter.join_fields (cur :: f :: fs))
        with (CsvWriter.write_field cur ++ Csv.delimiter :: CsvWriter.join_fields (f :: fs)).
      rewrite <- E, (IH [] Hp eq_refl). unfold CsvWriter.write_field. rewrite Hcur.
      reflexivity.
    + rewrite (IH (cur ++ [c]) Hp); [rewrite <- app_assoc; reflexivity|].
      rewrite existsb_app, Hcur. cbn [existsb orb].
      destruct (plain_char_inv c Hc) as [_ [Hcrnl [Hq [_ H10]]]].
      unfold Csv.is_crnl in Hcrnl. apply orb_false_iff in Hcrnl.
      unfold CsvWriter.special, Csv.delimiter.
      rewrite (proj2 (N.eqb_neq c 44) Hne), Hq, H10, (proj2 Hcrnl). reflexivity.
Qed.

Lemma writerow_split_commas (l : str) :
  l <> [] -> forallb plain_char l = true ->
  CsvWriter.writerow (split_commas l) = l ++ [13; 10].
Proof.
  intros Hne Hp. pose proof (join_split_go l [] Hp eq_refl) as J.
  unfold split_commas in *. cbn [app] in J.
  destruct (split_go [] l) as [|[|c f] [|f' fs]] eqn:E; cbn [CsvWriter.writerow];
    try (rewrite J; reflexivity).
  cbn in J. congruence.
Qed.

Section OneLine.

Context {float datetime : Type}.
Variable float_of_str : str -> option float.
Variable fromisoformat : str -> option datetime.
Variable plt : list (event float datetime) -> event float datetime -> option exn.
Variable os_error : str -> bool.
Variable sql_agent : str -> str.

(** X13.  An answer that is a single plain line with a comma in it is taken
    for a table with a header and no rows.  When the line encodes to UTF-8
    and the operating system takes the file, a run from a state that holds
    only the question writes that line, with the writer's line end, to the
    result file, makes no drawing call, and ends with the message "Saved
    ./outputs/result.csv", in which the answer itself does not appear. *)
Theorem invoke_one_line_answer (question out : str) :
  sql_agent (SqlAgent.SAFETY_PREFIX ++ [10; 10] ++ u "Question: " ++ question) = out ->
  plain_line (strip out) -> In 44 (strip out) ->
  encodable (strip out) = true -> os_error (u "./outputs/result.csv") = false ->
  SqlAgent.invoke float_of_str fromisoformat plt os_error sql_agent
    (SqlAgent.mkState question None None None None) =
  ([WriteFile (u "./outputs/result.csv") (strip out ++ [13; 10])],
   Return (SqlAgent.mkState question (Some out) (Some (u "./outputs/result.csv")) None
             (Some (u "Saved ./outputs/result.csv")))).
Proof.
  intros Hout Hl Hc Henc Hos. unfold SqlAgent.invoke, SqlAgent.node_agent.
  cbn [SqlAgent.question]. rewrite Hout.
  assert (Hp : SqlAgent.parse_csv_from_text out = Some (split_commas (strip out), [])).
  { rewrite (parse_csv_plain_rows out (strip out) []);
      [reflexivity | reflexivity | | exact Hc].
    apply List.Forall_cons; [exact Hl | apply List.Forall_nil]. }
  assert (Hw : CsvWriter.writerow (split_commas (strip out)) = strip out ++ [13; 10]).
  { destruct Hl as [Hne [Hplain _]]. exact (writerow_split_commas _ Hne Hplain). }
  assert (Hs : SqlAgent.save_table (float:=float) (datetime:=datetime) os_error
                 (split_commas (strip out)) [] (u "./outputs/result.csv") =
               ([WriteFile (u "./outputs/result.csv") (strip out ++ [13; 10])], Return tt)).
  { apply save_table_returns. split; [exact Hos | split].
    - apply List.Forall_cons; [|apply List.Forall_nil].
      apply encodable_row_true. rewrite Hw, encodable_app, Henc. reflexivity.
    - cbn [CsvWriter.writerows]. rewrite Hw, app_nil_r. reflexivity. }
  unfold SqlAgent.node_parse_and_visualize.
  cbn [SqlAgent.model_copy fold_left SqlAgent.set_field SqlAgent.raw_output
       SqlAgent.question SqlAgent.result_csv_path SqlAgent.chart_png_path
       SqlAgent.message].
  destruct out as [|c out]; [destruct Hl as [Hne _]; exact (False_ind _ (Hne eq_refl))|].
  rewrite Hp.
  change (path_join SqlAgent.OUT_DIR (u "result.csv")) with (u "./outputs/result.csv").
  rewrite Hs. unfold SqlAgent.maybe_chart.
  rewrite (bool_decide_eq_true_2 _ (eq_refl : @nil (list str) = [])), orb_true_r.
  reflexivity.
Qed.

End OneLine.

Lemma invoke_one_line_answer_witness :
  let out := u "Sure, revenue rose last week." in
  SqlAgent.invoke float_of_decimal date_fromisoformat plt_returns os_accepts
    (constant_agent out)
    (SqlAgent.mkState (u "How is revenue?") None None None None) =
  ([WriteFile (u "./outputs/result.csv") (u "Sure, revenue rose last week." ++ [13; 10])],
   Return (SqlAgent.mkState (u "How is revenue?") (Some out)
             (Some (u "./outputs/result.csv")) None
             (Some (u "Saved ./outputs/result.csv")))).
Proof.
  intros out.
  apply (invoke_one_line_answer float_of_decimal date_fromisoformat plt_returns os_accepts
           (constant_agent out) (u "How is revenue?") out).
  - reflexivity.
  - split; [discriminate | split; [reflexivity | vm_compute; discriminate]].
  - vm_compute. tauto.
  - reflexivity.
  - reflexivity.
Defined.


(** * The data generators (fake_data_generator.py) *)

Lemma bind_Ok_inv {A B} (m : DataGen.M A) (f : A -> DataGen.M B) (k k2 : nat) (b : B) :
  DataGen.bind m f k = DataGen.Ok (b, k2) ->
  exists a k1, m k = DataGen.Ok (a, k1) /\ f a k1 = DataGen.Ok (b, k2).
Proof.
  unfold DataGen.bind. destruct (m k) as [[a k1]| |]; [eauto | discriminate..].
Qed.

Lemma choice_Ok_inv {A} (rand : nat -> nat) (seq : list A) (k k' : nat) (x : A) :
  DataGen.choice rand seq k = DataGen.Ok (x, k') -> x ∈ seq /\ k' = S k.
Proof.
  unfold DataGen.choice.
  destruct (seq !! (rand k mod length seq)%nat) as [y|] eqn:E; [|discriminate].
  intros H. injection H as -> <-. split; [|reflexivity].
  apply (list_elem_of_lookup_2 _ _ _ E).
Qed.

(** On a sequence that is not empty [random.choice] returns. *)
Lemma choice_returns {A} (rand : nat -> nat) (seq : list A) (k : nat) :
  seq <> [] -> exists x, DataGen.choice rand seq k = DataGen.Ok (x, S k).
Proof.
  intros Hne. unfold DataGen.choice.
  destruct (lookup_lt_is_Some_2 seq (rand k mod length seq)%nat) as [x Hx].
  - apply Nat.mod_upper_bound. destruct seq; [congruence | discriminate].
  - rewrite Hx. eauto.
Qed.

Lemma getitem_Ok_inv {A} (d : list (str * A)) (key : str) (k k' : nat) (v : A) :
  DataGen.getitem d key k = DataGen.Ok (v, k') -> (key, v) ∈ d /\ k' = k.
Proof.
  unfold DataGen.getitem.
  destruct (List.find (fun e => bool_decide (fst e = key)) d) as [[key' v']|] eqn:E;
    [|discriminate].
  intros H. injection H as -> <-. apply find_some in E. destruct E as [Hin He].
  apply bool_decide_eq_true in He. cbn in He. subst key'.
  split; [apply list_elem_of_In; exact Hin | reflexivity].
Qed.

Section ProductNames.

Variable rand : nat -> nat.

(** Every name the generator returns is one of [all_names]. *)
Lemma generate_real_product_name_in (k k' : nat) (name : str) :
  DataGen.generate_real_product_name rand k = DataGen.Ok (name, k') ->
  name ∈ DataGen.all_names.
Proof.
  unfold DataGen.generate_real_product_name. intros H.
  apply bind_Ok_inv in H. destruct H as [category [k1 [Hc H]]].
  apply bind_Ok_inv in H. destruct H as [types [k2 [Ht H]]].
  apply bind_Ok_inv in H. destruct H as [product_type [k3 [Hp H]]].
  apply bind_Ok_inv in H. destruct H as [brand [k4 [Hb H]]].
  apply getitem_Ok_inv in Ht. destruct Ht as [Hentry _].
  apply choice_Ok_inv in Hp. destruct Hp as [Hp _].
  apply choice_Ok_inv in Hb. destruct Hb as [Hb _].
  unfold DataGen.all_names.
  apply list_elem_of_bind. exists (category, types). split; [|exact Hentry].
  apply list_elem_of_bind. exists product_type. split; [|exact Hp].
  apply list_elem_of_bind. exists brand. split; [|exact Hb].
  cbn [fst snd]. unfold DataGen.product_name.
  destruct (bool_decide (category ∈ [u "Groceries"; u "Health"])) eqn:Eg.
  - apply bool_decide_eq_true in Eg.
    assert (Hne : category <> u "Electronics").
    { intros ->. apply list_elem_of_In in Eg. vm_compute in Eg.
      intuition discriminate. }
    rewrite (bool_decide_eq_false_2 _ Hne).
    injection H as <- _. apply list_elem_of_singleton. reflexivity.
  - destruct (bool_decide (category = u "Electronics")).
    + apply bind_Ok_inv in H. destruct H as [size [k5 [Hs H]]].
      apply choice_Ok_inv in Hs. destruct Hs as [Hs _].
      injection H as <- _.
      apply list_elem_of_fmap. exists size. split; [reflexivity | exact Hs].
    + injection H as <- _. apply list_elem_of_singleton. reflexivity.
Qed.

Lemma getitem_categories (category : str) (k : nat) :
  category ∈ fst <$> DataGen.categories ->
  exists types,
    DataGen.getitem DataGen.categories category k = DataGen.Ok (types, k) /\
    types <> [].
Proof.
  intros H. apply list_elem_of_In in H. cbn in H.
  destruct H as [<- | [<- | [<- | [<- | [<- | []]]]]];
    (eexists; split; [vm_compute; reflexivity | discriminate]).
Qed.

(** The generator always returns a name: no choice is made from an empty
    list and no key is missing. *)
Lemma generate_real_product_name_returns (k : nat) :
  exists name k', DataGen.generate_real_product_name rand k = DataGen.Ok (name, k').
Proof.
  unfold DataGen.generate_real_product_name.
  destruct (choice_returns rand (fst <$> DataGen.categories) k) as [category Hc];
    [discriminate|].
  unfold DataGen.bind at 1. rewrite Hc.
  apply choice_Ok_inv in Hc. destruct Hc as [Hc _].
  destruct (getitem_categories category (S k) Hc) as [types [Ht Hne]].
  unfold DataGen.bind at 1. rewrite Ht.
  destruct (choice_returns rand types (S k) Hne) as [product_type Hp].
  unfold DataGen.bind at 1. rewrite Hp.
  destruct (choice_returns rand DataGen.brands (S (S k))) as [brand Hb];
    [discriminate|].
  unfold DataGen.bind at 1. rewrite Hb.
  destruct (bool_decide (category ∈ [u "Groceries"; u "Health"]));
    [unfold DataGen.ret; eauto|].
  destruct (bool_decide (category = u "Electronics"));
    [|unfold DataGen.ret; eauto].
  destruct (choice_returns rand DataGen.sizes (S (S (S k)))) as [size Hs];
    [discriminate|].
  unfold DataGen.bind. rewrite Hs. unfold DataGen.ret. eauto.
Qed.

End ProductNames.

Lemma u_inj (s t : string) : u s = u t -> s = t.
Proof.
  unfold u. intros H.
  rewrite <- (string_of_list_ascii_of_string s), <- (string_of_list_ascii_of_string t).
  f_equal. revert H. generalize (list_ascii_of_string s) (list_ascii_of_string t).
  induction l as [|a l IH]; intros [|b l']; cbn; intros H; try discriminate;
    [reflexivity|].
  injection H as Hab Hl. f_equal; [|exact (IH _ Hl)].
  rewrite <- (ascii_N_embedding a), <- (ascii_N_embedding b), Hab. reflexivity.
Qed.

Lemma str_of_nat_inj (a b : nat) : DataGen.str_of_nat a = DataGen.str_of_nat b -> a = b.
Proof.
  unfold DataGen.str_of_nat. intros H. apply u_inj in H.
  apply Unsigned.to_uint_inj.
  assert (E : Some (Nat.to_uint a) = Some (Nat.to_uint b))
    by (rewrite <- !NilEmpty.usu, H; reflexivity).
  injection E as E. exact E.
Qed.

Lemma numbered_inj (prefix : str) (a b : nat) :
  prefix ++ DataGen.str_of_nat a = prefix ++ DataGen.str_of_nat b -> a = b.
Proof. intros H. apply app_inv_head in H. exact (str_of_nat_inj a b H). Qed.

Section MasterData.

Context {float : Type}.
Variable rand : nat -> nat.
Variable price_of : nat -> float.
Variable city_of : nat -> str.

Local Abbreviation products_loop := (DataGen.products_loop rand price_of).
Local Abbreviation prod_id := (fun j : nat => u "PROD" ++ DataGen.str_of_nat (100 + j)).
Local Abbreviation store_id := (fun j : nat => u "STORE" ++ DataGen.str_of_nat (10 + j)).

(** What the [while] loop keeps true of the products, the set of names and
    the counter, and what holds of its result. *)
Lemma products_loop_inv (fuel : nat) (n : Z) :
  forall (i : nat) (pl : list (DataGen.product (float:=float))) (gn : list str)
         (k k' : nat) (pl' : list DataGen.product),
  products_loop fuel n i pl gn k = DataGen.Ok (pl', k') ->
  (forall x, x ∈ gn <-> x ∈ DataGen.ProductName <$> pl) ->
  NoDup (DataGen.ProductName <$> pl) ->
  (forall x, x ∈ DataGen.ProductName <$> pl -> x ∈ DataGen.all_names) ->
  (Z.of_nat (length pl) <= Z.max 0 n)%Z ->
  NoDup (DataGen.ProductID <$> pl) ->
  Forall (fun p => exists j, (j < i)%nat /\ DataGen.ProductID p = prod_id j) pl ->
  length pl' = Z.to_nat n /\
  NoDup (DataGen.ProductName <$> pl') /\
  (forall x, x ∈ DataGen.ProductName <$> pl' -> x ∈ DataGen.all_names) /\
  NoDup (DataGen.ProductID <$> pl') /\
  Forall (fun p => exists j, DataGen.ProductID p = prod_id j) pl'.
Proof.
  induction fuel as [|fuel IH]; intros i pl gn k k' pl' Hrun I1 I2 I3 I4 I5 I6;
    [discriminate Hrun|].
  cbn [DataGen.products_loop] in Hrun.
  destruct (Z.ltb_spec (Z.of_nat (length pl)) n) as [Hlt | Hge].
  - apply bind_Ok_inv in Hrun. destruct Hrun as [name [k1 [Hname Hrun]]].
    pose proof (generate_real_product_name_in rand k k1 name Hname) as Hall.
    destruct (bool_decide (name ∈ gn)) eqn:Eseen.
    + apply (IH _ _ _ _ _ _ Hrun I1 I2 I3 I4 I5).
      eapply List.Forall_impl; [|exact I6]. intros p [j [Hj Hp]]. exists j. split; [lia | exact Hp].
    + apply bool_decide_eq_false in Eseen.
      apply bind_Ok_inv in Hrun. destruct Hrun as [price [k2 [_ Hrun]]].
      assert (Hfresh : name ∉ DataGen.ProductName <$> pl) by (rewrite <- I1; exact Eseen).
      apply (IH _ _ _ _ _ _ Hrun).
      * intros x. rewrite fmap_app, elem_of_app, elem_of_cons, I1. cbn.
        rewrite list_elem_of_singleton. tauto.
      * rewrite fmap_app. apply list.NoDup_app. split; [exact I2|]. split.
        -- intros x Hx Hx'. cbn in Hx'. apply list_elem_of_singleton in Hx'.
           subst x. exact (Hfresh Hx).
        -- cbn. apply NoDup_singleton.
      * intros x. rewrite fmap_app, elem_of_app. cbn.
        rewrite list_elem_of_singleton. intros [Hx | ->]; [exact (I3 x Hx) | exact Hall].
      * rewrite List.length_app. cbn [length]. lia.
      * rewrite fmap_app. apply list.NoDup_app. split; [exact I5|]. split.
        -- intros x Hx Hx'.
           apply list_elem_of_fmap in Hx'. destruct Hx' as [q [Hq Hqin]].
           apply list_elem_of_singleton in Hqin. subst q. cbn [DataGen.ProductID] in Hq.
           apply list_elem_of_fmap in Hx. destruct Hx as [p [Hp Hin]].
           rewrite List.Forall_forall in I6.
           destruct (I6 p (proj1 (list_elem_of_In _ _) Hin)) as [j [Hj Hpj]].
           rewrite Hp, Hpj in Hq. apply numbered_inj in Hq. lia.
        -- cbn. apply NoDup_singleton.
      * apply List.Forall_app. split.
        -- eapply List.Forall_impl; [|exact I6]. intros p [j [Hj Hp]].
           exists j. split; [lia | exact Hp].
        -- apply List.Forall_cons; [|apply List.Forall_nil]. exists i. split; [lia | reflexivity].
  - injection Hrun as <- _. split; [lia|]. split; [exact I2|]. split; [exact I3|].
    split; [exact I5|].
    eapply List.Forall_impl; [|exact I6]. intros p [j [_ Hp]]. eauto.
Qed.

(** The store list: one store per index, numbered from 10 in order, the
    cities drawn one after the other. *)
Lemma stores_from_returns (n i k : nat) :
  exists sl,
    DataGen.stores_from city_of n i k = DataGen.Ok (sl, (k + n)%nat) /\
    DataGen.StoreID <$> sl = store_id <$> seq i n /\
    DataGen.StoreLocation <$> sl = city_of <$> seq k n.
Proof.
  revert i k. induction n as [|n IH]; intros i k.
  - exists []. rewrite Nat.add_0_r. repeat split.
  - destruct (IH (S i) (S k)) as [sl [Hrun [Hid Hloc]]].
    eexists. cbn [DataGen.stores_from]. unfold DataGen.bind, DataGen.draw.
    rewrite Hrun. unfold DataGen.ret.
    replace (S k + n)%nat with (k + S n)%nat by lia.
    split; [reflexivity|]. cbn [fmap list_fmap seq DataGen.StoreID DataGen.StoreLocation].
    split; f_equal; assumption.
Qed.

(** X14.  When [generate_master_data] returns, it returns exactly
    [num_products] products (none for a negative number) whose names are
    pairwise different and all among the 266 names the name generator can
    build, and exactly [num_stores] stores. *)
Theorem generate_master_data_products
  (fuel : nat) (num_products num_stores : Z) (k k' : nat)
  (product_list : list (DataGen.product (float:=float)))
  (store_list : list DataGen.store) :
  DataGen.generate_master_data rand price_of city_of fuel num_products num_stores k =
    DataGen.Ok ((product_list, store_list), k') ->
  length product_list = Z.to_nat num_products /\
  NoDup (DataGen.ProductName <$> product_list) /\
  (forall p, p ∈ product_list -> DataGen.ProductName p ∈ DataGen.all_names) /\
  length DataGen.all_names = 266%nat /\
  length store_list = Z.to_nat num_stores.
Proof.
  unfold DataGen.generate_master_data. intros H.
  apply bind_Ok_inv in H. destruct H as [pl [k1 [Hp H]]].
  apply bind_Ok_inv in H. destruct H as [sl [k2 [Hs H]]].
  injection H as <- <- _.
  destruct (products_loop_inv fuel num_products 0 [] [] k k1 pl Hp)
    as [Hlen [Hnd [Hall _]]].
  - intros x. cbn. tauto.
  - cbn. apply NoDup_nil_2.
  - cbn. intros x Hx. apply elem_of_nil in Hx. destruct Hx.
  - cbn. lia.
  - cbn. apply NoDup_nil_2.
  - apply List.Forall_nil.
  - destruct (stores_from_returns (Z.to_nat num_stores) 0 k1) as [sl' [Hrun [Hid _]]].
    rewrite Hrun in Hs. injection Hs as <- _.
    repeat split; try assumption.
    + intros p Hin. apply Hall, list_elem_of_fmap. eauto.
    + apply (f_equal length) in Hid. rewrite !length_fmap, List.length_seq in Hid. exact Hid.
Qed.

(** X15.  When [generate_master_data] returns, the product identifiers are
    pairwise different, each "PROD" followed by a number from 100 up, and
    the store identifiers are STORE10, STORE11, ... in order, pairwise
    different as well. *)
Theorem generate_master_data_ids
  (fuel : nat) (num_products num_stores : Z) (k k' : nat)
  (product_list : list (DataGen.product (float:=float)))
  (store_list : list DataGen.store) :
  DataGen.generate_master_data rand price_of city_of fuel num_products num_stores k =
    DataGen.Ok ((product_list, store_list), k') ->
  NoDup (DataGen.ProductID <$> product_list) /\
  Forall (fun p => exists j, DataGen.ProductID p = u "PROD" ++ DataGen.str_of_nat (100 + j))
    product_list /\
  DataGen.StoreID <$> store_list =
    (fun j => u "STORE" ++ DataGen.str_of_nat (10 + j)) <$> seq 0 (Z.to_nat num_stores) /\
  NoDup (DataGen.StoreID <$> store_list).
Proof.
  unfold DataGen.generate_master_data. intros H.
  apply bind_Ok_inv in H. destruct H as [pl [k1 [Hp H]]].
  apply bind_Ok_inv in H. destruct H as [sl [k2 [Hs H]]].
  injection H as <- <- _.
  destruct (products_loop_inv fuel num_products 0 [] [] k k1 pl Hp)
    as [_ [_ [_ [Hnd Hids]]]].
  - intros x. cbn. tauto.
  - cbn. apply NoDup_nil_2.
  - cbn. intros x Hx. apply elem_of_nil in Hx. destruct Hx.
  - cbn. lia.
  - cbn. apply NoDup_nil_2.
  - apply List.Forall_nil.
  - destruct (stores_from_returns (Z.to_nat num_stores) 0 k1) as [sl' [Hrun [Hid _]]].
    rewrite Hrun in Hs. injection Hs as <- _.
    split; [exact Hnd | split; [exact Hids | split; [exact Hid|]]].
    rewrite Hid. apply NoDup_fmap_2_strong; [|apply NoDup_seq].
    intros a b _ _ Hab. apply numbered_inj in Hab. lia.
Qed.

(** The loop cannot stop while more names are asked for than exist. *)
Lemma products_loop_never (n : Z) (fuel : nat) :
  (266 < n)%Z ->
  forall (i : nat) (pl : list (DataGen.product (float:=float))) (gn : list str) (k : nat),
  (forall x, x ∈ gn <-> x ∈ DataGen.ProductName <$> pl) ->
  NoDup (DataGen.ProductName <$> pl) ->
  (forall x, x ∈ DataGen.ProductName <$> pl -> x ∈ DataGen.all_names) ->
  products_loop fuel n i pl gn k = DataGen.OutOfFuel.
Proof.
  intros Hn. induction fuel as [|fuel IH]; intros i pl gn k I1 I2 I3; [reflexivity|].
  cbn [DataGen.products_loop].
  assert (Hlen : (length pl <= 266)%nat).
  { rewrite <- (length_fmap DataGen.ProductName).
    change 266%nat with (length DataGen.all_names).
    apply submseteq_length, NoDup_submseteq; assumption. }
  destruct (Z.ltb_spec (Z.of_nat (length pl)) n) as [_ | Hge]; [|lia].
  destruct (generate_real_product_name_returns rand k) as [name [k1 Hname]].
  unfold DataGen.bind at 1. rewrite Hname.
  pose proof (generate_real_product_name_in rand k k1 name Hname) as Hall.
  destruct (bool_decide (name ∈ gn)) eqn:Eseen; [apply IH; assumption|].
  apply bool_decide_eq_false in Eseen.
  assert (Hfresh : name ∉ DataGen.ProductName <$> pl) by (rewrite <- I1; exact Eseen).
  unfold DataGen.bind, DataGen.draw. apply IH.
  - intros x. rewrite fmap_app, elem_of_app, elem_of_cons, I1. cbn.
    rewrite list_elem_of_singleton. tauto.
  - rewrite fmap_app. apply list.NoDup_app. split; [exact I2|]. split.
    + intros x Hx Hx'. cbn in Hx'. apply list_elem_of_singleton in Hx'.
      subst x. exact (Hfresh Hx).
    + cbn. apply NoDup_singleton.
  - intros x. rewrite fmap_app, elem_of_app. cbn.
    rewrite list_elem_of_singleton. intros [Hx | ->]; [exact (I3 x Hx) | exact Hall].
Qed.

(** X16.  Asked for more than 266 products, [generate_master_data] never
    returns and never raises: whatever the draws, the loop is still running
    after any number of iterations, since only 266 different names exist. *)
Theorem generate_master_data_never_returns
  (num_products num_stores : Z) (fuel k : nat) :
  (266 < num_products)%Z ->
  DataGen.generate_master_data rand price_of city_of fuel num_products num_stores k =
    DataGen.OutOfFuel.
Proof.
  intros Hn. unfold DataGen.generate_master_data, DataGen.bind.
  rewrite (products_loop_never num_products fuel Hn 0 [] [] k); [reflexivity| | |].
  - intros x. cbn. tauto.
  - cbn. apply NoDup_nil_2.
  - cbn. intros x Hx. apply elem_of_nil in Hx. destruct Hx.
Qed.

End MasterData.

Lemma generate_master_data_products_witness :
  match DataGen.generate_master_data (fun k => k * 7 + 3)%nat (fun k => k)
          (fun _ => u "Oslo") 10%nat 3%Z 2%Z 0%nat with
  | DataGen.Ok ((product_list, store_list), _) =>
      length product_list = 3%nat /\ length store_list = 2%nat /\
      NoDup (DataGen.ProductName <$> product_list)
  | _ => False
  end.
Proof.
  destruct (DataGen.generate_master_data (fun k => k * 7 + 3)%nat (fun k => k)
              (fun _ => u "Oslo") 10%nat 3%Z 2%Z 0%nat) as [[[pl sl] k']| |] eqn:E;
    [|vm_compute in E; discriminate E..].
  destruct (generate_master_data_products _ _ _ _ _ _ _ _ _ _ E)
    as [Hp [Hnd [_ [_ Hs]]]].
  split; [exact Hp | split; [exact Hs | exact Hnd]].
Defined.

Lemma generate_master_data_ids_witness :
  match DataGen.generate_master_data (fun k => k * 7 + 3)%nat (fun k => k)
          (fun _ => u "Oslo") 10%nat 3%Z 2%Z 0%nat with
  | DataGen.Ok ((product_list, store_list), _) =>
      NoDup (DataGen.ProductID <$> product_list) /\
      DataGen.StoreID <$> store_list = [u "STORE10"; u "STORE11"]
  | _ => False
  end.
Proof.
  destruct (DataGen.generate_master_data (fun k => k * 7 + 3)%nat (fun k => k)
              (fun _ => u "Oslo") 10%nat 3%Z 2%Z 0%nat) as [[[pl sl] k']| |] eqn:E;
    [|vm_compute in E; discriminate E..].
  destruct (generate_master_data_ids _ _ _ _ _ _ _ _ _ _ E) as [Hnd [_ [Hs _]]].
  split; [exact Hnd | rewrite Hs; vm_compute; reflexivity].
Defined.

Lemma generate_master_data_never_returns_witness :
  DataGen.generate_master_data (fun k => k * 7 + 3)%nat (fun k => k)
    (fun _ => u "Oslo") 1000%nat 267%Z 20%Z 0%nat = DataGen.OutOfFuel.
Proof.
  apply (generate_master_data_never_returns (fun k => k * 7 + 3)%nat (fun k => k)
           (fun _ => u "Oslo") 267%Z 20%Z 1000%nat 0%nat).
  lia.
Defined.

Section Sales.

Context {float datetime : Type}.
Variable rand : nat -> nat.
Variable uuid4_of : nat -> str.
Variable date_time_between : datetime -> datetime -> nat -> datetime.
Variable revenue : nat -> float -> float.

Local Abbreviation sales_loop := (DataGen.sales_loop rand uuid4_of date_time_between revenue).

Lemma sales_loop_returns (product_list : list (DataGen.product (float:=float)))
  (store_list : list DataGen.store) (start_date end_date : datetime) (n : nat) :
  product_list <> [] -> store_list <> [] ->
  forall (acc : list DataGen.sale) (k : nat),
  exists out,
    sales_loop n product_list store_list start_date end_date acc k =
      DataGen.Ok (acc ++ out, (k + 5 * n)%nat) /\
    length out = n /\
    Forall (sale_refers revenue product_list store_list) out.
Proof.
  intros Hp Hs. induction n as [|n IH]; intros acc k.
  - exists []. rewrite app_nil_r, Nat.mul_0_r, Nat.add_0_r. repeat split.
    apply List.Forall_nil.
  - cbn [DataGen.sales_loop].
    destruct (choice_returns rand product_list k Hp) as [p Hcp].
    destruct (choice_returns rand store_list (S k) Hs) as [s Hcs].
    unfold DataGen.bind at 1. rewrite Hcp.
    unfold DataGen.bind at 1. rewrite Hcs.
    unfold DataGen.bind, DataGen.draw, DataGen.randint.
    apply choice_Ok_inv in Hcp. destruct Hcp as [Hpin _].
    apply choice_Ok_inv in Hcs. destruct Hcs as [Hsin _].
    match goal with
    | |- context [sales_loop n _ _ _ _ (acc ++ [?r]) ?k1] =>
        destruct (IH (acc ++ [r]) k1) as [out [Hrun [Hlen Hall]]];
        exists (r :: out); rewrite Hrun
    end.
    split; [rewrite <- app_assoc; f_equal; f_equal; lia|].
    split; [cbn [length]; lia|].
    apply List.Forall_cons; [|exact Hall].
    exists p, s. cbn.
    pose proof (Nat.mod_upper_bound (rand (S (S (S k)))) 10 ltac:(lia)).
    repeat split; try assumption; try reflexivity; lia.
Qed.

(** X17.  With a product and a store to choose from, [generate_sales_data]
    returns exactly [num_records] records (none for a negative number), and
    every record refers to a product and a store of the lists it was given:
    it carries that product's identifier, name and price and that store's
    identifier, between 1 and 10 units, and the revenue of these units at
    that price. *)
Theorem generate_sales_data_refers
  (num_records : Z) (product_list : list (DataGen.product (float:=float)))
  (store_list : list DataGen.store) (start_date end_date : datetime) (k : nat) :
  product_list <> [] -> store_list <> [] ->
  exists sales,
    DataGen.generate_sales_data rand uuid4_of date_time_between revenue
      num_records product_list store_list start_date end_date k =
      DataGen.Ok (sales, (k + 5 * Z.to_nat num_records)%nat) /\
    length sales = Z.to_nat num_records /\
    Forall (sale_refers revenue product_list store_list) sales.
Proof.
  intros Hp Hs. unfold DataGen.generate_sales_data.
  destruct (sales_loop_returns product_list store_list start_date end_date
              (Z.to_nat num_records) Hp Hs [] k) as [out H].
  exists out. exact H.
Qed.

(** X18.  Asked for at least one record with no product or no store to
    choose from, [generate_sales_data] raises [IndexError]. *)
Theorem generate_sales_data_empty
  (num_records : Z) (product_list : list (DataGen.product (float:=float)))
  (store_list : list DataGen.store) (start_date end_date : datetime) (k : nat) :
  (0 < num_records)%Z -> product_list = [] \/ store_list = [] ->
  DataGen.generate_sales_data rand uuid4_of date_time_between revenue
    num_records product_list store_list start_date end_date k =
  DataGen.Err DataGen.IndexError.
Proof.
  intros Hn Hempty. unfold DataGen.generate_sales_data.
  destruct (Z.to_nat num_records) as [|n] eqn:En; [lia|].
  cbn [DataGen.sales_loop]. unfold DataGen.bind at 1.
  destruct product_list as [|p pl].
  - reflexivity.
  - destruct Hempty as [Hp | ->]; [discriminate Hp|].
    destruct (choice_returns rand (p :: pl) k) as [x Hx]; [discriminate|].
    rewrite Hx. reflexivity.
Qed.

End Sales.

Lemma NoDup_fmap_inj_on {A B} (f : A -> B) (l : list A) (x y : A) :
  NoDup (f <$> l) -> x ∈ l -> y ∈ l -> f x = f y -> x = y.
Proof.
  induction l as [|a l IH]; intros Hnd Hx Hy E.
  - apply elem_of_nil in Hx. destruct Hx.
  - cbn in Hnd. apply list.NoDup_cons in Hnd. destruct Hnd as [Hnotin Hnd].
    apply elem_of_cons in Hx, Hy.
    destruct Hx as [-> | Hx], Hy as [-> | Hy]; auto.
    + exfalso. apply Hnotin. rewrite E. apply list_elem_of_fmap_2. exact Hy.
    + exfalso. apply Hnotin. rewrite <- E. apply list_elem_of_fmap_2. exact Hx.
Qed.

Lemma length_grid {float} (product_list : list (DataGen.product (float:=float)))
  (store_list : list DataGen.store) :
  length (grid product_list store_list) =
  (length product_list * length store_list)%nat.
Proof.
  unfold grid. induction product_list as [|p pl IHp]; [reflexivity|].
  rewrite bind_cons, List.length_app, length_fmap, IHp. cbn [length]. lia.
Qed.

Section Inventory.

Context {float datetime day : Type}.
Variable rand : nat -> nat.
Variable chance : nat -> bool.
Variable date_between : datetime -> datetime -> nat -> day.

Lemma inventory_stores_returns (p : DataGen.product (float:=float))
  (start_date end_date : datetime) (stores : list DataGen.store) :
  forall (acc : list DataGen.inventory) (k : nat),
  exists out k',
    DataGen.inventory_stores rand chance date_between p stores start_date end_date acc k =
      DataGen.Ok (acc ++ out, k') /\
    inventory_keys out `sublist_of`
      ((fun s => (DataGen.ProductID p, DataGen.StoreID s)) <$> stores) /\
    Forall (fun r => (DataGen.StockLevel r <= 500)%nat) out.
Proof.
  induction stores as [|s stores IH]; intros acc k.
  - exists [], k. rewrite app_nil_r. repeat split; [constructor | apply List.Forall_nil].
  - cbn [DataGen.inventory_stores]. unfold DataGen.bind at 1, DataGen.draw at 1.
    destruct (chance k).
    + unfold DataGen.bind, DataGen.draw, DataGen.randint.
      match goal with
      | |- context [DataGen.inventory_stores _ _ _ _ _ _ _ (acc ++ [?r]) ?k1] =>
          destruct (IH (acc ++ [r]) k1) as [out [k' [Hrun [Hsub Hall]]]];
          exists (r :: out), k'; rewrite Hrun
      end.
      split; [rewrite <- app_assoc; reflexivity|].
      split; [apply sublist_skip; exact Hsub|].
      apply List.Forall_cons; [|exact Hall]. cbn.
      pose proof (Nat.mod_upper_bound (rand (S k)) 501 ltac:(lia)). lia.
    + destruct (IH acc (S k)) as [out [k' [Hrun [Hsub Hall]]]].
      exists out, k'. rewrite Hrun.
      split; [reflexivity|]. split; [apply sublist_cons; exact Hsub | exact Hall].
Qed.

Lemma inventory_products_returns (store_list : list DataGen.store)
  (start_date end_date : datetime) (products : list (DataGen.product (float:=float))) :
  forall (acc : list DataGen.inventory) (k : nat),
  exists out k',
    DataGen.inventory_products rand chance date_between products store_list
      start_date end_date acc k = DataGen.Ok (acc ++ out, k') /\
    inventory_keys out `sublist_of` grid products store_list /\
    Forall (fun r => (DataGen.StockLevel r <= 500)%nat) out.
Proof.
  induction products as [|p products IH]; intros acc k.
  - exists [], k. rewrite app_nil_r. repeat split; [constructor | apply List.Forall_nil].
  - cbn [DataGen.inventory_products]. unfold DataGen.bind.
    destruct (inventory_stores_returns p start_date end_date store_list acc k)
      as [out1 [k1 [Hrun1 [Hsub1 Hall1]]]].
    rewrite Hrun1.
    destruct (IH (acc ++ out1) k1) as [out2 [k2 [Hrun2 [Hsub2 Hall2]]]].
    exists (out1 ++ out2), k2. rewrite Hrun2.
    split; [rewrite app_assoc; reflexivity|].
    split; [|apply List.Forall_app; split; assumption].
    unfold inventory_keys, grid. rewrite fmap_app, bind_cons.
    apply sublist_app; assumption.
Qed.

(** X19.  [generate_inventory_data] always returns.  The (product, store)
    pairs of its records, in order, are picked out of the pairs of the two
    lists taken products first and stores second, each pair at most once in
    that order: so there are at most as many records as products times
    stores, no pair occurs twice when the identifiers are pairwise
    different, and every stock level is at most 500. *)
Theorem generate_inventory_data_keys
  (product_list : list (DataGen.product (float:=float)))
  (store_list : list DataGen.store) (start_date end_date : datetime) (k : nat) :
  exists inv k',
    DataGen.generate_inventory_data rand chance date_between product_list store_list
      start_date end_date k = DataGen.Ok (inv, k') /\
    inventory_keys inv `sublist_of` grid product_list store_list /\
    (length inv <= length product_list * length store_list)%nat /\
    Forall (fun r => (DataGen.StockLevel r <= 500)%nat) inv /\
    (NoDup (DataGen.ProductID <$> product_list) ->
     NoDup (DataGen.StoreID <$> store_list) ->
     NoDup (inventory_keys inv)).
Proof.
  unfold DataGen.generate_inventory_data.
  destruct (inventory_products_returns store_list start_date end_date product_list [] k)
    as [inv [k' [Hrun [Hsub Hall]]]].
  exists inv, k'. split; [exact Hrun|]. split; [exact Hsub|].
  split; [|split; [exact Hall|]].
  - apply sublist_length in Hsub. unfold inventory_keys in Hsub.
    rewrite length_fmap in Hsub.
    rewrite length_grid in Hsub. exact Hsub.
  - intros Hp Hs. eapply sublist_NoDup; [|exact Hsub].
    unfold grid. apply NoDup_bind.
    + intros p1 p2 [a b] H1 H2 Hy1 Hy2.
      apply list_elem_of_fmap in Hy1, Hy2.
      destruct Hy1 as [s1 [E1 _]], Hy2 as [s2 [E2 _]].
      injection E1 as -> _. injection E2 as E2 _.
      exact (NoDup_fmap_inj_on DataGen.ProductID product_list p1 p2 Hp H1 H2 E2).
    + intros p _. apply NoDup_fmap_2_strong.
      * intros s1 s2 Hs1 Hs2 E. injection E as E.
        exact (NoDup_fmap_inj_on DataGen.StoreID store_list s1 s2 Hs Hs1 Hs2 E).
      * apply (NoDup_fmap_1 DataGen.StoreID). exact Hs.
    + apply (NoDup_fmap_1 DataGen.ProductID). exact Hp.
Qed.

End Inventory.

Lemma generate_sales_data_refers_witness :
  let product_list := [DataGen.mkProduct (float:=nat) (u "PROD100") (u "onn.-Laptop") 7%nat] in
  let store_list := [DataGen.mkStore (u "STORE10") (u "Oslo")] in
  exists sales,
    DataGen.generate_sales_data (datetime:=nat) (fun k => k) (fun _ => u "id")
      (fun _ _ k => k) Nat.mul 2%Z product_list store_list 0%nat 9%nat 0%nat =
      DataGen.Ok (sales, 10%nat) /\
    length sales = 2%nat /\
    Forall (sale_refers Nat.mul product_list store_list) sales.
Proof.
  intros product_list store_list.
  apply (generate_sales_data_refers (fun k => k) (fun _ => u "id") (fun _ _ k => k)
           Nat.mul 2%Z product_list store_list 0%nat 9%nat 0%nat); discriminate.
Defined.

Lemma generate_sales_data_empty_witness :
  DataGen.generate_sales_data (float:=nat) (datetime:=nat) (fun k => k) (fun _ => u "id")
    (fun _ _ k => k) Nat.mul 1%Z [] [DataGen.mkStore (u "STORE10") (u "Oslo")]
    0%nat 9%nat 0%nat = DataGen.Err DataGen.IndexError.
Proof.
  apply (generate_sales_data_empty (fun k => k) (fun _ => u "id") (fun _ _ k => k)
           Nat.mul 1%Z [] [DataGen.mkStore (u "STORE10") (u "Oslo")] 0%nat 9%nat 0%nat).
  - lia.
  - left. reflexivity.
Defined.

(** * The reader character by character, and reading back a written table *)

Lemma read_rows_nil (r : Csv.Reader) : Csv.read_rows r [] = Some (at_eof r).
Proof.
  unfold at_eof. cbn [Csv.read_rows].
  destruct (Csv.field r), (Csv.state r); reflexivity.
Qed.

Lemma feed_chars_app (r : Csv.Reader) (a b : str) :
  feed_chars r (a ++ b) = feed_chars r a ≫= fun r' => feed_chars r' b.
Proof.
  revert r. induction a as [|c a IH]; intros r; [reflexivity|].
  cbn [app feed_chars].
  destruct (Csv.parse_process_char r (Some c)) as [r'|]; [exact (IH r') | reflexivity].
Qed.

Lemma feed_split (r : Csv.Reader) (l : str) :
  Csv.feed r l = feed_chars r l ≫= fun r' => Csv.parse_process_char r' None.
Proof.
  revert r. induction l as [|c l IH]; intros r; [reflexivity|].
  cbn [Csv.feed feed_chars].
  destruct (Csv.parse_process_char r (Some c)) as [r'|]; [exact (IH r') | reflexivity].
Qed.

(** A line that cannot be fed makes the whole reading fail. *)
Lemma read_rows_fail (s : str) :
  forall (r : Csv.Reader) (cur : str),
  feed_chars r (rev cur) = None ->
  Csv.read_rows r (Csv.readlines_go cur s) = None.
Proof.
  induction s as [|c s IH]; intros r cur Hfail.
  - cbn [Csv.readlines_go]. destruct cur as [|a cur]; [discriminate Hfail|].
    cbn [Csv.read_rows]. rewrite feed_split, Hfail. reflexivity.
  - cbn [Csv.readlines_go]. destruct (c =? 10).
    + cbn [Csv.read_rows]. cbn [rev]. rewrite feed_split, feed_chars_app, Hfail.
      reflexivity.
    + apply IH. cbn [rev]. rewrite feed_chars_app, Hfail. reflexivity.
Qed.

(** Reading line by line is reading character by character. *)
Lemma read_rows_chars (s : str) :
  forall (r r1 : Csv.Reader) (cur : str),
  feed_chars r (rev cur) = Some r1 ->
  Csv.read_rows r (Csv.readlines_go cur s) =
  read_chars r1 (match cur with [] => false | _ => true end) s.
Proof.
  induction s as [|c s IH]; intros r r1 cur Hfed.
  - cbn [Csv.readlines_go read_chars]. destruct cur as [|a cur].
    + cbn in Hfed. injection Hfed as <-. apply read_rows_nil.
    + cbn [Csv.read_rows].
      rewrite feed_split, Hfed. cbn [mbind option_bind].
      destruct (Csv.parse_process_char r1 None) as [r'|]; [|reflexivity].
      cbn [mbind option_bind]. unfold at_eof.
      destruct (Csv.state r') eqn:Es; destruct (Csv.field r'); reflexivity.
  - cbn [Csv.readlines_go read_chars].
    destruct (Csv.parse_process_char r1 (Some c)) as [r2|] eqn:Ec.
    + cbn [mbind option_bind]. destruct (N.eqb_spec c 10) as [-> | Hne].
      * cbn [Csv.read_rows rev]. rewrite feed_split, feed_chars_app, Hfed.
        cbn [mbind option_bind feed_chars]. rewrite Ec. cbn [mbind option_bind].
        destruct (Csv.parse_process_char r2 None) as [r3|]; [|reflexivity].
        cbn [mbind option_bind].
        destruct (Csv.state r3) eqn:Es;
          try (rewrite (IH r3 r3 [] eq_refl); reflexivity).
        rewrite (IH Csv.parse_reset Csv.parse_reset [] eq_refl). reflexivity.
      * rewrite (IH r r2 (c :: cur)); [reflexivity|].
        cbn [rev]. rewrite feed_chars_app, Hfed. cbn [mbind option_bind feed_chars].
        rewrite Ec. reflexivity.
    + cbn [mbind option_bind]. destruct (N.eqb_spec c 10) as [-> | Hne].
      * cbn [Csv.read_rows rev]. rewrite feed_split, feed_chars_app, Hfed.
        cbn [mbind option_bind feed_chars]. rewrite Ec. reflexivity.
      * apply read_rows_fail. cbn [rev]. rewrite feed_chars_app, Hfed.
        cbn [mbind option_bind feed_chars]. rewrite Ec. reflexivity.
Qed.

Lemma reader_list_chars (s : str) :
  Csv.reader_list s = read_chars Csv.parse_reset false s.
Proof.
  unfold Csv.reader_list, Csv.StringIO.
  exact (read_rows_chars s Csv.parse_reset Csv.parse_reset [] eq_refl).
Qed.

Lemma special_inv (c : N) :
  CsvWriter.special c = false ->
  (c =? Csv.delimiter) = false /\ (c =? Csv.quotechar) = false /\
  Csv.is_crnl c = false /\ (c =? 10) = false.
Proof.
  unfold CsvWriter.special, Csv.is_crnl. intros H.
  apply orb_false_iff in H. destruct H as [H H10].
  apply orb_false_iff in H. destruct H as [H H13].
  apply orb_false_iff in H. destruct H as [Hd Hq].
  rewrite H10, H13. auto.
Qed.

Lemma add_char_fits (st : Csv.ParserState) (fs : list str) (fld : str) (c : N) :
  N.of_nat (length fld) < Csv.field_limit ->
  Csv.parse_add_char (Csv.mkReader st fs fld) c = Some (Csv.mkReader st fs (fld ++ [c])).
Proof.
  intros H. unfold Csv.parse_add_char. cbn [Csv.field Csv.state Csv.fields].
  destruct (N.leb_spec Csv.field_limit (N.of_nat (length fld))); [lia | reflexivity].
Qed.

(** A field written without quotes is read as it is. *)
Lemma read_unquoted (f rest : str) :
  existsb CsvWriter.special f = false ->
  forall (st : Csv.ParserState) (fs : list str) (fld : str) (p : bool),
  st = Csv.START_FIELD \/ st = Csv.IN_FIELD ->
  N.of_nat (length fld + length f) <= Csv.field_limit ->
  read_chars (Csv.mkReader st fs fld) p (f ++ rest) =
  read_chars (Csv.mkReader (match f with [] => st | _ => Csv.IN_FIELD end) fs (fld ++ f))
    (match f with [] => p | _ => true end) rest.
Proof.
  induction f as [|c f IH]; intros Hsp st fs fld p Hst Hlen.
  - rewrite app_nil_r. reflexivity.
  - cbn [existsb] in Hsp. apply orb_false_iff in Hsp. destruct Hsp as [Hc Hsp].
    destruct (special_inv c Hc) as [Hd [Hq [Hcr H10]]].
    assert (Hadd : forall st', Csv.parse_add_char (Csv.mkReader st' fs fld) c =
                               Some (Csv.mkReader st' fs (fld ++ [c]))).
    { intros st'. apply add_char_fits. cbn [length] in Hlen. lia. }
    assert (E : Csv.parse_process_char (Csv.mkReader st fs fld) (Some c) =
                Some (Csv.mkReader Csv.IN_FIELD fs (fld ++ [c]))).
    { destruct Hst as [-> | ->];
        unfold Csv.parse_process_char, Csv.start_field; cbn [Csv.state];
        rewrite Hcr, ?Hq, Hd, Hadd; reflexivity. }
    cbn [app read_chars]. rewrite E. cbn [mbind option_bind]. rewrite H10.
    rewrite (IH Hsp Csv.IN_FIELD fs (fld ++ [c]) true); [|right; reflexivity|].
    + rewrite <- app_assoc. destruct f; reflexivity.
    + rewrite List.length_app. cbn [length] in *. lia.
Qed.

(** The inside of a quoted field, up to the closing quote. *)
Lemma read_quoted (f rest : str) :
  forall (fs : list str) (fld : str) (p : bool),
  N.of_nat (length fld + length f) <= Csv.field_limit ->
  read_chars (Csv.mkReader Csv.IN_QUOTED_FIELD fs fld) p
    (CsvWriter.escape f ++ Csv.quotechar :: rest) =
  read_chars (Csv.mkReader Csv.QUOTE_IN_QUOTED_FIELD fs (fld ++ f)) true rest.
Proof.
  induction f as [|c f IH]; intros fs fld p Hlen.
  - rewrite app_nil_r. reflexivity.
  - assert (Hadd : forall st', Csv.parse_add_char (Csv.mkReader st' fs fld) c =
                               Some (Csv.mkReader st' fs (fld ++ [c]))).
    { intros st'. apply add_char_fits. cbn [length] in Hlen. lia. }
    assert (Hlen' : N.of_nat (length (fld ++ [c]) + length f) <= Csv.field_limit).
    { rewrite List.length_app. cbn [length] in *. lia. }
    cbn [CsvWriter.escape]. destruct (N.eqb_spec c Csv.quotechar) as [-> | Hne].
    + change ((Csv.quotechar :: Csv.quotechar :: CsvWriter.escape f) ++
              Csv.quotechar :: rest)
        with (Csv.quotechar :: Csv.quotechar ::
              (CsvWriter.escape f ++ Csv.quotechar :: rest)).
      cbn [read_chars].
      change (Csv.parse_process_char (Csv.mkReader Csv.IN_QUOTED_FIELD fs fld)
                (Some Csv.quotechar))
        with (Some (Csv.mkReader Csv.QUOTE_IN_QUOTED_FIELD fs fld)).
      cbn [mbind option_bind]. change (Csv.quotechar =? 10) with false. cbn iota.
      assert (E : Csv.parse_process_char
                    (Csv.mkReader Csv.QUOTE_IN_QUOTED_FIELD fs fld) (Some Csv.quotechar) =
                  Some (Csv.mkReader Csv.IN_QUOTED_FIELD fs (fld ++ [Csv.quotechar]))).
      { unfold Csv.parse_process_char. cbn [Csv.state].
        change (Csv.quotechar =? Csv.quotechar) with true. cbn iota.
        rewrite Hadd. reflexivity. }
      rewrite E. cbn [mbind option_bind].
      rewrite (IH fs (fld ++ [Csv.quotechar]) true Hlen'), <- app_assoc. reflexivity.
    + assert (Hq : (c =? Csv.quotechar) = false) by (apply N.eqb_neq; exact Hne).
      assert (E : Csv.parse_process_char
                    (Csv.mkReader Csv.IN_QUOTED_FIELD fs fld) (Some c) =
                  Some (Csv.mkReader Csv.IN_QUOTED_FIELD fs (fld ++ [c]))).
      { unfold Csv.parse_process_char. cbn [Csv.state]. rewrite Hq, Hadd. reflexivity. }
      cbn [app read_chars]. rewrite E. cbn [mbind option_bind].
      destruct (c =? 10).
      * change (Csv.parse_process_char
                  (Csv.mkReader Csv.IN_QUOTED_FIELD fs (fld ++ [c])) None)
          with (Some (Csv.mkReader Csv.IN_QUOTED_FIELD fs (fld ++ [c]))).
        cbn [mbind option_bind Csv.state].
        rewrite (IH fs (fld ++ [c]) false Hlen'), <- app_assoc. reflexivity.
      * rewrite (IH fs (fld ++ [c]) true Hlen'), <- app_assoc. reflexivity.
Qed.

(** A written field, read from the start of a field: the reader holds the
    field, in a state from which a delimiter or the end of the line closes
    it. *)
Lemma read_field (f rest : str) (fs : list str) (p : bool) :
  N.of_nat (length f) <= Csv.field_limit ->
  exists st p',
    (st = Csv.START_FIELD \/ st = Csv.IN_FIELD \/ st = Csv.QUOTE_IN_QUOTED_FIELD) /\
    read_chars (Csv.mkReader Csv.START_FIELD fs []) p (CsvWriter.write_field f ++ rest) =
    read_chars (Csv.mkReader st fs f) p' rest.
Proof.
  intros Hlen. unfold CsvWriter.write_field.
  destruct (existsb CsvWriter.special f) eqn:Esp.
  - exists Csv.QUOTE_IN_QUOTED_FIELD, true. split; [auto|].
    change ((Csv.quotechar :: CsvWriter.escape f ++ [Csv.quotechar]) ++ rest)
      with (Csv.quotechar :: ((CsvWriter.escape f ++ [Csv.quotechar]) ++ rest)).
    rewrite <- app_assoc. cbn [read_chars].
    change (Csv.parse_process_char (Csv.mkReader Csv.START_FIELD fs []) (Some Csv.quotechar))
      with (Some (Csv.mkReader Csv.IN_QUOTED_FIELD fs [])).
    cbn [mbind option_bind]. change (Csv.quotechar =? 10) with false. cbn iota.
    exact (read_quoted f rest fs [] true Hlen).
  - eexists _, _. split; [|apply (read_unquoted f rest Esp Csv.START_FIELD fs [] p)].
    + destruct f; auto.
    + left. reflexivity.
    + exact Hlen.
Qed.

Lemma after_field_delimiter (st : Csv.ParserState) (fs : list str) (f rest : str) (p : bool) :
  st = Csv.START_FIELD \/ st = Csv.IN_FIELD \/ st = Csv.QUOTE_IN_QUOTED_FIELD ->
  read_chars (Csv.mkReader st fs f) p (Csv.delimiter :: rest) =
  read_chars (Csv.mkReader Csv.START_FIELD (fs ++ [f]) []) true rest.
Proof. intros [-> | [-> | ->]]; reflexivity. Qed.

Lemma after_field_end (st : Csv.ParserState) (fs : list str) (f rest : str) (p : bool) :
  st = Csv.START_FIELD \/ st = Csv.IN_FIELD \/ st = Csv.QUOTE_IN_QUOTED_FIELD ->
  read_chars (Csv.mkReader st fs f) p (13 :: 10 :: rest) =
  read_chars Csv.parse_reset false rest ≫= fun rows => Some ((fs ++ [f]) :: rows).
Proof. intros [-> | [-> | ->]]; reflexivity. Qed.

(** The fields of a written row, read from the start of a field. *)
Lemma read_fields (row : list str) :
  row <> [] ->
  Forall (fun f => N.of_nat (length f) <= Csv.field_limit) row ->
  forall (fs : list str) (p : bool) (rest : str),
  read_chars (Csv.mkReader Csv.START_FIELD fs []) p
    (CsvWriter.join_fields row ++ 13 :: 10 :: rest) =
  read_chars Csv.parse_reset false rest ≫= fun rows => Some ((fs ++ row) :: rows).
Proof.
  induction row as [|f row IH]; intros Hne Hfit fs p rest; [congruence|].
  apply List.Forall_cons_iff in Hfit. destruct Hfit as [Hf Hfit].
  destruct row as [|f2 row].
  - cbn [CsvWriter.join_fields].
    destruct (read_field f (13 :: 10 :: rest) fs p Hf) as [st [p' [Hst E]]].
    rewrite E. apply after_field_end. exact Hst.
  - change (CsvWriter.join_fields (f :: f2 :: row))
      with (CsvWriter.write_field f ++ Csv.delimiter :: CsvWriter.join_fields (f2 :: row)).
    rewrite <- app_assoc.
    destruct (read_field f
                ((Csv.delimiter :: CsvWriter.join_fields (f2 :: row)) ++ 13 :: 10 :: rest)
                fs p Hf) as [st [p' [Hst E]]].
    rewrite E.
    change ((Csv.delimiter :: CsvWriter.join_fields (f2 :: row)) ++ 13 :: 10 :: rest)
      with (Csv.delimiter :: (CsvWriter.join_fields (f2 :: row) ++ 13 :: 10 :: rest)).
    rewrite (after_field_delimiter st fs f _ p' Hst).
    rewrite (IH ltac:(discriminate) Hfit (fs ++ [f]) true rest), <- app_assoc.
    reflexivity.
Qed.

(** At the start of a record a character that is no line end is read as at
    the start of a field. *)
Lemma read_record_start (c : N) (s : str) (p : bool) :
  Csv.is_crnl c = false ->
  read_chars Csv.parse_reset p (c :: s) =
  read_chars (Csv.mkReader Csv.START_FIELD [] []) p (c :: s).
Proof.
  intros H. cbn [read_chars].
  assert (E : Csv.parse_process_char Csv.parse_reset (Some c) =
              Csv.parse_process_char (Csv.mkReader Csv.START_FIELD [] []) (Some c)).
  { unfold Csv.parse_process_char. cbn [Csv.state Csv.parse_reset]. rewrite H.
    unfold Csv.start_field. rewrite H.
    destruct (c =? Csv.quotechar); [reflexivity|].
    destruct (c =? Csv.delimiter); [reflexivity|].
    reflexivity. }
  rewrite E. reflexivity.
Qed.

(** A written row, read at the start of a record, is returned as the next
    row. *)
Lemma read_row (row : list str) (rest : str) :
  Forall (fun f => N.of_nat (length f) <= Csv.field_limit) row ->
  read_chars Csv.parse_reset false (CsvWriter.writerow row ++ rest) =
  read_chars Csv.parse_reset false rest ≫= fun rows => Some (row :: rows).
Proof.
  intros Hfit.
  destruct row as [|f row]; [reflexivity|].
  destruct f as [|c f].
  - destruct row as [|f2 row]; [reflexivity|].
    change (CsvWriter.writerow ([] :: f2 :: row) ++ rest)
      with (Csv.delimiter :: ((CsvWriter.join_fields (f2 :: row) ++ [13; 10]) ++ rest)).
    rewrite <- app_assoc.
    rewrite read_record_start by reflexivity.
    rewrite (after_field_delimiter Csv.START_FIELD [] [] _ false) by auto.
    apply List.Forall_cons_iff in Hfit. destruct Hfit as [_ Hfit].
    exact (read_fields (f2 :: row) ltac:(discriminate) Hfit [[]] true rest).
  - match goal with
    | |- context [CsvWriter.writerow ?r] =>
        assert (E : CsvWriter.writerow r = CsvWriter.join_fields r ++ [13; 10])
          by (destruct row; reflexivity);
        rewrite E
    end.
    rewrite <- app_assoc.
    assert (Hstart : exists c' s', CsvWriter.join_fields (((c :: f) : str) :: row) ++
                                   [13; 10] ++ rest = c' :: s' /\
                                   Csv.is_crnl c' = false).
    { assert (Hw : exists c' w, CsvWriter.write_field (c :: f) = c' :: w /\
                               Csv.is_crnl c' = false).
      { unfold CsvWriter.write_field.
        destruct (existsb CsvWriter.special (c :: f)) eqn:Esp.
        - eexists _, _. split; reflexivity.
        - cbn [existsb] in Esp. apply orb_false_iff in Esp. destruct Esp as [Hc _].
          destruct (special_inv c Hc) as [_ [_ [Hcr _]]]. eauto. }
      destruct Hw as [c' [w [Hw Hcr]]].
      destruct row as [|f2 row]; cbn [CsvWriter.join_fields]; rewrite Hw;
        eexists _, _; (split; [reflexivity | exact Hcr]). }
    destruct Hstart as [c' [s' [Hs Hcr]]]. rewrite Hs.
    rewrite (read_record_start c' s' false Hcr), <- Hs.
    exact (read_fields (((c :: f) : str) :: row) ltac:(discriminate) Hfit [] false rest).
Qed.

Lemma read_written_rows (rows : list (list str)) :
  Forall (Forall (fun f => N.of_nat (length f) <= Csv.field_limit)) rows ->
  read_chars Csv.parse_reset false (CsvWriter.writerows rows) = Some rows.
Proof.
  induction rows as [|row rows IH]; intros Hfit; [reflexivity|].
  apply List.Forall_cons_iff in Hfit. destruct Hfit as [Hrow Hfit].
  cbn [CsvWriter.writerows]. rewrite (read_row row _ Hrow), (IH Hfit). reflexivity.
Qed.


Section ReadBack.

Context {float datetime : Type}.
Variable os_error : str -> bool.

Local Abbreviation save_table :=
  (SqlAgent.save_table (float:=float) (datetime:=datetime) os_error).

(** X20.  What [save_table] writes reads back: for a header and rows whose
    cells encode to UTF-8 and are within the reader's field limit, and a
    file the operating system takes, [save_table] returns, and the csv
    reader returns, from the text the file then holds, the header and the
    rows, cell for cell, whatever commas, quotes and line ends the cells
    hold. *)
Theorem save_table_reads_back (header : list str) (rows : list (list str)) (path : str) :
  Forall (Forall (fun f => N.of_nat (length f) <= Csv.field_limit)) (header :: rows) ->
  encodable_table header rows -> os_error path = false ->
  exists text,
    save_table header rows path = ([WriteFile path text], Return tt) /\
    Csv.reader_list text = Some (header :: rows).
Proof.
  intros Hfit Henc Hos. exists (CsvWriter.writerows (header :: rows)). split.
  - apply save_table_returns. auto.
  - rewrite reader_list_chars. exact (read_written_rows (header :: rows) Hfit).
Qed.

(** X22.  A cell that does not encode to UTF-8 stops the write at its row:
    [UnicodeEncodeError] leaves [save_table], and the file holds the rows
    before that row and nothing of it or of the rows after it; what the file
    holds still reads back as those rows. *)
Theorem save_table_stops_at_row
  (header : list str) (rows : list (list str)) (path : str)
  (before : list (list str)) (bad : list str) (after : list (list str)) :
  header :: rows = before ++ bad :: after ->
  Forall (Forall (fun f => encodable f = true)) before ->
  ~ Forall (fun f => encodable f = true) bad ->
  Forall (Forall (fun f => N.of_nat (length f) <= Csv.field_limit)) before ->
  os_error path = false ->
  save_table header rows path =
    ([WriteFile path (CsvWriter.writerows before)], Raise UnicodeEncodeError) /\
  Csv.reader_list (CsvWriter.writerows before) = Some before.
Proof.
  intros Hrows Hbefore Hbad Hfit Hos. split.
  - unfold SqlAgent.save_table.
    rewrite Hos, Hrows, (write_rows_stop before bad after Hbefore Hbad). reflexivity.
  - rewrite reader_list_chars. exact (read_written_rows before Hfit).
Qed.

End ReadBack.

Lemma save_table_reads_back_witness :
  let header := [u "City, state"; u "Note"] in
  let rows := [[u "Oslo"; [34] ++ u "cold" ++ [34; 10] ++ u "dry"]; [[]; u "x"]] in
  exists text,
    SqlAgent.save_table (float:=Q) (datetime:=date) os_accepts header rows
      (u "./outputs/result.csv") =
      ([WriteFile (u "./outputs/result.csv") text], Return tt) /\
    Csv.reader_list text = Some (header :: rows).
Proof.
  intros header rows.
  apply (save_table_reads_back (float:=Q) (datetime:=date) os_accepts header rows
           (u "./outputs/result.csv")).
  - repeat (apply List.Forall_cons || apply List.Forall_nil); vm_compute; discriminate.
  - repeat (apply List.Forall_cons || apply List.Forall_nil); reflexivity.
  - reflexivity.
Defined.

(** A lone surrogate in the second data row: the file keeps the header and
    the first data row. *)
Lemma save_table_stops_at_row_witness :
  let header := [u "a"; u "b"] in
  let rows := [[u "1"; u "2"]; [u "3"; [55552; 120]]; [u "5"; u "6"]] in
  SqlAgent.save_table (float:=Q) (datetime:=date) os_accepts header rows
    (u "./outputs/result.csv") =
    ([WriteFile (u "./outputs/result.csv") (u "a,b" ++ [13; 10] ++ u "1,2" ++ [13; 10])],
     Raise UnicodeEncodeError) /\
  Csv.reader_list (u "a,b" ++ [13; 10] ++ u "1,2" ++ [13; 10]) =
    Some [[u "a"; u "b"]; [u "1"; u "2"]].
Proof.
  intros header rows.
  apply (save_table_stops_at_row (float:=Q) (datetime:=date) os_accepts header rows
           (u "./outputs/result.csv")
           [[u "a"; u "b"]; [u "1"; u "2"]] [u "3"; [55552; 120]] [[u "5"; u "6"]]).
  - reflexivity.
  - repeat (apply List.Forall_cons || apply List.Forall_nil); reflexivity.
  - intros H. apply List.Forall_cons_iff in H. destruct H as [_ H].
    apply List.Forall_cons_iff in H. destruct H as [H _]. vm_compute in H. discriminate H.
  - repeat (apply List.Forall_cons || apply List.Forall_nil); vm_compute; discriminate.
  - reflexivity.
Defined.


(** * The cells the reader returns are within its limit *)

Lemma fits_save (r : Csv.Reader) : reader_fits r -> reader_fits (Csv.parse_save_field r).
Proof.
  intros [Hfs Hf]. split; cbn [Csv.parse_save_field Csv.fields Csv.field].
  - apply List.Forall_app. split; [exact Hfs|].
    apply List.Forall_cons; [exact Hf | apply List.Forall_nil].
  - unfold fits, Csv.field_limit. cbn [length]. lia.
Qed.

Lemma fits_set_state (s : Csv.ParserState) (r : Csv.Reader) :
  reader_fits r -> reader_fits (Csv.set_state s r).
Proof. intros H. exact H. Qed.

Lemma fits_add (r r' : Csv.Reader) (c : N) :
  reader_fits r -> Csv.parse_add_char r c = Some r' -> reader_fits r'.
Proof.
  intros [Hfs Hf]. unfold Csv.parse_add_char.
  destruct (N.leb_spec Csv.field_limit (N.of_nat (length (Csv.field r)))) as [|Hlt];
    [discriminate|].
  intros H. injection H as <-. split; cbn [Csv.fields Csv.field]; [exact Hfs|].
  unfold fits. rewrite List.length_app. cbn [length]. lia.
Qed.

Lemma fits_add_state (s : Csv.ParserState) (r r' : Csv.Reader) (c : N) :
  reader_fits r -> Csv.set_state s <$> Csv.parse_add_char r c = Some r' -> reader_fits r'.
Proof.
  intros Hr H. destruct (Csv.parse_add_char r c) as [r1|] eqn:E; [|discriminate H].
  injection H as <-. apply fits_set_state. exact (fits_add r r1 c Hr E).
Qed.

Lemma fits_process (r r' : Csv.Reader) (c : option N) :
  reader_fits r -> Csv.parse_process_char r c = Some r' -> reader_fits r'.
Proof.
  intros Hr. pose proof (fits_save r Hr) as Hs.
  unfold Csv.parse_process_char, Csv.start_field.
  destruct (Csv.state r), c as [ch|];
    repeat match goal with
           | |- context [if ?b then _ else _] => destruct b
           end;
    intros H;
    first [ discriminate H
          | injection H as <-; first [exact Hr | exact Hs]
          | exact (fits_add_state _ _ _ _ Hr H)
          | exact (fits_add _ _ _ Hr H) ].
Qed.

Lemma fits_feed (l : str) :
  forall r r', reader_fits r -> Csv.feed r l = Some r' -> reader_fits r'.
Proof.
  induction l as [|c l IH]; intros r r' Hr H; cbn [Csv.feed] in H.
  - exact (fits_process r r' None Hr H).
  - destruct (Csv.parse_process_char r (Some c)) as [r1|] eqn:E; [|discriminate H].
    exact (IH r1 r' (fits_process r r1 (Some c) Hr E) H).
Qed.

Lemma fits_read_rows (lines : list str) :
  forall r rows,
  reader_fits r -> Csv.read_rows r lines = Some rows -> Forall (Forall fits) rows.
Proof.
  assert (Hreset : reader_fits Csv.parse_reset).
  { split; [apply List.Forall_nil | unfold fits, Csv.field_limit; cbn; lia]. }
  induction lines as [|line lines IH]; intros r rows Hr H.
  - rewrite read_rows_nil in H. injection H as <-. unfold at_eof.
    destruct (fits_save r Hr) as [Hs _].
    destruct (Csv.field r), (Csv.state r);
      first [apply List.Forall_nil
            | apply List.Forall_cons; [exact Hs | apply List.Forall_nil]].
  - cbn [Csv.read_rows] in H.
    destruct (Csv.feed r line) as [r1|] eqn:E; [|discriminate H].
    pose proof (fits_feed line r r1 Hr E) as Hr1. cbn [mbind option_bind] in H.
    destruct (Csv.state r1); try exact (IH r1 rows Hr1 H).
    destruct (Csv.read_rows Csv.parse_reset lines) as [rows'|] eqn:E'; [|discriminate H].
    injection H as <-. apply List.Forall_cons; [exact (proj1 Hr1)|].
    exact (IH Csv.parse_reset rows' Hreset E').
Qed.


(** * The cells the reader returns are made of characters it was given *)

Lemma holds_save (P : N -> Prop) (r : Csv.Reader) :
  reader_holds P r -> reader_holds P (Csv.parse_save_field r).
Proof.
  intros [Hfs Hf]. split; cbn [Csv.parse_save_field Csv.fields Csv.field].
  - apply List.Forall_app. split; [exact Hfs|].
    apply List.Forall_cons; [exact Hf | apply List.Forall_nil].
  - apply List.Forall_nil.
Qed.

Lemma holds_add (P : N -> Prop) (r r' : Csv.Reader) (c : N) :
  reader_holds P r -> P c -> Csv.parse_add_char r c = Some r' -> reader_holds P r'.
Proof.
  intros [Hfs Hf] Hc. unfold Csv.parse_add_char.
  destruct (Csv.field_limit <=? N.of_nat (length (Csv.field r))); [discriminate|].
  intros H. injection H as <-. split; cbn [Csv.fields Csv.field]; [exact Hfs|].
  apply List.Forall_app. split; [exact Hf|].
  apply List.Forall_cons; [exact Hc | apply List.Forall_nil].
Qed.

Lemma holds_add_state (P : N -> Prop) (s : Csv.ParserState) (r r' : Csv.Reader) (c : N) :
  reader_holds P r -> P c -> Csv.set_state s <$> Csv.parse_add_char r c = Some r' ->
  reader_holds P r'.
Proof.
  intros Hr Hc H. destruct (Csv.parse_add_char r c) as [r1|] eqn:E; [|discriminate H].
  injection H as <-. exact (holds_add P r r1 c Hr Hc E).
Qed.

Lemma holds_process (P : N -> Prop) (r r' : Csv.Reader) (c : option N) :
  reader_holds P r -> (forall ch, c = Some ch -> P ch) ->
  Csv.parse_process_char r c = Some r' -> reader_holds P r'.
Proof.
  intros Hr Hc. pose proof (holds_save P r Hr) as Hs.
  unfold Csv.parse_process_char, Csv.start_field.
  destruct (Csv.state r), c as [ch|];
    try specialize (Hc ch eq_refl);
    repeat match goal with
           | |- context [if ?b then _ else _] => destruct b
           end;
    intros H;
    first [ discriminate H
          | injection H as <-; first [exact Hr | exact Hs]
          | exact (holds_add_state P _ _ _ _ Hr Hc H)
          | exact (holds_add P _ _ _ Hr Hc H) ].
Qed.

Lemma holds_feed (P : N -> Prop) (l : str) :
  forall r r', Forall P l -> reader_holds P r -> Csv.feed r l = Some r' ->
  reader_holds P r'.
Proof.
  induction l as [|c l IH]; intros r r' Hl Hr H; cbn [Csv.feed] in H.
  - apply (holds_process P r r' None Hr); [discriminate | exact H].
  - apply List.Forall_cons_iff in Hl. destruct Hl as [Hc Hl].
    destruct (Csv.parse_process_char r (Some c)) as [r1|] eqn:E; [|discriminate H].
    refine (IH r1 r' Hl _ H). apply (holds_process P r r1 (Some c) Hr); [|exact E].
    intros ch Hch. injection Hch as <-. exact Hc.
Qed.

Lemma holds_read_rows (P : N -> Prop) (lines : list str) :
  forall r rows,
  Forall (Forall P) lines -> reader_holds P r -> Csv.read_rows r lines = Some rows ->
  Forall (Forall (Forall P)) rows.
Proof.
  assert (Hreset : reader_holds P Csv.parse_reset).
  { split; apply List.Forall_nil. }
  induction lines as [|line lines IH]; intros r rows Hl Hr H.
  - rewrite read_rows_nil in H. injection H as <-. unfold at_eof.
    destruct (holds_save P r Hr) as [Hs _].
    destruct (Csv.field r), (Csv.state r);
      first [apply List.Forall_nil
            | apply List.Forall_cons; [exact Hs | apply List.Forall_nil]].
  - apply List.Forall_cons_iff in Hl. destruct Hl as [Hline Hl].
    cbn [Csv.read_rows] in H.
    destruct (Csv.feed r line) as [r1|] eqn:E; [|discriminate H].
    pose proof (holds_feed P line r r1 Hline Hr E) as Hr1. cbn [mbind option_bind] in H.
    destruct (Csv.state r1); try exact (IH r1 rows Hl Hr1 H).
    destruct (Csv.read_rows Csv.parse_reset lines) as [rows'|] eqn:E'; [|discriminate H].
    injection H as <-. apply List.Forall_cons; [exact (proj1 Hr1)|].
    exact (IH Csv.parse_reset rows' Hl Hreset E').
Qed.

Lemma holds_readlines_go (P : N -> Prop) (s cur : str) :
  Forall P cur -> Forall P s -> Forall (Forall P) (Csv.readlines_go cur s).
Proof.
  revert cur. induction s as [|c s IH]; intros cur Hcur Hs; cbn [Csv.readlines_go].
  - destruct cur as [|a cur]; [apply List.Forall_nil|].
    apply List.Forall_cons; [apply List.Forall_rev; exact Hcur | apply List.Forall_nil].
  - apply List.Forall_cons_iff in Hs. destruct Hs as [Hc Hs].
    assert (Hcc : Forall P (c :: cur)) by (apply List.Forall_cons; assumption).
    destruct (c =? 10).
    + apply List.Forall_cons; [apply List.Forall_rev; exact Hcc|].
      apply IH; [apply List.Forall_nil | exact Hs].
    + apply IH; assumption.
Qed.

Lemma In_sub_fence_open_go (c : N) (s : str) :
  forall bol skip, In c (SqlAgent.sub_fence_open_go bol skip s) -> In c s.
Proof.
  induction s as [|a s IH]; intros bol skip H; [exact H|].
  cbn [SqlAgent.sub_fence_open_go] in H. destruct skip as [|k].
  - destruct (bol && startswith SqlAgent.fence (a :: s)).
    + destruct (startswith (SqlAgent.fence ++ u "csv") (a :: s) ||
                startswith (SqlAgent.fence ++ u "CSV") (a :: s));
        right; exact (IH _ _ H).
    + destruct H as [H|H]; [left; exact H | right; exact (IH _ _ H)].
  - right. exact (IH _ _ H).
Qed.

Lemma In_sub_fence_close_go (c : N) (s : str) :
  forall skip, In c (SqlAgent.sub_fence_close_go skip s) -> In c s.
Proof.
  induction s as [|a s IH]; intros skip H; [exact H|].
  cbn [SqlAgent.sub_fence_close_go] in H. destruct skip as [|k].
  - destruct (startswith SqlAgent.fence (a :: s) && SqlAgent.at_line_end (drop 3 (a :: s))).
    + right. exact (IH _ H).
    + destruct H as [H|H]; [left; exact H | right; exact (IH _ H)].
  - right. exact (IH _ H).
Qed.

(** Every character of an extracted cell is a character of the text. *)
Lemma extracted_cells (P : N -> Prop) (text : str)
  (header : list str) (rows : list (list str)) :
  SqlAgent.parse_csv_from_text text = Some (header, rows) ->
  Forall P text -> Forall (Forall (Forall P)) (header :: rows).
Proof.
  intros H Htext. apply parse_csv_some_inv in H. destruct H as [H _].
  unfold Csv.reader_list, Csv.StringIO in H.
  refine (holds_read_rows P _ Csv.parse_reset (header :: rows) _ _ H).
  - apply holds_readlines_go; [apply List.Forall_nil|].
    apply List.Forall_forall. intros c Hc.
    apply In_sub_fence_close_go, In_sub_fence_open_go, In_strip in Hc.
    exact (proj1 (List.Forall_forall P text) Htext c Hc).
  - split; apply List.Forall_nil.
Qed.

Section Extracted.

Context {float datetime : Type}.
Variable os_error : str -> bool.

(** X21.  The file written for an extracted table reads back as that table:
    whenever the extractor returns a header and rows from a text that
    encodes to UTF-8 and the operating system takes the file, [save_table]
    returns, and the csv reader returns the same header and rows from the
    text the file then holds. *)
Theorem extracted_table_reads_back
  (text : str) (header : list str) (rows : list (list str)) (path : str) :
  SqlAgent.parse_csv_from_text text = Some (header, rows) ->
  encodable text = true -> os_error path = false ->
  exists written,
    SqlAgent.save_table (float:=float) (datetime:=datetime) os_error header rows path =
      ([WriteFile path written], Return tt) /\
    Csv.reader_list written = Some (header :: rows).
Proof.
  intros H Henc Hos. exists (CsvWriter.writerows (header :: rows)). split.
  - apply save_table_returns. split; [exact Hos | split; [|reflexivity]].
    unfold encodable_table.
    assert (Hcells : Forall (Forall (Forall (fun c => encodable_char c = true)))
                       (header :: rows)).
    { apply (extracted_cells _ text header rows H).
      apply List.Forall_forall. intros c Hc.
      exact (proj1 (forallb_forall encodable_char text) Henc c Hc). }
    eapply List.Forall_impl; [|exact Hcells]. intros row Hrow.
    eapply List.Forall_impl; [|exact Hrow]. intros f Hf.
    apply forallb_forall. exact (proj1 (List.Forall_forall _ f) Hf).
  - apply parse_csv_some_inv in H. destruct H as [H _].
    rewrite reader_list_chars.
    apply (read_written_rows (header :: rows)).
    unfold Csv.reader_list in H.
    refine (fits_read_rows _ Csv.parse_reset (header :: rows) _ H).
    split; [apply List.Forall_nil | unfold fits, Csv.field_limit; cbn; lia].
Qed.

End Extracted.

Lemma extracted_table_reads_back_witness :
  let text := u "City,Note" ++ [10; 34] ++ u "Oslo, Norway" ++ [34] ++ u ",cold" in
  SqlAgent.parse_csv_from_text text =
    Some ([u "City"; u "Note"], [[u "Oslo, Norway"; u "cold"]]) /\
  exists written,
    SqlAgent.save_table (float:=Q) (datetime:=date) os_accepts
      [u "City"; u "Note"] [[u "Oslo, Norway"; u "cold"]] (u "./outputs/result.csv") =
      ([WriteFile (u "./outputs/result.csv") written], Return tt) /\
    Csv.reader_list written = Some [[u "City"; u "Note"]; [u "Oslo, Norway"; u "cold"]].
Proof.
  intros text.
  assert (E : SqlAgent.parse_csv_from_text text =
              Some ([u "City"; u "Note"], [[u "Oslo, Norway"; u "cold"]]))
    by (vm_compute; reflexivity).
  split; [exact E|].
  exact (extracted_table_reads_back (float:=Q) (datetime:=date) os_accepts text
           [u "City"; u "Note"] [[u "Oslo, Norway"; u "cold"]] (u "./outputs/result.csv")
           E eq_refl eq_refl).
Defined.

